(** * Inventory client: reducer and session lifecycle

    A shallow embedding of the client-side core of the inventory
    application: the inventory state reducer (context/InventoryContext),
    the session store and auth service (services/authService), the HTTP
    client wrapper (services/api) and the auth provider
    (context/AuthContext).

    Conventions of the embedding:
    - TypeScript [string] is [string]; [number] is [Z] (the reducer and the
      services only copy numbers, they never compute with them);
      [T | null] and optional fields are [option T];
    - a JavaScript object that is merged with the spread operator is a
      [gmap string _] of its own properties;
    - [localStorage] is a [gmap string string];
    - asynchronous service methods are computations in a state and
      exception monad over the browser state, the backend being a record
      of reply functions; a method runs to completion as one step, so
      interleavings of calls in flight are not part of the model;
    - writes to the console are left out. *)

From Stdlib Require Import ZArith Ascii String.
From Stdlib Require PrimFloat.
From stdpp Require Import gmap strings list fin_maps.

Local Open Scope string_scope.
Set Warnings "-register-all".

(* ===================================================================== *)
(** * The inventory state store (reducer)                                 *)
(* ===================================================================== *)

Module Inventory.

(** ** Data model (types/inventory.types.ts) *)

Record Category := {
  cat_id : string;
  cat_name : string;
  cat_description : option string;
  cat_is_active : option bool
}.

Record Warehouse := {
  wh_id : string;
  wh_name : string;
  wh_code : option string;
  wh_address : option string;
  wh_phone : option string;
  wh_is_active : option bool
}.

Record InventoryItem := {
  id : string;
  name : string;
  category_id : string;
  category : option Category;
  current_stock : Z;
  min_stock : Z;
  max_stock : option Z;
  buy_price : Z;
  sell_price : Z;
  unit : string;
  sku : string;
  description : option string;
  warehouse_id : option string;
  warehouse : option Warehouse;
  created_by : string;
  created_at : string;
  updated_at : string;
  is_active : bool
}.

(** A property value of the two small objects the reducer merges
    ([InventoryFilters] and [Pagination]).  A property can be present
    with the value [undefined]; the spread operator copies it like any
    other own property. *)
Inductive prop_value :=
| VStr (s : string)
| VNum (n : Z)
| VBool (b : bool)
| VUndefined.

(** [InventoryFilters], [Pagination] and their [Partial<_>] payloads:
    the own properties of the object. *)
Abbreviation InventoryFilters := (gmap string prop_value).
Abbreviation Pagination := (gmap string prop_value).

(** [{ ...a, ...b }]: the own properties of [a], overridden by those of
    [b]. *)
Definition spread (a b : gmap string prop_value) : gmap string prop_value :=
  b ∪ a.

Record InventoryState := {
  items : list InventoryItem;
  categories : list Category;
  warehouses : list Warehouse;
  lowStockItems : list InventoryItem;
  inventoryValue : Z;
  isLoading : bool;
  error : option string;
  filters : InventoryFilters;
  pagination : Pagination
}.

Definition initialState : InventoryState := {|
  items := [];
  categories := [];
  warehouses := [];
  lowStockItems := [];
  inventoryValue := 0;
  isLoading := false;
  error := None;
  filters :=
    <["category_id" := VStr ""]>
      (<["min_stock" := VNum 0]> (<["search" := VStr ""]> ∅));
  pagination :=
    <["page" := VNum 1]>
      (<["limit" := VNum 10]>
         (<["total" := VNum 0]> (<["totalPages" := VNum 0]> ∅)))
|}.

Inductive InventoryAction :=
| FETCH_START
| FETCH_SUCCESS (payload_items : list InventoryItem) (payload_pagination : Pagination)
| FETCH_FAILURE (payload : string)
| ADD_ITEM (payload : InventoryItem)
| UPDATE_ITEM (payload : InventoryItem)
| DELETE_ITEM (payload : string)
| SET_CATEGORIES (payload : list Category)
| SET_WAREHOUSES (payload : list Warehouse)
| SET_LOW_STOCK_ITEMS (payload : list InventoryItem)
| SET_INVENTORY_VALUE (payload : Z)
| SET_FILTERS (payload : gmap string prop_value)
| SET_PAGINATION (payload : gmap string prop_value)
| CLEAR_ERROR
| RESET_LOADING.

(** ** The reducer *)

(** [items.map(item => item.id === payload.id ? payload : item)] *)
Definition replace_by_id (payload : InventoryItem) (l : list InventoryItem)
  : list InventoryItem :=
  map (fun item => if String.eqb (id item) (id payload) then payload else item) l.

(** [items.filter(item => item.id !== payload)] *)
Definition remove_by_id (payload : string) (l : list InventoryItem)
  : list InventoryItem :=
  List.filter (fun item => negb (String.eqb (id item) payload)) l.

Definition with_items (state : InventoryState) (l : list InventoryItem)
  : InventoryState :=
  {| items := l;
     categories := categories state;
     warehouses := warehouses state;
     lowStockItems := lowStockItems state;
     inventoryValue := inventoryValue state;
     isLoading := false;
     error := None;
     filters := filters state;
     pagination := pagination state |}.

(** The [default] branch of the source is not reachable for an action
    of the declared type, and has no counterpart here. *)
Definition inventoryReducer (state : InventoryState) (action : InventoryAction)
  : InventoryState :=
  match action with
  | FETCH_START =>
      {| items := items state; categories := categories state;
         warehouses := warehouses state; lowStockItems := lowStockItems state;
         inventoryValue := inventoryValue state;
         isLoading := true; error := None;
         filters := filters state; pagination := pagination state |}
  | FETCH_SUCCESS its pag =>
      {| items := its; categories := categories state;
         warehouses := warehouses state; lowStockItems := lowStockItems state;
         inventoryValue := inventoryValue state;
         isLoading := false; error := None;
         filters := filters state; pagination := pag |}
  | FETCH_FAILURE msg =>
      {| items := items state; categories := categories state;
         warehouses := warehouses state; lowStockItems := lowStockItems state;
         inventoryValue := inventoryValue state;
         isLoading := false; error := Some msg;
         filters := filters state; pagination := pagination state |}
  | ADD_ITEM payload => with_items state (payload :: items state)
  | UPDATE_ITEM payload => with_items state (replace_by_id payload (items state))
  | DELETE_ITEM payload => with_items state (remove_by_id payload (items state))
  | SET_CATEGORIES cs =>
      {| items := items state; categories := cs;
         warehouses := warehouses state; lowStockItems := lowStockItems state;
         inventoryValue := inventoryValue state;
         isLoading := isLoading state; error := error state;
         filters := filters state; pagination := pagination state |}
  | SET_WAREHOUSES ws =>
      {| items := items state; categories := categories state;
         warehouses := ws; lowStockItems := lowStockItems state;
         inventoryValue := inventoryValue state;
         isLoading := isLoading state; error := error state;
         filters := filters state; pagination := pagination state |}
  | SET_LOW_STOCK_ITEMS its =>
      {| items := items state; categories := categories state;
         warehouses := warehouses state; lowStockItems := its;
         inventoryValue := inventoryValue state;
         isLoading := isLoading state; error := error state;
         filters := filters state; pagination := pagination state |}
  | SET_INVENTORY_VALUE v =>
      {| items := items state; categories := categories state;
         warehouses := warehouses state; lowStockItems := lowStockItems state;
         inventoryValue := v;
         isLoading := isLoading state; error := error state;
         filters := filters state; pagination := pagination state |}
  | SET_FILTERS payload =>
      {| items := items state; categories := categories state;
         warehouses := warehouses state; lowStockItems := lowStockItems state;
         inventoryValue := inventoryValue state;
         isLoading := isLoading state; error := error state;
         filters := spread (filters state) payload;
         pagination := pagination state |}
  | SET_PAGINATION payload =>
      {| items := items state; categories := categories state;
         warehouses := warehouses state; lowStockItems := lowStockItems state;
         inventoryValue := inventoryValue state;
         isLoading := isLoading state; error := error state;
         filters := filters state;
         pagination := spread (pagination state) payload |}
  | CLEAR_ERROR =>
      {| items := items state; categories := categories state;
         warehouses := warehouses state; lowStockItems := lowStockItems state;
         inventoryValue := inventoryValue state;
         isLoading := isLoading state; error := None;
         filters := filters state; pagination := pagination state |}
  | RESET_LOADING =>
      {| items := items state; categories := categories state;
         warehouses := warehouses state; lowStockItems := lowStockItems state;
         inventoryValue := inventoryValue state;
         isLoading := false; error := error state;
         filters := filters state; pagination := pagination state |}
  end.

(** Dispatching a sequence of actions, oldest first. *)
Definition dispatch_all (state : InventoryState) (actions : list InventoryAction)
  : InventoryState :=
  fold_left inventoryReducer actions state.

(** ** The expected contents, keyed by id *)

(** The three item actions of the reducer. *)
Definition is_item_action (a : InventoryAction) : bool :=
  match a with
  | ADD_ITEM _ | UPDATE_ITEM _ | DELETE_ITEM _ => true
  | _ => false
  end.

(** The ids of the items, in list order. *)
Definition ids (l : list InventoryItem) : list string := map id l.

(** The ids of the payloads of the [ADD_ITEM] actions of a sequence. *)
Fixpoint added_ids (actions : list InventoryAction) : list string :=
  match actions with
  | [] => []
  | ADD_ITEM payload :: rest => id payload :: added_ids rest
  | _ :: rest => added_ids rest
  end.

(** A list of items viewed as a finite map from id to item. *)
Definition items_by_id (l : list InventoryItem) : gmap string InventoryItem :=
  list_to_map (map (fun item => (id item, item)) l).

(** The mathematical effect of one item action on a map keyed by id:
    insert, replace the binding of an id that is present, remove. *)
Definition expected_step (m : gmap string InventoryItem) (a : InventoryAction)
  : gmap string InventoryItem :=
  match a with
  | ADD_ITEM payload => <[id payload := payload]> m
  | UPDATE_ITEM payload =>
      match m !! id payload with
      | Some _ => <[id payload := payload]> m
      | None => m
      end
  | DELETE_ITEM payload => delete payload m
  | _ => m
  end.

Definition expected_items (m : gmap string InventoryItem)
  (actions : list InventoryAction) : gmap string InventoryItem :=
  fold_left expected_step actions m.

(** Every [ADD_ITEM] of the sequence adds an id that is not bound at
    that point. *)
Fixpoint adds_fresh (m : gmap string InventoryItem)
  (actions : list InventoryAction) : Prop :=
  match actions with
  | [] => True
  | a :: rest =>
      match a with
      | ADD_ITEM payload => m !! id payload = None
      | _ => True
      end /\ adds_fresh (expected_step m a) rest
  end.

(** ** Sample data *)

(** An item of the seed data, with a chosen id, name and stock. *)
Definition sample_item (i n : string) (stock : Z) : InventoryItem :=
  {| id := i; name := n; category_id := "1"; category := None;
     current_stock := stock; min_stock := 5; max_stock := Some 50%Z;
     buy_price := 15000000; sell_price := 18000000; unit := "pcs";
     sku := "ELEC-001"; description := None; warehouse_id := None;
     warehouse := None; created_by := "admin";
     created_at := "2024-01-01"; updated_at := "2024-01-01";
     is_active := true |}.

(** A state holding two items and an error. *)
Definition sample_state : InventoryState :=
  {| items := [sample_item "a" "Laptop" 15; sample_item "b" "Kaos" 100];
     categories := []; warehouses := []; lowStockItems := [];
     inventoryValue := 42; isLoading := true; error := Some "Gagal";
     filters := filters initialState;
     pagination := <["page" := VNum 3]> (pagination initialState) |}.

(** The same state with other filters. *)
Definition with_filters (s : InventoryState) (f : InventoryFilters)
  : InventoryState :=
  {| items := items s; categories := categories s;
     warehouses := warehouses s; lowStockItems := lowStockItems s;
     inventoryValue := inventoryValue s; isLoading := isLoading s;
     error := error s; filters := f; pagination := pagination s |}.

Definition sample_actions : list InventoryAction :=
  [ ADD_ITEM (sample_item "c" "Pensil" 7);
    UPDATE_ITEM (sample_item "b" "Kaos Polo" 99);
    DELETE_ITEM "a";
    DELETE_ITEM "zz";
    UPDATE_ITEM (sample_item "yy" "Hantu" 1) ].

End Inventory.

(* ===================================================================== *)
(** * JSON text, as read by [JSON.parse]                                  *)
(* ===================================================================== *)

Module Json.

(** A JSON value.  A string is the list of its code units; a number is
    kept as the decimal it was written as, [mantissa * 10 ^ exponent]. *)
Inductive value :=
| JNull
| JBool (b : bool)
| JNum (mantissa exponent : Z)
| JStr (s : list N)
| JArr (vs : list value)
| JObj (members : list (list N * value)).

(** JavaScript truthiness of a JSON value, as tested by [||] and [!].
    A number is falsy when it is zero; decimals are kept exact here, so
    a nonzero decimal too small for a double counts as nonzero. *)
Definition truthy (v : value) : bool :=
  match v with
  | JNull => false
  | JBool b => b
  | JNum m _ => negb (m =? 0)%Z
  | JStr s => match s with [] => false | _ :: _ => true end
  | JArr _ | JObj _ => true
  end.

(** The outcome of a parsing function: a result with the rest of the
    input, a syntax error, or not enough fuel. *)
Inductive presult (A : Type) :=
| POk (a : A) (rest : list ascii)
| PSyntaxError
| POutOfFuel.
Arguments POk {A} a rest.
Arguments PSyntaxError {A}.
Arguments POutOfFuel {A}.

Definition code (c : ascii) : N := N_of_ascii c.

Definition is_ws (c : ascii) : bool :=
  let n := code c in
  (n =? 32)%N || (n =? 9)%N || (n =? 10)%N || (n =? 13)%N.

Fixpoint skip_ws (cs : list ascii) : list ascii :=
  match cs with
  | c :: r => if is_ws c then skip_ws r else cs
  | [] => []
  end.

Definition is_digit (c : ascii) : bool :=
  let n := code c in (48 <=? n)%N && (n <=? 57)%N.

Definition digit_val (c : ascii) : Z := (Z.of_N (code c) - 48)%Z.

Definition hex_val (c : ascii) : option N :=
  let n := code c in
  if (48 <=? n)%N && (n <=? 57)%N then Some (n - 48)%N
  else if (65 <=? n)%N && (n <=? 70)%N then Some (n - 55)%N
  else if (97 <=? n)%N && (n <=? 102)%N then Some (n - 87)%N
  else None.

Definition hex4 (a b c d : ascii) : option N :=
  match hex_val a, hex_val b, hex_val c, hex_val d with
  | Some x, Some y, Some z, Some w => Some (((x * 16 + y) * 16 + z) * 16 + w)%N
  | _, _, _, _ => None
  end.

(** The character after a backslash, other than [u]. *)
Definition simple_escape (c : ascii) : option N :=
  let n := code c in
  if (n =? 34)%N then Some 34%N          (* quotation mark *)
  else if (n =? 92)%N then Some 92%N     (* reverse solidus *)
  else if (n =? 47)%N then Some 47%N     (* solidus *)
  else if (n =? 98)%N then Some 8%N      (* b: backspace *)
  else if (n =? 102)%N then Some 12%N    (* f: form feed *)
  else if (n =? 110)%N then Some 10%N    (* n: line feed *)
  else if (n =? 114)%N then Some 13%N    (* r: carriage return *)
  else if (n =? 116)%N then Some 9%N     (* t: tab *)
  else None.

(** The longest run of digits at the head of [cs], accumulated in base
    ten onto [acc]; [k] counts the digits read. *)
Fixpoint take_digits (acc k : Z) (cs : list ascii) : Z * Z * list ascii :=
  match cs with
  | c :: r =>
      if is_digit c then take_digits (10 * acc + digit_val c)%Z (k + 1)%Z r
      else (acc, k, cs)
  | [] => (acc, k, [])
  end.

(** [int]: a single zero, or a nonzero digit followed by digits. *)
Definition parse_int (cs : list ascii) : option (Z * list ascii) :=
  match cs with
  | c :: r =>
      if negb (is_digit c) then None
      else if (code c =? 48)%N then Some (0%Z, r)
      else let '(m, _, r') := take_digits 0 0 cs in Some (m, r')
  | [] => None
  end.

(** [frac]: nothing, or a dot followed by at least one digit.  The digits
    extend the mantissa [m]; the count of digits is returned with it. *)
Definition parse_frac (m : Z) (cs : list ascii) : option (Z * Z * list ascii) :=
  match cs with
  | c :: r =>
      if (code c =? 46)%N then
        match r with
        | d :: _ => if is_digit d then Some (take_digits m 0 r) else None
        | [] => None
        end
      else Some (m, 0%Z, cs)
  | [] => Some (m, 0%Z, [])
  end.

(** [exp]: nothing, or [e] or [E], an optional sign and at least one
    digit. *)
Definition parse_exp (cs : list ascii) : option (Z * list ascii) :=
  match cs with
  | c :: r =>
      if (code c =? 101)%N || (code c =? 69)%N then
        let '(sgn, r1) :=
          match r with
          | s :: r0 =>
              if (code s =? 45)%N then ((-1)%Z, r0)
              else if (code s =? 43)%N then (1%Z, r0)
              else (1%Z, r)
          | [] => (1%Z, r)
          end in
        match r1 with
        | d :: _ =>
            if is_digit d then
              let '(x, _, r2) := take_digits 0 0 r1 in Some ((sgn * x)%Z, r2)
            else None
        | [] => None
        end
      else Some (0%Z, cs)
  | [] => Some (0%Z, [])
  end.

Definition parse_number (cs : list ascii) : presult value :=
  let '(sgn, cs1) :=
    match cs with
    | c :: r => if (code c =? 45)%N then ((-1)%Z, r) else (1%Z, cs)
    | [] => (1%Z, cs)
    end in
  match parse_int cs1 with
  | None => PSyntaxError
  | Some (ip, cs2) =>
      match parse_frac ip cs2 with
      | None => PSyntaxError
      | Some (m, fd, cs3) =>
          match parse_exp cs3 with
          | None => PSyntaxError
          | Some (e, cs4) => POk (JNum (sgn * m) (e - fd)) cs4
          end
      end
  end.

(** The characters of a string after its opening quote, up to and
    including the closing quote. *)
Fixpoint parse_string_body (cs : list ascii) : presult (list N) :=
  match cs with
  | [] => PSyntaxError
  | c :: r =>
      if (code c =? 34)%N then POk [] r
      else if (code c =? 92)%N then
        match r with
        | [] => PSyntaxError
        | e :: r1 =>
            if (code e =? 117)%N then
              match r1 with
              | h1 :: h2 :: h3 :: h4 :: r2 =>
                  match hex4 h1 h2 h3 h4 with
                  | Some n =>
                      match parse_string_body r2 with
                      | POk s r' => POk (n :: s) r'
                      | PSyntaxError => PSyntaxError
                      | POutOfFuel => POutOfFuel
                      end
                  | None => PSyntaxError
                  end
              | _ => PSyntaxError
              end
            else
              match simple_escape e with
              | Some n =>
                  match parse_string_body r1 with
                  | POk s r' => POk (n :: s) r'
                  | PSyntaxError => PSyntaxError
                  | POutOfFuel => POutOfFuel
                  end
              | None => PSyntaxError
              end
        end
      else if (code c <? 32)%N then PSyntaxError
      else
        match parse_string_body r with
        | POk s r' => POk (code c :: s) r'
        | PSyntaxError => PSyntaxError
        | POutOfFuel => POutOfFuel
        end
  end.

(** [p] is a prefix of [cs]: the rest of [cs] after it. *)
Fixpoint strip_prefix (p cs : list ascii) : option (list ascii) :=
  match p, cs with
  | [], _ => Some cs
  | a :: p', c :: cs' => if Ascii.eqb a c then strip_prefix p' cs' else None
  | _ :: _, [] => None
  end.

(** A literal name [null], [true] or [false]. *)
Definition parse_literal (cs : list ascii) : presult value :=
  match strip_prefix (list_ascii_of_string "null") cs with
  | Some r => POk JNull r
  | None =>
      match strip_prefix (list_ascii_of_string "true") cs with
      | Some r => POk (JBool true) r
      | None =>
          match strip_prefix (list_ascii_of_string "false") cs with
          | Some r => POk (JBool false) r
          | None => PSyntaxError
          end
      end
  end.

(** Propagation of the outcome of a sub-parser. *)
Definition pbind {A B} (r : presult A) (k : A -> list ascii -> presult B)
  : presult B :=
  match r with
  | POk a rest => k a rest
  | PSyntaxError => PSyntaxError
  | POutOfFuel => POutOfFuel
  end.

(** A value, given the parsers of the elements of a non-empty array
    after its bracket and of the members of a non-empty object after its
    brace. *)
Definition value_body
  (elems : list ascii -> presult (list value))
  (members : list ascii -> presult (list (list N * value)))
  (cs : list ascii) : presult value :=
  match skip_ws cs with
  | [] => PSyntaxError
  | c :: r =>
      if (code c =? 34)%N then
        pbind (parse_string_body r) (fun s r' => POk (JStr s) r')
      else if (code c =? 91)%N then
        match skip_ws r with
        | c' :: r' =>
            if (code c' =? 93)%N then POk (JArr []) r'
            else pbind (elems r) (fun vs r'' => POk (JArr vs) r'')
        | [] => PSyntaxError
        end
      else if (code c =? 123)%N then
        match skip_ws r with
        | c' :: r' =>
            if (code c' =? 125)%N then POk (JObj []) r'
            else pbind (members r) (fun ms r'' => POk (JObj ms) r'')
        | [] => PSyntaxError
        end
      else if is_digit c || (code c =? 45)%N then parse_number (c :: r)
      else parse_literal (c :: r)
  end.

(** One element, then a comma and the other elements, or the closing
    bracket. *)
Definition elems_body
  (val : list ascii -> presult value)
  (elems : list ascii -> presult (list value))
  (cs : list ascii) : presult (list value) :=
  pbind (val cs) (fun v r =>
    match skip_ws r with
    | c :: r' =>
        if (code c =? 44)%N then
          pbind (elems r') (fun vs r'' => POk (v :: vs) r'')
        else if (code c =? 93)%N then POk [v] r'
        else PSyntaxError
    | [] => PSyntaxError
    end).

(** One member [string : value], then a comma and the other members, or
    the closing brace. *)
Definition members_body
  (val : list ascii -> presult value)
  (members : list ascii -> presult (list (list N * value)))
  (cs : list ascii) : presult (list (list N * value)) :=
  match skip_ws cs with
  | q :: r0 =>
      if (code q =? 34)%N then
        pbind (parse_string_body r0) (fun k r1 =>
          match skip_ws r1 with
          | colon :: r2 =>
              if (code colon =? 58)%N then
                pbind (val r2) (fun v r =>
                  match skip_ws r with
                  | c :: r' =>
                      if (code c =? 44)%N then
                        pbind (members r')
                          (fun ms r'' => POk ((k, v) :: ms) r'')
                      else if (code c =? 125)%N then POk [(k, v)] r'
                      else PSyntaxError
                  | [] => PSyntaxError
                  end)
              else PSyntaxError
          | [] => PSyntaxError
          end)
      else PSyntaxError
  | [] => PSyntaxError
  end.

(** The three parsers; every call uses one unit of fuel. *)
Fixpoint parse_value (fuel : nat) (cs : list ascii) {struct fuel}
  : presult value :=
  match fuel with
  | O => POutOfFuel
  | S fuel' => value_body (parse_elems fuel') (parse_members fuel') cs
  end
with parse_elems (fuel : nat) (cs : list ascii) {struct fuel}
  : presult (list value) :=
  match fuel with
  | O => POutOfFuel
  | S fuel' => elems_body (parse_value fuel') (parse_elems fuel') cs
  end
with parse_members (fuel : nat) (cs : list ascii) {struct fuel}
  : presult (list (list N * value)) :=
  match fuel with
  | O => POutOfFuel
  | S fuel' => members_body (parse_value fuel') (parse_members fuel') cs
  end.

(** Fuel that is enough for a text of [cs] characters. *)
Definition enough_fuel (cs : list ascii) : nat := 2 * length cs + 1.

(** [JSON.parse(text)]: one value between optional white space; [None]
    stands for the [SyntaxError] it throws. *)
Definition JSON_parse (text : string) : option value :=
  let cs := list_ascii_of_string text in
  match parse_value (enough_fuel cs) cs with
  | POk v rest => match skip_ws rest with [] => Some v | _ :: _ => None end
  | PSyntaxError => None
  | POutOfFuel => None
  end.

(** A string literal as a list of code units. *)
Definition js (s : string) : list N := map code (list_ascii_of_string s).

(** A text written with apostrophes in place of quotation marks. *)
Definition quoted (s : string) : string :=
  string_of_list_ascii
    (map (fun c => if (code c =? 39)%N then ascii_of_N 34 else c)
       (list_ascii_of_string s)).

End Json.

(* ===================================================================== *)
(** * The session store and the auth service (services/authService)       *)
(* ===================================================================== *)

Module Auth.
Import Json.

(** ** Data model (types) *)

Inductive UserRole := super_admin | gudang | kasir | manajer.

Record User := {
  id : string;
  username : string;
  email : string;
  full_name : string;
  role : UserRole;
  warehouse_id : option string;
  is_active : bool;
  is_verified : option bool;
  created_at : option string;
  updated_at : option string;
  last_login : option string
}.

Record LoginCredentials := {
  cred_username : string;
  cred_password : string
}.

Record RegisterPayload := {
  reg_full_name : string;
  reg_username : string;
  reg_email : string;
  reg_password : string;
  reg_role : UserRole;
  reg_warehouse_id : option string
}.

(** The login response.  [access_token] is declared as a string, but the
    service tests it, so a missing token is [None]. *)
Record AuthResponse := {
  access_token : option string;
  refresh_token : option string;
  token_type : string;
  expires_in : Z;
  user : option User
}.

(** ** The browser and the backend *)

(** The error axios rejects with: [response] is absent when no response
    was received (network failure), [message] is the error's text.  The
    data of a response without a body is the empty string. *)
Record AxiosError := {
  response : option (Z * value);   (* status, data *)
  message : string
}.

(** What a call can throw, and what a promise can reject with. *)
Inductive exn :=
| Error (msg : string)             (* new Error(msg) *)
| AxiosFailure (e : AxiosError)    (* the error object of axios *)
| SyntaxError                      (* thrown by JSON.parse *)
| ErrorBody (data : value).        (* a response body used as rejection *)

Inductive result (A : Type) :=
| Returned (a : A)
| Thrown (e : exn).
Arguments Returned {A} a.
Arguments Thrown {A} e.

Record Request := {
  method : string;
  url : string;
  authorization : option string
}.

(** The part of the browser the services act on.  [location_href] is the
    list of the values assigned to [window.location.href] and [requests]
    the list of the requests sent, both newest first. *)
Record Browser := {
  localStorage : gmap string string;
  location_href : list string;
  requests : list Request
}.

(** The outcome of one HTTP exchange, as axios reports it. *)
Inductive reply (A : Type) :=
| Fulfilled (data : A)
| Rejected (error : AxiosError).
Arguments Fulfilled {A} data.
Arguments Rejected {A} error.

(** The backend: for each endpoint, the reply to a request, given the
    value of its [Authorization] header. *)
Record Backend := {
  post_auth_login : LoginCredentials -> option string -> reply AuthResponse;
  get_auth_me : option string -> reply (option User);
  post_auth_register : RegisterPayload -> option string -> reply unit;
  post_auth_logout : option string -> reply unit
}.

(** ** Computations on the browser state *)

Definition M (A : Type) : Type := Browser -> result A * Browser.

Definition ret {A} (a : A) : M A := fun b => (Returned a, b).

Definition bind {A B} (m : M A) (k : A -> M B) : M B :=
  fun b =>
    match m b with
    | (Returned a, b') => k a b'
    | (Thrown e, b') => (Thrown e, b')
    end.

Definition throw {A} (e : exn) : M A := fun b => (Thrown e, b).

(** [try { m } catch (e) { handler e }] *)
Definition try_catch {A} (m : M A) (handler : exn -> M A) : M A :=
  fun b =>
    match m b with
    | (Returned a, b') => (Returned a, b')
    | (Thrown e, b') => handler e b'
    end.

(** [try { m } finally { final }]: [final] runs on both exits; an
    exception of [final] replaces the outcome of [m]. *)
Definition try_finally {A} (m : M A) (final : M unit) : M A :=
  fun b =>
    match m b with
    | (r, b') =>
        match final b' with
        | (Returned _, b'') => (r, b'')
        | (Thrown e, b'') => (Thrown e, b'')
        end
    end.

Notation "'let!' x ':=' c1 'in' c2" := (bind c1 (fun x => c2))
  (at level 10, x name, c1 at level 100, c2 at level 200).
Notation "c1 ';;' c2" := (bind c1 (fun _ => c2))
  (at level 100, c2 at level 200, right associativity).

Definition getItem (key : string) : M (option string) :=
  fun b => (Returned (localStorage b !! key), b).

Definition setItem (key v : string) : M unit :=
  fun b => (Returned tt,
            {| localStorage := <[key := v]> (localStorage b);
               location_href := location_href b;
               requests := requests b |}).

Definition removeItem (key : string) : M unit :=
  fun b => (Returned tt,
            {| localStorage := delete key (localStorage b);
               location_href := location_href b;
               requests := requests b |}).

(** [window.location.href = target] *)
Definition set_location_href (target : string) : M unit :=
  fun b => (Returned tt,
            {| localStorage := localStorage b;
               location_href := target :: location_href b;
               requests := requests b |}).

(** Truthiness of a string, and of a string that may be null. *)
Definition truthy_string (s : string) : bool := negb (String.eqb s "").

Definition truthy_opt (o : option string) : bool :=
  match o with
  | Some s => truthy_string s
  | None => false
  end.

(** The request interceptor: the [Authorization] header added when a
    token is stored. *)
Definition bearer (b : Browser) : option string :=
  match localStorage b !! "inventory_token" with
  | Some token => if truthy_string token then Some ("Bearer " ++ token) else None
  | None => None
  end.

(** The browser after a request has been sent: the request interceptor
    has added the header. *)
Definition log_request (meth path : string) (b : Browser) : Browser :=
  {| localStorage := localStorage b;
     location_href := location_href b;
     requests :=
       {| method := meth; url := path; authorization := bearer b |}
       :: requests b |}.

(** One request through the axios instance of the auth service, which
    has the request interceptor only. *)
Definition api_call {A} (meth path : string) (server : option string -> reply A)
  : M A :=
  fun b =>
    match server (bearer b) with
    | Fulfilled data => (Returned data, log_request meth path b)
    | Rejected error => (Thrown (AxiosFailure error), log_request meth path b)
    end.

(** ** [JSON.stringify] of a user *)

Definition role_name (r : UserRole) : string :=
  match r with
  | super_admin => "super_admin"
  | gudang => "gudang"
  | kasir => "kasir"
  | manajer => "manajer"
  end.

Definition dquote : ascii := ascii_of_N 34.
Definition backslash : ascii := ascii_of_N 92.

Definition hex_digit (n : N) : ascii :=
  if (n <? 10)%N then ascii_of_N (48 + n) else ascii_of_N (87 + n).

Definition escape_char (c : ascii) : list ascii :=
  let n := code c in
  if (n =? 34)%N then [backslash; dquote]
  else if (n =? 92)%N then [backslash; backslash]
  else if (n =? 8)%N then [backslash; ascii_of_N 98]
  else if (n =? 12)%N then [backslash; ascii_of_N 102]
  else if (n =? 10)%N then [backslash; ascii_of_N 110]
  else if (n =? 13)%N then [backslash; ascii_of_N 114]
  else if (n =? 9)%N then [backslash; ascii_of_N 116]
  else if (n <? 32)%N then
    [backslash; ascii_of_N 117; ascii_of_N 48; ascii_of_N 48;
     hex_digit (n / 16); hex_digit (n mod 16)]
  else [c].

Definition quote_string (s : string) : list ascii :=
  (dquote :: flat_map escape_char (list_ascii_of_string s) ++ [dquote])%list.

Definition bool_text (b : bool) : list ascii :=
  list_ascii_of_string (if b then "true" else "false").

(** The value of a property of a user: a string or a boolean. *)
Inductive field_value :=
| FString (s : string)
| FBool (b : bool).

Definition value_text (v : field_value) : list ascii :=
  match v with
  | FString s => quote_string s
  | FBool b => bool_text b
  end.

(** The own properties of a user object, in the order of the [User]
    interface; a property that is undefined is not written by
    [JSON.stringify]. *)
Definition user_fields (u : User) : list (string * field_value) :=
  omap (fun f => f)
    [ Some ("id", FString (id u));
      Some ("username", FString (username u));
      Some ("email", FString (email u));
      Some ("full_name", FString (full_name u));
      Some ("role", FString (role_name (role u)));
      (fun w => ("warehouse_id", FString w)) <$> warehouse_id u;
      Some ("is_active", FBool (is_active u));
      (fun v => ("is_verified", FBool v)) <$> is_verified u;
      (fun t => ("created_at", FString t)) <$> created_at u;
      (fun t => ("updated_at", FString t)) <$> updated_at u;
      (fun t => ("last_login", FString t)) <$> last_login u ].

(** One member, [key:value]. *)
Definition field_text (f : string * field_value) : list ascii :=
  (quote_string (fst f) ++ ascii_of_N 58 :: value_text (snd f))%list.

Fixpoint join_members (ms : list (list ascii)) : list ascii :=
  match ms with
  | [] => []
  | [m] => m
  | m :: rest => (m ++ ascii_of_N 44 :: join_members rest)%list
  end.

Definition object_text (fields : list (string * field_value)) : list ascii :=
  (ascii_of_N 123 :: join_members (map field_text fields)
   ++ [ascii_of_N 125])%list.

(** [JSON.stringify(user)] *)
Definition JSON_stringify (u : User) : string :=
  string_of_list_ascii (object_text (user_fields u)).

(** The JSON value of a property, and of an object of such properties. *)
Definition field_json (v : field_value) : value :=
  match v with
  | FString s => JStr (js s)
  | FBool b => JBool b
  end.

Definition object_json (fields : list (string * field_value)) : value :=
  JObj (map (fun f => (js (fst f), field_json (snd f))) fields).

(** ** class AuthService *)

Definition tokenKey : string := "inventory_token".
Definition refreshKey : string := "refresh_token".
Definition userKey : string := "inventory_user".

Definition setToken (token : string) : M unit := setItem tokenKey token.

Definition getToken : M (option string) := getItem tokenKey.

Definition setUser (u : User) : M unit := setItem userKey (JSON_stringify u).

(** [userStr ? JSON.parse(userStr) : null].  Nothing is caught here, so a
    [SyntaxError] of [JSON.parse] leaves the method. *)
Definition getUser : M value :=
  let! userStr := getItem userKey in
  match userStr with
  | Some str =>
      if truthy_string str then
        match JSON_parse str with
        | Some v => ret v
        | None => throw SyntaxError
        end
      else ret JNull
  | None => ret JNull
  end.

(** [!!this.getToken()] *)
Definition isAuthenticated : M bool :=
  let! token := getToken in ret (truthy_opt token).

Definition clearAuth : M unit :=
  removeItem tokenKey ;; removeItem refreshKey ;; removeItem userKey.

Definition getCurrentUser (backend : Backend) : M (option User) :=
  let! token := getToken in
  if negb (truthy_opt token) then ret None
  else
    try_catch
      (let! res := api_call "GET" "/auth/me" (get_auth_me backend) in
       (match res with
        | Some u => setUser u
        | None => ret tt
        end) ;;
       ret res)
      (fun _ => clearAuth ;; ret None).

(** [if (refresh_token) localStorage.setItem(this.refreshKey, refresh_token)] *)
Definition store_refresh_token (refresh : option string) : M unit :=
  match refresh with
  | Some r => if truthy_string r then setItem refreshKey r else ret tt
  | None => ret tt
  end.

Definition login (backend : Backend) (credentials : LoginCredentials) : M User :=
  try_catch
    (let! res := api_call "POST" "/auth/login"
                   (post_auth_login backend credentials) in
     match access_token res with
     | Some token =>
         if negb (truthy_string token)
         then throw (Error "Login failed: access token missing")
         else
           setToken token ;;
           store_refresh_token (refresh_token res) ;;
           match user res with
           | Some u => setUser u ;; ret u
           | None =>
               let! currentUser := getCurrentUser backend in
               match currentUser with
               | Some u => ret u
               | None => throw (Error "Login failed: user data missing")
               end
           end
     | None => throw (Error "Login failed: access token missing")
     end)
    (fun error => throw error).

Definition register (backend : Backend) (data : RegisterPayload) : M unit :=
  try_catch
    (api_call "POST" "/auth/register" (post_auth_register backend data))
    (fun error => throw error).

Definition logout (backend : Backend) : M unit :=
  try_finally
    (try_catch
       (api_call "POST" "/auth/logout" (post_auth_logout backend))
       (fun _ => ret tt))
    (clearAuth ;; set_location_href "/login").

End Auth.

(* ===================================================================== *)
(** * The HTTP client (services/api)                                      *)
(* ===================================================================== *)

Module ApiClient.
Import Json Auth.

(** [error.response?.data || error]: the value the response interceptor
    rejects with. *)
Definition rejection (error : AxiosError) : exn :=
  match response error with
  | Some (_, data) => if truthy data then ErrorBody data else AxiosFailure error
  | None => AxiosFailure error
  end.

(** [error.response?.status === 401] *)
Definition is_unauthorized (error : AxiosError) : bool :=
  match response error with
  | Some (status, _) => (status =? 401)%Z
  | None => false
  end.

(** The error handler of the response interceptor. *)
Definition on_response_error {A} (error : AxiosError) : M A :=
  (if is_unauthorized error
   then clearAuth ;; set_location_href "/login"
   else ret tt) ;;
  throw (rejection error).

(** One call through the client ([get], [post], [put], [delete]): the
    request interceptor adds the header from [authService.getToken()],
    which reads the key [bearer] reads; the response interceptor unwraps
    the data or handles the error.  [server] is the backend's reply to
    the request, given its [Authorization] header. *)
Definition request (meth path : string) (server : option string -> reply value)
  : M value :=
  fun b =>
    match server (bearer b) with
    | Fulfilled data => (Returned data, log_request meth path b)
    | Rejected error => on_response_error error (log_request meth path b)
    end.

End ApiClient.

(* ===================================================================== *)
(** * The auth provider (context/AuthContext) and the client as a whole   *)
(* ===================================================================== *)

Module AuthProvider.
Import Json Auth.

(** The three [useState] cells of the provider. *)
Record ProviderState := {
  user : option User;
  isLoading : bool;
  error : option string
}.

(** The client: what the browser keeps, and what the mounted provider
    holds. *)
Record Client := {
  browser : Browser;
  provider : ProviderState
}.

(** The provider as first rendered: [useState(null)], [useState(true)],
    [useState(null)]. *)
Definition mounted : ProviderState :=
  {| user := None; isLoading := true; error := None |}.

(** [const isAuthenticated = !!user] *)
Definition isAuthenticated (p : ProviderState) : bool :=
  match user p with
  | Some _ => true
  | None => false
  end.

(** [err?.message || fallback], for the errors the auth service throws. *)
Definition message_or (fallback : string) (e : exn) : string :=
  match e with
  | Error msg => if truthy_string msg then msg else fallback
  | AxiosFailure a => if truthy_string (message a) then message a else fallback
  | SyntaxError | ErrorBody _ => fallback
  end.

(** [checkAuth], run by the effect of the first render. *)
Definition checkAuth (backend : Backend) (c : Client) : Client :=
  match getCurrentUser backend (browser c) with
  | (Returned currentUser, b') =>
      {| browser := b';
         provider := {| user := currentUser; isLoading := false;
                        error := None |} |}
  | (Thrown _, b') =>
      {| browser := b';
         provider := {| user := None; isLoading := false;
                        error := Some "Not authenticated" |} |}
  end.

(** The page a role is sent to after login. *)
Definition dashboard (r : UserRole) : string :=
  match r with
  | super_admin => "/dashboard/superadmin"
  | gudang => "/dashboard/gudang"
  | _ => "/"
  end.

(** [login] of the provider.  It starts with [setLoading(true)] and
    [setError(null)] and ends, in [finally], with [setLoading(false)];
    the user the service returns is an object, so the test
    [if (loggedInUser)] holds. *)
Definition login (backend : Backend) (credentials : LoginCredentials)
  (c : Client) : result unit * Client :=
  match Auth.login backend credentials (browser c) with
  | (Returned loggedInUser, b') =>
      (Returned tt,
       {| browser := snd (set_location_href (dashboard (role loggedInUser)) b');
          provider := {| user := Some loggedInUser; isLoading := false;
                         error := None |} |})
  | (Thrown err, b') =>
      (Thrown err,
       {| browser := b';
          provider := {| user := user (provider c); isLoading := false;
                         error := Some (message_or "Login failed" err) |} |})
  end.

Definition register (backend : Backend) (data : RegisterPayload)
  (c : Client) : result unit * Client :=
  match Auth.register backend data (browser c) with
  | (Returned _, b') =>
      (Returned tt,
       {| browser := b';
          provider := {| user := user (provider c); isLoading := false;
                         error := None |} |})
  | (Thrown err, b') =>
      (Thrown err,
       {| browser := b';
          provider := {| user := user (provider c); isLoading := false;
                         error := Some (message_or "Registration failed" err) |} |})
  end.

(** [await authService.logout(); setUser(null); setError(null)] *)
Definition logout (backend : Backend) (c : Client) : result unit * Client :=
  match Auth.logout backend (browser c) with
  | (Returned _, b') =>
      (Returned tt,
       {| browser := b';
          provider := {| user := None; isLoading := isLoading (provider c);
                         error := None |} |})
  | (Thrown err, b') =>
      (Thrown err, {| browser := b'; provider := provider c |})
  end.

Definition clearError (c : Client) : Client :=
  {| browser := browser c;
     provider := {| user := user (provider c);
                    isLoading := isLoading (provider c); error := None |} |}.

(** A page load: the storage persists, the provider is mounted anew. *)
Definition reload (c : Client) : Client :=
  {| browser := browser c; provider := mounted |}.

(** A call of the inventory service through the HTTP client. *)
Definition api_request (meth path : string)
  (server : option string -> reply value) (c : Client) : Client :=
  {| browser := snd (ApiClient.request meth path server (browser c));
     provider := provider c |}.

(** A fresh browser with the provider just mounted. *)
Definition initial_client : Client :=
  {| browser := {| localStorage := ∅; location_href := []; requests := [] |};
     provider := mounted |}.

(** One completed operation of the client. *)
Inductive step : Client -> Client -> Prop :=
| step_reload c : step c (reload c)
| step_checkAuth backend c : step c (checkAuth backend c)
| step_login backend credentials c :
    step c (snd (login backend credentials c))
| step_register backend data c : step c (snd (register backend data c))
| step_logout backend c : step c (snd (logout backend c))
| step_clearError c : step c (clearError c)
| step_api_request meth path server c :
    step c (api_request meth path server c).

Definition reachable (c : Client) : Prop := rtc step initial_client c.

End AuthProvider.

(** ** The operations that act on the session store *)

Module Session.
Import Json Auth.

Inductive operation :=
| OpLogin (backend : Backend) (credentials : LoginCredentials)
| OpGetCurrentUser (backend : Backend)
| OpRegister (backend : Backend) (data : RegisterPayload)
| OpLogout (backend : Backend)
| OpRequest (meth path : string) (server : option string -> reply value).

(** The browser after an operation has completed. *)
Definition perform (op : operation) (b : Browser) : Browser :=
  match op with
  | OpLogin backend credentials => snd (login backend credentials b)
  | OpGetCurrentUser backend => snd (getCurrentUser backend b)
  | OpRegister backend data => snd (register backend data b)
  | OpLogout backend => snd (logout backend b)
  | OpRequest meth path server => snd (ApiClient.request meth path server b)
  end.

(** The profile fetch of [getCurrentUser] is made and fails. *)
Definition profile_fetch_fails (backend : Backend) (b : Browser) : Prop :=
  exists token error,
    localStorage b !! tokenKey = Some token /\ truthy_string token = true /\
    get_auth_me backend (bearer b) = Rejected error.

(** The browser in which [login] makes its follow-up fetch. *)
Definition after_tokens (res : AuthResponse) (token : string) (b : Browser)
  : Browser :=
  snd (store_refresh_token (refresh_token res)
         (snd (setToken token (log_request "POST" "/auth/login" b)))).

(** The follow-up fetch of [login] is made and fails. *)
Definition followup_fetch_fails (backend : Backend)
  (credentials : LoginCredentials) (b : Browser) : Prop :=
  exists res token error,
    post_auth_login backend credentials (bearer b) = Fulfilled res /\
    access_token res = Some token /\ truthy_string token = true /\
    user res = None /\
    get_auth_me backend (Some ("Bearer " ++ token)) = Rejected error.

(** A call through the HTTP client is answered with status 401. *)
Definition answered_unauthorized (server : option string -> reply value)
  (b : Browser) : Prop :=
  exists error,
    server (bearer b) = Rejected error /\
    ApiClient.is_unauthorized error = true.

(** The ways an operation removes a stored token. *)
Definition removal_cause (op : operation) (b : Browser) : Prop :=
  match op with
  | OpGetCurrentUser backend => profile_fetch_fails backend b
  | OpLogin backend credentials => followup_fetch_fails backend credentials b
  | OpLogout _ => True
  | OpRequest _ _ server => answered_unauthorized server b
  | OpRegister _ _ => False
  end.

(** A stored token is never the empty string. *)
Definition token_nonempty (b : Browser) : Prop :=
  forall t, localStorage b !! tokenKey = Some t -> truthy_string t = true.

(** The session holds none of its three entries. *)
Definition session_cleared (b : Browser) : Prop :=
  localStorage b !! tokenKey = None /\
  localStorage b !! refreshKey = None /\
  localStorage b !! userKey = None.

End Session.

(** ** Sample data *)

Module Samples.
Import Json Auth.

Definition staff : User :=
  {| id := "u-7"; username := "staff_gudang"; email := "staff@gudang.com";
     full_name := "Staff Gudang"; role := gudang; warehouse_id := Some "w-1";
     is_active := true; is_verified := Some true; created_at := None;
     updated_at := None; last_login := None |}.

Definition credentials : LoginCredentials :=
  {| cred_username := "staff_gudang"; cred_password := "Staff123!" |}.

Definition empty_browser : Browser :=
  {| localStorage := ∅; location_href := []; requests := [] |}.

(** A browser holding a full session. *)
Definition logged_in_browser : Browser :=
  {| localStorage :=
       <[tokenKey := "tok-1"]>
         (<[refreshKey := "ref-1"]>
            (<[userKey := JSON_stringify staff]> ∅));
     location_href := ["/dashboard/gudang"];
     requests := [] |}.

Definition http_error (status : Z) (data : value) : AxiosError :=
  {| response := Some (status, data);
     message := "Request failed" |}.

Definition network_error : AxiosError :=
  {| response := None; message := "Network Error" |}.

(** A backend whose login returns tokens and the user inline. *)
Definition backend_inline_user : Backend :=
  {| post_auth_login := fun _ _ =>
       Fulfilled {| access_token := Some "tok-1"; refresh_token := Some "ref-1";
                    token_type := "bearer"; expires_in := 3600;
                    user := Some staff |};
     get_auth_me := fun _ => Fulfilled (Some staff);
     post_auth_register := fun _ _ => Fulfilled tt;
     post_auth_logout := fun _ => Fulfilled tt |}.

(** A backend whose login returns a token only, and whose profile
    endpoint answers with an empty body. *)
Definition backend_empty_profile : Backend :=
  {| post_auth_login := fun _ _ =>
       Fulfilled {| access_token := Some "tok-1"; refresh_token := None;
                    token_type := "bearer"; expires_in := 3600;
                    user := None |};
     get_auth_me := fun _ => Fulfilled None;
     post_auth_register := fun _ _ => Fulfilled tt;
     post_auth_logout := fun _ => Fulfilled tt |}.

(** A backend that rejects every request with status 401. *)
Definition backend_rejecting : Backend :=
  {| post_auth_login := fun _ _ => Rejected (http_error 401 JNull);
     get_auth_me := fun _ => Rejected (http_error 401 JNull);
     post_auth_register := fun _ _ => Rejected (http_error 401 JNull);
     post_auth_logout := fun _ => Rejected (http_error 401 JNull) |}.

(** A browser whose cached-user entry holds [blob]. *)
Definition browser_with_user_blob (blob : string) : Browser :=
  {| localStorage := <[userKey := blob]> ∅;
     location_href := []; requests := [] |}.

(** The client after a successful login. *)
Definition client_logged_in : AuthProvider.Client :=
  snd (AuthProvider.login backend_inline_user credentials
         AuthProvider.initial_client).

(** The same client after the page has been loaded again, before the
    provider has heard from [checkAuth]. *)
Definition client_reloaded : AuthProvider.Client :=
  AuthProvider.reload client_logged_in.

(** The logged-in client after a call through the HTTP client was
    answered with status 401. *)
Definition client_after_401 : AuthProvider.Client :=
  AuthProvider.api_request "GET" "/inventory"
    (fun _ => Rejected (http_error 401 JNull)) client_logged_in.

End Samples.

(* ===================================================================== *)
(** * More of the reducer                                                 *)
(* ===================================================================== *)

Module InventoryExtra.
Import Inventory.

Definition is_add_item (a : InventoryAction) : bool :=
  match a with
  | ADD_ITEM _ => true
  | _ => false
  end.

(** The actions whose branch of the reducer assigns [items]. *)
Definition assigns_items (a : InventoryAction) : bool :=
  match a with
  | FETCH_SUCCESS _ _ | ADD_ITEM _ | UPDATE_ITEM _ | DELETE_ITEM _ => true
  | _ => false
  end.

(** The actions whose branch assigns [pagination], and [filters]. *)
Definition assigns_pagination (a : InventoryAction) : bool :=
  match a with
  | FETCH_SUCCESS _ _ | SET_PAGINATION _ => true
  | _ => false
  end.

Definition assigns_filters (a : InventoryAction) : bool :=
  match a with
  | SET_FILTERS _ => true
  | _ => false
  end.

End InventoryExtra.

(* ===================================================================== *)
(** * More of the auth service: role predicates                           *)
(* ===================================================================== *)

Module AuthRoles.
Import Json Auth.

(** Equality of two strings given by their code units. *)
Fixpoint codes_eqb (a b : list N) : bool :=
  match a, b with
  | [], [] => true
  | x :: a', y :: b' => (x =? y)%N && codes_eqb a' b'
  | _, _ => false
  end.

(** [obj[key]] for an object made by [JSON.parse]: of several members
    with the same key the last one is the property; [None] is
    [undefined]. *)
Fixpoint get_member (key : list N) (ms : list (list N * value))
  : option value :=
  match ms with
  | [] => None
  | (k, v) :: rest =>
      match get_member key rest with
      | Some v' => Some v'
      | None => if codes_eqb k key then Some v else None
      end
  end.

(** [user?.role] and, for a truthy user, [user.role]: an object has the
    property it was parsed with; null, the primitives and arrays have no
    property of that name. *)
Definition role_of (user : value) : option value :=
  match user with
  | JObj ms => get_member (js "role") ms
  | _ => None
  end.

(** [x === role] for a string [role]. *)
Definition is_string (x : option value) (role : string) : bool :=
  match x with
  | Some (JStr s) => codes_eqb s (js role)
  | _ => false
  end.

(** [user?.role === role] *)
Definition hasRole (role : string) : M bool :=
  let! user := getUser in
  ret (is_string (role_of user) role).

(** [user ? roles.includes(user.role) : false] *)
Definition hasAnyRole (roles : list string) : M bool :=
  let! user := getUser in
  ret (if truthy user then existsb (is_string (role_of user)) roles
       else false).

End AuthRoles.

(** ** Consistency of the stored session *)

Module SessionExtra.
Import Json Auth.

(** A cached user or a refresh token is stored only beside a token, and
    the cached user is text written by [setUser]. *)
Definition session_consistent (b : Browser) : Prop :=
  (is_Some (localStorage b !! userKey) -> is_Some (localStorage b !! tokenKey))
  /\ (is_Some (localStorage b !! refreshKey) ->
      is_Some (localStorage b !! tokenKey))
  /\ (forall blob, localStorage b !! userKey = Some blob ->
        exists u : User, blob = JSON_stringify u).

(** A login answer with tokens and the user inline. *)
Definition inline_answer (token : string) (refresh : option string) (u : User)
  : AuthResponse :=
  {| access_token := Some token; refresh_token := refresh;
     token_type := "bearer"; expires_in := 3600; user := Some u |}.

(** A server that answers every call with status 401. *)
Definition server_401 : option string -> reply value :=
  fun _ => Rejected (Samples.http_error 401 JNull).

(** The request [login] sends after the POST, if any: the fetch of the
    profile, when the answer has a non-empty token and no user. *)
Definition followup_request (answer : reply AuthResponse) : list Request :=
  match answer with
  | Fulfilled res =>
      match access_token res, user res with
      | Some token, None =>
          if truthy_string token
          then [ {| method := "GET"; url := "/auth/me";
                    authorization := Some ("Bearer " ++ token) |} ]
          else []
      | _, _ => []
      end
  | Rejected _ => []
  end.

End SessionExtra.

(* ===================================================================== *)
(** * Form validation (utils/validation) and the login form              *)
(* ===================================================================== *)

(** The numbers of a form are compared, so here a [number] is a binary64
    float with the comparisons of IEEE 754, as in JavaScript. *)

Module Forms.
Import PrimFloat.

(** [FormErrors]: the own properties of the errors object. *)
Abbreviation FormErrors := (gmap string string).

(** The code units below 256 that [String.prototype.trim] removes and
    that [\s] matches: tab, line feed, vertical tab, form feed, carriage
    return, space and no-break space. *)
Definition is_space (c : ascii) : bool :=
  let n := Json.code c in
  ((9 <=? n)%N && (n <=? 13)%N) || (n =? 32)%N || (n =? 160)%N.

(** [s.trim() === ""] *)
Definition trims_to_empty (s : string) : bool :=
  forallb is_space (list_ascii_of_string s).

(** [!s || s.trim() === ""] *)
Definition blank (s : string) : bool :=
  negb (Auth.truthy_string s) || trims_to_empty s.

(** [isNaN(x) || x < 0] and [isNaN(x) || x <= 0] *)
Definition nan_or_negative (x : float) : bool := is_nan x || ltb x 0.
Definition nan_or_not_positive (x : float) : bool := is_nan x || leb x 0.

(** [x < y] and [x <= y] where [y] may be undefined or null.  Against
    undefined both are false.  Against null they compare with zero; they
    are used only where [x] is known not to be below, respectively not
    above, zero, so they are false there too. *)
Definition lt_opt (x : float) (y : option float) : bool :=
  match y with
  | Some y' => ltb x y'
  | None => false
  end.

Definition le_opt (x : float) (y : option float) : bool :=
  match y with
  | Some y' => leb x y'
  | None => false
  end.

(** [InventoryFormData].  The numbers the validation tests against
    undefined and null are optional here. *)
Record InventoryFormData := {
  name : string;
  category_id : string;
  current_stock : option float;
  min_stock : option float;
  max_stock : option float;
  buy_price : option float;
  sell_price : option float;
  warehouse_id : option string;
  unit : string;
  description : option string;
  is_active : option bool
}.

Definition validateLoginForm (values : Auth.LoginCredentials) : FormErrors :=
  let errors : FormErrors := ∅ in
  let errors :=
    if blank (Auth.cred_username values)
    then <["username" := "Username wajib diisi"]> errors
    else errors in
  let errors :=
    if negb (Auth.truthy_string (Auth.cred_password values))
    then <["password" := "Password wajib diisi"]> errors
    else if Nat.ltb (String.length (Auth.cred_password values)) 6
    then <["password" := "Password minimal 6 karakter"]> errors
    else errors in
  errors.

Definition validateInventoryForm (values : InventoryFormData) : FormErrors :=
  let errors : FormErrors := ∅ in
  let errors :=
    if blank (name values)
    then <["name" := "Nama barang wajib diisi"]> errors
    else errors in
  let errors :=
    if negb (Auth.truthy_string (category_id values))
    then <["category_id" := "Kategori wajib dipilih"]> errors
    else errors in
  let errors :=
    if blank (unit values)
    then <["unit" := "Satuan wajib diisi"]> errors
    else errors in
  let errors :=
    match current_stock values with
    | None => <["current_stock" := "Stok wajib diisi"]> errors
    | Some x =>
        if nan_or_negative x
        then <["current_stock" := "Stok tidak boleh negatif"]> errors
        else errors
    end in
  let errors :=
    match min_stock values with
    | None => <["min_stock" := "Stok minimum wajib diisi"]> errors
    | Some x =>
        if nan_or_negative x
        then <["min_stock" := "Stok minimum tidak boleh negatif"]> errors
        else errors
    end in
  let errors :=
    match max_stock values with
    | Some x =>
        if nan_or_negative x
        then <["max_stock" := "Stok maksimum tidak boleh negatif"]> errors
        else if lt_opt x (min_stock values)
        then <["max_stock" :=
                 "Stok maksimum harus lebih besar dari stok minimum"]> errors
        else errors
    | None => errors
    end in
  let errors :=
    match buy_price values with
    | None => <["buy_price" := "Harga beli wajib diisi"]> errors
    | Some x =>
        if nan_or_not_positive x
        then <["buy_price" := "Harga beli harus lebih dari 0"]> errors
        else errors
    end in
  let errors :=
    match sell_price values with
    | None => <["sell_price" := "Harga jual wajib diisi"]> errors
    | Some x =>
        if nan_or_not_positive x
        then <["sell_price" := "Harga jual harus lebih dari 0"]> errors
        else if le_opt x (buy_price values)
        then <["sell_price" :=
                 "Harga jual harus lebih tinggi dari harga beli"]> errors
        else errors
    end in
  errors.

(** [Object.keys(formErrors).length > 0] *)
Definition has_errors (formErrors : FormErrors) : bool :=
  Nat.ltb 0 (size formErrors).

(** [handleSubmit] of the login form.  With errors it calls
    [setErrors(formErrors)] and returns; otherwise it calls [clearError]
    and [login] of the provider and swallows what [login] throws.  The
    result is the argument of [setErrors], if it was called, and the
    client. *)
Definition LoginForm_handleSubmit (backend : Auth.Backend)
  (formData : Auth.LoginCredentials) (c : AuthProvider.Client)
  : option FormErrors * AuthProvider.Client :=
  let formErrors := validateLoginForm formData in
  if has_errors formErrors then (Some formErrors, c)
  else (None,
        snd (AuthProvider.login backend formData (AuthProvider.clearError c))).

(** Sample forms. *)
Definition short_password : Auth.LoginCredentials :=
  {| Auth.cred_username := "staff_gudang"; Auth.cred_password := "Staff" |}.

Definition sample_form : InventoryFormData :=
  {| name := "Laptop Dell XPS 13"; category_id := "1";
     current_stock := Some 15%float; min_stock := Some 5%float;
     max_stock := Some 50%float; buy_price := Some 15000000%float;
     sell_price := Some 18000000%float; warehouse_id := None;
     unit := "pcs"; description := None; is_active := Some true |}.

End Forms.

(* ===================================================================== *)
(** * Regular expressions, as far as the validation uses them            *)
(* ===================================================================== *)

(** The patterns are those without captures and assertions, for which
    [test] only asks whether some substring is in the language.  The
    matcher works by derivatives; [lang] is the language of a pattern. *)

Module Regex.
Local Open Scope list_scope.

Inductive regex :=
| Empty                          (* matches nothing *)
| Eps                            (* the empty pattern *)
| Class (p : ascii -> bool)      (* one character of a class *)
| Seq (r1 r2 : regex)            (* r1 r2 *)
| Alt (r1 r2 : regex)            (* r1|r2 *)
| Star (r : regex).              (* r* *)

(** A literal character, and [r+]. *)
Definition Chr (c : ascii) : regex := Class (Ascii.eqb c).
Definition Plus (r : regex) : regex := Seq r (Star r).

Fixpoint nullable (r : regex) : bool :=
  match r with
  | Empty => false
  | Eps => true
  | Class _ => false
  | Seq r1 r2 => nullable r1 && nullable r2
  | Alt r1 r2 => nullable r1 || nullable r2
  | Star _ => true
  end.

Fixpoint deriv (c : ascii) (r : regex) : regex :=
  match r with
  | Empty | Eps => Empty
  | Class p => if p c then Eps else Empty
  | Seq r1 r2 =>
      if nullable r1
      then Alt (Seq (deriv c r1) r2) (deriv c r2)
      else Seq (deriv c r1) r2
  | Alt r1 r2 => Alt (deriv c r1) (deriv c r2)
  | Star r' => Seq (deriv c r') (Star r')
  end.

(** Some prefix of [s] is in the language. *)
Fixpoint matches_at_start (r : regex) (s : list ascii) : bool :=
  nullable r ||
  match s with
  | [] => false
  | c :: s' => matches_at_start (deriv c r) s'
  end.

(** Some substring of [s] is in the language. *)
Fixpoint search (r : regex) (s : list ascii) : bool :=
  matches_at_start r s ||
  match s with
  | [] => false
  | _ :: s' => search r s'
  end.

(** [r.test(s)] for a pattern without flags. *)
Definition test (r : regex) (s : string) : bool :=
  search r (list_ascii_of_string s).

(** The language of a pattern. *)
Inductive lang : regex -> list ascii -> Prop :=
| lang_eps : lang Eps []
| lang_class p c : p c = true -> lang (Class p) [c]
| lang_seq r1 r2 a b : lang r1 a -> lang r2 b -> lang (Seq r1 r2) (a ++ b)
| lang_alt_l r1 r2 a : lang r1 a -> lang (Alt r1 r2) a
| lang_alt_r r1 r2 a : lang r2 a -> lang (Alt r1 r2) a
| lang_star_nil r : lang (Star r) []
| lang_star_cons r a b : lang r a -> lang (Star r) b -> lang (Star r) (a ++ b).

End Regex.


(* ===================================================================== *)
(** * Registration (utils/validation, components/auth/RegisterForm)      *)
(* ===================================================================== *)

Module Registration.
Import Regex Forms.
Local Open Scope list_scope.

(** [\S]: a character that is not white space. *)
Definition not_space (c : ascii) : bool := negb (is_space c).

(** [/\S+@\S+\.\S+/] *)
Definition email_pattern : regex :=
  Seq (Plus (Class not_space))
    (Seq (Chr "@")
       (Seq (Plus (Class not_space))
          (Seq (Chr ".") (Plus (Class not_space))))).

(** [RegisterData], the state of the form.  [role] is the value of the
    select: [None] is the empty value, for which [!values.role] holds. *)
Record RegisterData := {
  full_name : string;
  username : string;
  email : string;
  password : string;
  confirmPassword : string;
  role : option Auth.UserRole;
  warehouse_id : option string
}.

Definition validateRegisterForm (values : RegisterData) : FormErrors :=
  let errors : FormErrors := ∅ in
  let errors :=
    if negb (Auth.truthy_string (full_name values))
    then <["full_name" := "Nama wajib diisi"]> errors
    else errors in
  let errors :=
    if negb (Auth.truthy_string (username values))
    then <["username" := "Username wajib diisi"]> errors
    else if Nat.ltb (String.length (username values)) 3
    then <["username" := "Username tidak valid"]> errors
    else errors in
  let errors :=
    if negb (Auth.truthy_string (email values))
    then <["email" := "Email wajib diisi"]> errors
    else if negb (test email_pattern (email values))
    then <["email" := "Email tidak valid"]> errors
    else errors in
  let errors :=
    if negb (Auth.truthy_string (password values))
    then <["password" := "Password wajib diisi"]> errors
    else if Nat.ltb (String.length (password values)) 6
    then <["password" := "Password minimal 6 karakter"]> errors
    else errors in
  let errors :=
    if negb (Auth.truthy_string (confirmPassword values))
    then <["confirmPassword" := "Konfirmasi password wajib diisi"]> errors
    else if negb (String.eqb (password values) (confirmPassword values))
    then <["confirmPassword" := "Password tidak cocok"]> errors
    else errors in
  let errors :=
    match role values with
    | None => <["role" := "Role wajib dipilih"]> errors
    | Some _ => errors
    end in
  errors.

(** [formData.role === ROLES.GUDANG && formData.warehouse_id]: the
    warehouse that is put into the payload, if any. *)
Definition payload_warehouse (r : Auth.UserRole) (w : option string)
  : option string :=
  match r with
  | Auth.gudang => if Auth.truthy_opt w then w else None
  | _ => None
  end.

Definition dataToSubmit (formData : RegisterData) (r : Auth.UserRole)
  : Auth.RegisterPayload :=
  {| Auth.reg_full_name := full_name formData;
     Auth.reg_username := username formData;
     Auth.reg_email := email formData;
     Auth.reg_password := password formData;
     Auth.reg_role := r;
     Auth.reg_warehouse_id := payload_warehouse r (warehouse_id formData) |}.

(** What [handleSubmit] of the registration form does besides changing
    the client: the argument of [setErrors], if it was called, and
    whether [navigate('/login')] was called. *)
Record Submitted := {
  shown_errors : option FormErrors;
  to_login : bool
}.

(** [handleSubmit] of the registration form.  With errors it calls
    [setErrors(formErrors)] and returns.  Otherwise it builds the
    payload, calls [clearError] and [register] of the provider, goes to
    the login page when [register] returns and swallows what it throws.
    The validation has refused an empty role, so where the payload is
    built the role is present. *)
Definition RegisterForm_handleSubmit (backend : Auth.Backend)
  (formData : RegisterData) (c : AuthProvider.Client)
  : Submitted * AuthProvider.Client :=
  let formErrors := validateRegisterForm formData in
  if has_errors formErrors
  then ({| shown_errors := Some formErrors; to_login := false |}, c)
  else
    match role formData with
    | Some r =>
        match AuthProvider.register backend (dataToSubmit formData r)
                (AuthProvider.clearError c) with
        | (Auth.Returned _, c') =>
            ({| shown_errors := None; to_login := true |}, c')
        | (Auth.Thrown _, c') =>
            ({| shown_errors := None; to_login := false |}, c')
        end
    | None => ({| shown_errors := None; to_login := false |}, c)
    end.

(** Sample forms. *)
Definition sample_registration : RegisterData :=
  {| full_name := "Staff Gudang"; username := "staff_gudang";
     email := "staff@gudang.com"; password := "Staff123!";
     confirmPassword := "Staff123!"; role := Some Auth.gudang;
     warehouse_id := Some "1" |}.

Definition registration_without_domain : RegisterData :=
  {| full_name := "Staff Gudang"; username := "staff_gudang";
     email := "staff@gudang"; password := "Staff123!";
     confirmPassword := "Staff123!"; role := Some Auth.gudang;
     warehouse_id := None |}.

(** A backend that accepts every registration. *)
Definition backend_registering : Auth.Backend :=
  {| Auth.post_auth_login := fun _ _ => Auth.Rejected Samples.network_error;
     Auth.get_auth_me := fun _ => Auth.Rejected Samples.network_error;
     Auth.post_auth_register := fun _ _ => Auth.Fulfilled tt;
     Auth.post_auth_logout := fun _ => Auth.Fulfilled tt |}.

End Registration.


(* ===================================================================== *)
(** * The inventory form (components/inventory/InventoryForm)            *)
(* ===================================================================== *)

Module InventoryFormSubmit.
Import PrimFloat Forms.

(** Truthiness of a number, as tested by [||]: zero, negative zero and
    NaN are falsy. *)
Definition truthy_number (x : float) : bool := negb (is_nan x || eqb x 0).

(** [{...formData, description: formData.description || undefined,
      max_stock: formData.max_stock || undefined}] *)
Definition validationData (formData : InventoryFormData) : InventoryFormData :=
  {| name := name formData;
     category_id := category_id formData;
     current_stock := current_stock formData;
     min_stock := min_stock formData;
     max_stock :=
       match max_stock formData with
       | Some x => if truthy_number x then Some x else None
       | None => None
       end;
     buy_price := buy_price formData;
     sell_price := sell_price formData;
     warehouse_id := warehouse_id formData;
     unit := unit formData;
     description :=
       match description formData with
       | Some d => if Auth.truthy_string d then Some d else None
       | None => None
       end;
     is_active := is_active formData |}.

(** The test with which [handleSubmit] returns before saving:
    [Object.keys(validateInventoryForm(validationData)).length > 0]. *)
Definition refused (formData : InventoryFormData) : bool :=
  has_errors (validateInventoryForm (validationData formData)).

(** A form whose maximum stock is zero, below its minimum stock. *)
Definition zero_max_form : InventoryFormData :=
  {| name := "Kaos Polo T-Shirt"; category_id := "2";
     current_stock := Some 100%float; min_stock := Some 20%float;
     max_stock := Some 0%float; buy_price := Some 75000%float;
     sell_price := Some 120000%float; warehouse_id := None;
     unit := "pcs"; description := Some ""; is_active := Some true |}.

End InventoryFormSubmit.


(* ===================================================================== *)
(** * Protected routes (components/common/ProtectedRoute)                *)
(* ===================================================================== *)

Module Routing.
Import Auth AuthProvider.

(** What [ProtectedRoute] renders: the loading view, a redirection, or
    its children. *)
Inductive Rendered :=
| ShowLoading
| NavigateTo (path : string)
| Children.

(** [ProtectedRoute].  The component takes [isAuthenticated] and
    [isLoading] from the provider; its [roles] prop is declared and
    passed by the application, but not read. *)
Definition ProtectedRoute (roles : option (list string)) (p : ProviderState)
  : Rendered :=
  if isLoading p then ShowLoading
  else if negb (isAuthenticated p) then NavigateTo "/login"
  else Children.

(** The roles the application asks for on the inventory route. *)
Definition inventory_roles : option (list string) :=
  Some ["super_admin"; "gudang"].

(** A user with a role outside of them, and a backend that logs this
    user in. *)
Definition cashier : User :=
  {| id := "u-2"; username := "kasir_toko"; email := "kasir@toko.com";
     full_name := "Kasir Toko"; role := kasir; warehouse_id := None;
     is_active := true; is_verified := Some true; created_at := None;
     updated_at := None; last_login := None |}.

Definition backend_cashier : Backend :=
  {| post_auth_login := fun _ _ =>
       Fulfilled {| access_token := Some "tok-2"; refresh_token := None;
                    token_type := "bearer"; expires_in := 3600;
                    Auth.user := Some cashier |};
     get_auth_me := fun _ => Fulfilled (Some cashier);
     post_auth_register := fun _ _ => Fulfilled tt;
     post_auth_logout := fun _ => Fulfilled tt |}.

End Routing.


(* ===================================================================== *)
(** * Properties of the reducer                                           *)
(* ===================================================================== *)

Module InventoryProps.
Import Inventory.

Lemma eqb_id_true (a b : string) : String.eqb a b = true <-> a = b.
Proof. apply String.eqb_eq. Qed.

Lemma eqb_id_false (a b : string) : String.eqb a b = false <-> a <> b.
Proof. apply String.eqb_neq. Qed.

Lemma items_by_id_cons (p : InventoryItem) (l : list InventoryItem) :
  items_by_id (p :: l) = <[id p := p]> (items_by_id l).
Proof. reflexivity. Qed.

Lemma items_by_id_lookup_None (l : list InventoryItem) (k : string) :
  items_by_id l !! k = None <-> k ∉ ids l.
Proof.
  unfold items_by_id, ids. rewrite <- not_elem_of_list_to_map.
  rewrite <- list_fmap_compose. reflexivity.
Qed.

(** Replacing by id changes no id. *)
Lemma ids_replace_by_id (p : InventoryItem) (l : list InventoryItem) :
  ids (replace_by_id p l) = ids l.
Proof.
  unfold ids, replace_by_id. induction l as [|x l IH]; simpl; [done|].
  rewrite IH. destruct (String.eqb (id x) (id p)) eqn:E; [|done].
  apply eqb_id_true in E. by rewrite E.
Qed.

(** Removing by id keeps a sublist of the ids, without the removed id. *)
Lemma ids_remove_by_id_sublist (k : string) (l : list InventoryItem) :
  ids (remove_by_id k l) `sublist_of` ids l.
Proof.
  unfold ids, remove_by_id. induction l as [|x l IH]; simpl; [done|].
  destruct (String.eqb (id x) k); simpl.
  - by apply sublist_cons.
  - by apply sublist_skip.
Qed.

Lemma replace_by_id_absent (p : InventoryItem) (l : list InventoryItem) :
  id p ∉ ids l -> replace_by_id p l = l.
Proof.
  unfold ids, replace_by_id. induction l as [|x l IH]; simpl; [done|].
  intros H. apply not_elem_of_cons in H as [Hx Hl].
  rewrite (IH Hl). destruct (String.eqb (id x) (id p)) eqn:E; [|done].
  apply eqb_id_true in E. congruence.
Qed.

Lemma remove_by_id_absent (k : string) (l : list InventoryItem) :
  k ∉ ids l -> remove_by_id k l = l.
Proof.
  unfold ids, remove_by_id. induction l as [|x l IH]; simpl; [done|].
  intros H. apply not_elem_of_cons in H as [Hx Hl].
  rewrite (IH Hl). destruct (String.eqb (id x) k) eqn:E; [|done].
  apply eqb_id_true in E. congruence.
Qed.

(** [map] with replacement is the replacement of a present binding. *)
Lemma items_by_id_replace (p : InventoryItem) (l : list InventoryItem) :
  items_by_id (replace_by_id p l) =
  match items_by_id l !! id p with
  | Some _ => <[id p := p]> (items_by_id l)
  | None => items_by_id l
  end.
Proof.
  induction l as [|x l IH]; [done|].
  change (replace_by_id p (x :: l))
    with ((if String.eqb (id x) (id p) then p else x) :: replace_by_id p l).
  rewrite !items_by_id_cons, IH.
  destruct (String.eqb (id x) (id p)) eqn:E.
  - apply eqb_id_true in E. rewrite E, lookup_insert_eq.
    destruct (items_by_id l !! id p); by rewrite !insert_insert_eq.
  - apply eqb_id_false in E. rewrite lookup_insert_ne by done.
    destruct (items_by_id l !! id p); [|done].
    by rewrite insert_insert_ne.
Qed.

(** [filter] on a different id is the deletion of the binding. *)
Lemma items_by_id_remove (k : string) (l : list InventoryItem) :
  items_by_id (remove_by_id k l) = delete k (items_by_id l).
Proof.
  induction l as [|x l IH]; [symmetry; apply delete_empty|].
  rewrite items_by_id_cons. unfold remove_by_id in *. simpl.
  destruct (String.eqb (id x) k) eqn:E; simpl.
  - apply eqb_id_true in E. subst k. by rewrite delete_insert_eq.
  - apply eqb_id_false in E. rewrite items_by_id_cons, IH.
    by rewrite delete_insert_ne.
Qed.

Lemma reducer_step_expected (s : InventoryState) (a : InventoryAction) :
  is_item_action a = true ->
  items_by_id (items (inventoryReducer s a)) =
  expected_step (items_by_id (items s)) a.
Proof.
  destruct a; try discriminate; intros _; simpl.
  - reflexivity.
  - apply items_by_id_replace.
  - apply items_by_id_remove.
Qed.

Lemma dispatch_all_expected (actions : list InventoryAction) :
  forall s : InventoryState,
    Forall (fun a => is_item_action a = true) actions ->
    items_by_id (items (dispatch_all s actions)) =
    expected_items (items_by_id (items s)) actions.
Proof.
  induction actions as [|a actions IH]; intros s Hall; [done|].
  apply Forall_cons in Hall as [Ha Hall].
  unfold dispatch_all, expected_items in *. simpl.
  rewrite IH by done. by rewrite reducer_step_expected.
Qed.

(** Distinct ids stay distinct. *)
Lemma dispatch_all_NoDup (actions : list InventoryAction) :
  forall s : InventoryState,
    Forall (fun a => is_item_action a = true) actions ->
    NoDup (ids (items s) ++ added_ids actions) ->
    NoDup (ids (items (dispatch_all s actions))).
Proof.
  induction actions as [|a actions IH]; intros s Hall Hnd.
  - simpl in *. by rewrite app_nil_r in Hnd.
  - apply Forall_cons in Hall as [Ha Hall].
    unfold dispatch_all in *. simpl. apply IH; [done|].
    destruct a; try discriminate; simpl in *.
    + change (NoDup (id payload :: ids (items s) ++ added_ids actions)).
      by rewrite Permutation_middle.
    + by rewrite ids_replace_by_id.
    + revert Hnd. rewrite !NoDup_app. intros (H1 & H2 & H3).
      pose proof (ids_remove_by_id_sublist payload (items s)) as Hsub.
      split_and!; [exact (sublist_NoDup _ _ H1 Hsub)| |done].
      intros x Hx. apply H2. exact (elem_of_sublist _ _ _ Hx Hsub).
Qed.

(** The same under the weaker condition that an id is free when it is
    added: an id may be added again after it was deleted. *)
Lemma dispatch_all_NoDup_fresh (actions : list InventoryAction) :
  forall s : InventoryState,
    Forall (fun a => is_item_action a = true) actions ->
    NoDup (ids (items s)) ->
    adds_fresh (items_by_id (items s)) actions ->
    NoDup (ids (items (dispatch_all s actions))).
Proof.
  induction actions as [|a actions IH]; intros s Hall Hnd Hfresh; [done|].
  apply Forall_cons in Hall as [Ha Hall]. destruct Hfresh as [Hfree Hfresh].
  unfold dispatch_all in *. simpl. apply IH; [done| |].
  - destruct a; try discriminate; simpl.
    + apply NoDup_cons. split; [|done]. by apply items_by_id_lookup_None.
    + by rewrite ids_replace_by_id.
    + exact (sublist_NoDup _ _ Hnd (ids_remove_by_id_sublist payload (items s))).
  - by rewrite reducer_step_expected.
Qed.

(** With distinct ids the list and the map hold the same items. *)
Lemma elem_of_items_by_id (l : list InventoryItem) (item : InventoryItem) :
  NoDup (ids l) ->
  item ∈ l <-> items_by_id l !! id item = Some item.
Proof.
  intros Hnd. unfold items_by_id.
  rewrite <- elem_of_list_to_map.
  - rewrite list_elem_of_fmap. split.
    + intros H. by exists item.
    + intros (y & Hy & Hin). by simplify_eq.
  - rewrite <- list_fmap_compose. exact Hnd.
Qed.

(** C1. For every state and every sequence of ADD_ITEM, UPDATE_ITEM and
    DELETE_ITEM actions, with pairwise distinct ids among the initial
    items and the added items, the resulting items, keyed by id, are
    the map obtained by inserting, replacing by id and removing by id:
    the two maps are equal, the ids of the result are still distinct, and
    an item is in the resulting list exactly when the expected map binds
    its id to it.  DELETE_ITEM and UPDATE_ITEM of an id that matches no
    item leave the items of any state unchanged. *)
Theorem reducer_items_match_expected
  (s : InventoryState) (actions : list InventoryAction) :
  Forall (fun a => is_item_action a = true) actions ->
  NoDup (ids (items s) ++ added_ids actions) ->
  items_by_id (items (dispatch_all s actions)) =
    expected_items (items_by_id (items s)) actions
  /\ NoDup (ids (items (dispatch_all s actions)))
  /\ (forall item : InventoryItem,
        item ∈ items (dispatch_all s actions) <->
        expected_items (items_by_id (items s)) actions !! id item = Some item)
  /\ (forall (t : InventoryState) (k : string),
        k ∉ ids (items t) ->
        items (inventoryReducer t (DELETE_ITEM k)) = items t)
  /\ (forall (t : InventoryState) (p : InventoryItem),
        id p ∉ ids (items t) ->
        items (inventoryReducer t (UPDATE_ITEM p)) = items t).
Proof.
  intros Hall Hnd.
  pose proof (dispatch_all_expected actions s Hall) as Hmap.
  pose proof (dispatch_all_NoDup actions s Hall Hnd) as Hnd'.
  split_and!; [done|done| | |].
  - intros item. rewrite <- Hmap. by apply elem_of_items_by_id.
  - intros t k Hk. simpl. by apply remove_by_id_absent.
  - intros t p Hp. simpl. by apply replace_by_id_absent.
Qed.

Lemma sample_actions_item_actions :
  Forall (fun a => is_item_action a = true) sample_actions.
Proof. repeat constructor. Qed.

Lemma sample_ids_distinct :
  NoDup (ids (items sample_state) ++ added_ids sample_actions).
Proof. compute_done. Qed.

Lemma reducer_items_match_expected_witness :
  Forall (fun a => is_item_action a = true) sample_actions
  /\ NoDup (ids (items sample_state) ++ added_ids sample_actions)
  /\ items_by_id (items (dispatch_all sample_state sample_actions)) =
       expected_items (items_by_id (items sample_state)) sample_actions
  /\ ids (items (dispatch_all sample_state sample_actions)) = ["c"; "b"].
Proof.
  split; [exact sample_actions_item_actions|].
  split; [exact sample_ids_distinct|].
  split; [|reflexivity].
  exact (proj1 (reducer_items_match_expected sample_state sample_actions
                  sample_actions_item_actions sample_ids_distinct)).
Defined.

(** C8. SET_FILTERS and SET_PAGINATION merge their payload shallowly:
    a property named in the payload takes the payload's value and every
    other property keeps its value; SET_FILTERS leaves the pagination,
    and so its page, unchanged.  Setting category_id to 1 and then search
    to x gives filters with category_id 1 and search x on top of the
    filters there were: exactly these two when there were none, and with
    min_stock still 0 from the initial state. *)
Theorem set_filters_pagination_shallow_merge :
  (forall (s : InventoryState) (payload : gmap string prop_value) (k : string),
     filters (inventoryReducer s (SET_FILTERS payload)) !! k =
     match payload !! k with
     | Some v => Some v
     | None => filters s !! k
     end)
  /\ (forall (s : InventoryState) (payload : gmap string prop_value) (k : string),
     pagination (inventoryReducer s (SET_PAGINATION payload)) !! k =
     match payload !! k with
     | Some v => Some v
     | None => pagination s !! k
     end)
  /\ (forall (s : InventoryState) (payload : gmap string prop_value),
     pagination (inventoryReducer s (SET_FILTERS payload)) = pagination s
     /\ pagination (inventoryReducer s (SET_FILTERS payload)) !! "page" =
        pagination s !! "page")
  /\ (forall s : InventoryState,
     filters (dispatch_all s [SET_FILTERS {["category_id" := VStr "1"]};
                              SET_FILTERS {["search" := VStr "x"]}]) =
     <["search" := VStr "x"]> (<["category_id" := VStr "1"]> (filters s)))
  /\ (forall s : InventoryState,
     filters s = ∅ ->
     filters (dispatch_all s [SET_FILTERS {["category_id" := VStr "1"]};
                              SET_FILTERS {["search" := VStr "x"]}]) =
     <["category_id" := VStr "1"]> (<["search" := VStr "x"]> ∅))
  /\ filters (dispatch_all initialState
              [SET_FILTERS {["category_id" := VStr "1"]};
               SET_FILTERS {["search" := VStr "x"]}]) =
     <["category_id" := VStr "1"]>
       (<["min_stock" := VNum 0]> (<["search" := VStr "x"]> ∅)).
Proof.
  split_and!.
  - intros s payload k. simpl. unfold spread.
    rewrite lookup_union. destruct (payload !! k), (filters s !! k); done.
  - intros s payload k. simpl. unfold spread.
    rewrite lookup_union. destruct (payload !! k), (pagination s !! k); done.
  - intros s payload. split; reflexivity.
  - intros s. simpl. unfold spread.
    by rewrite <- !insert_union_singleton_l.
  - intros s Hs. simpl. unfold spread. rewrite Hs.
    rewrite <- !insert_union_singleton_l.
    by rewrite insert_insert_ne.
  - simpl. unfold spread. rewrite <- !insert_union_singleton_l.
    apply map_eq. intros k.
    destruct (decide (k = "search")) as [->|?]; [by vm_compute|].
    destruct (decide (k = "category_id")) as [->|?]; [by vm_compute|].
    destruct (decide (k = "min_stock")) as [->|?]; [by vm_compute|].
    by rewrite !lookup_insert_ne, lookup_empty by done.
Qed.

Lemma set_filters_pagination_shallow_merge_witness :
  filters (with_filters sample_state ∅) = ∅
  /\ filters (dispatch_all (with_filters sample_state ∅)
                [SET_FILTERS {["category_id" := VStr "1"]};
                 SET_FILTERS {["search" := VStr "x"]}]) =
     <["category_id" := VStr "1"]> (<["search" := VStr "x"]> ∅).
Proof.
  split; [reflexivity|].
  destruct set_filters_pagination_shallow_merge as (_ & _ & _ & _ & H & _).
  exact (H (with_filters sample_state ∅) eq_refl).
Defined.

(** C10. Each of ADD_ITEM, UPDATE_ITEM and DELETE_ITEM sets isLoading to
    false and error to null, and leaves categories, warehouses,
    lowStockItems, inventoryValue, filters and pagination unchanged. *)
Theorem item_actions_frame (s : InventoryState) (a : InventoryAction) :
  is_item_action a = true ->
  isLoading (inventoryReducer s a) = false
  /\ error (inventoryReducer s a) = None
  /\ categories (inventoryReducer s a) = categories s
  /\ warehouses (inventoryReducer s a) = warehouses s
  /\ lowStockItems (inventoryReducer s a) = lowStockItems s
  /\ inventoryValue (inventoryReducer s a) = inventoryValue s
  /\ filters (inventoryReducer s a) = filters s
  /\ pagination (inventoryReducer s a) = pagination s.
Proof.
  destruct a; try discriminate; intros _; simpl; split_and!; reflexivity.
Qed.

Lemma item_actions_frame_witness :
  is_item_action (DELETE_ITEM "a") = true
  /\ isLoading (inventoryReducer sample_state (DELETE_ITEM "a")) = false
  /\ error (inventoryReducer sample_state (DELETE_ITEM "a")) = None
  /\ inventoryValue (inventoryReducer sample_state (DELETE_ITEM "a")) = 42%Z.
Proof.
  pose proof (item_actions_frame sample_state (DELETE_ITEM "a") eq_refl)
    as (H1 & H2 & _ & _ & _ & H6 & _).
  split; [reflexivity|]. split; [exact H1|]. split; [exact H2|exact H6].
Defined.

End InventoryProps.

(* ===================================================================== *)
(** * The JSON reader is total                                            *)
(* ===================================================================== *)

Module JsonProps.
Import Json.

Lemma skip_ws_length (cs : list ascii) : length (skip_ws cs) <= length cs.
Proof.
  induction cs as [|c cs IH]; simpl; [lia|].
  destruct (is_ws c); simpl; lia.
Qed.

Lemma take_digits_length (cs : list ascii) :
  forall acc k m k' r,
    take_digits acc k cs = (m, k', r) -> length r <= length cs.
Proof.
  induction cs as [|c cs IH]; simpl; intros acc k m k' r H.
  - injection H as <- <- <-. simpl. lia.
  - destruct (is_digit c).
    + apply IH in H. lia.
    + injection H as <- <- <-. simpl. lia.
Qed.

Lemma parse_int_length (cs : list ascii) (m : Z) (r : list ascii) :
  parse_int cs = Some (m, r) -> length r < length cs.
Proof.
  destruct cs as [|c cs]; simpl; [discriminate|].
  destruct (is_digit c) eqn:Hd; simpl; [|discriminate].
  destruct (code c =? 48)%N.
  - intros [= <- <-]. lia.
  - destruct (take_digits _ _ cs) as [[m' k'] r'] eqn:E.
    intros [= <- <-]. apply take_digits_length in E. lia.
Qed.

Lemma parse_frac_length (m : Z) (cs : list ascii) (m' k : Z) (r : list ascii) :
  parse_frac m cs = Some (m', k, r) -> length r <= length cs.
Proof.
  unfold parse_frac. destruct cs as [|c cs].
  - intros [= <- <- <-]. simpl. lia.
  - destruct (code c =? 46)%N.
    + destruct cs as [|d cs]; [discriminate|].
      destruct (is_digit d); [|discriminate].
      intros H.
      assert (E : take_digits m 0 (d :: cs) = (m', k, r)) by congruence.
      apply take_digits_length in E. simpl in *. lia.
    + intros [= <- <- <-]. simpl. lia.
Qed.

Lemma parse_exp_length (cs : list ascii) (e : Z) (r : list ascii) :
  parse_exp cs = Some (e, r) -> length r <= length cs.
Proof.
  unfold parse_exp. destruct cs as [|c cs].
  - intros [= <- <-]. simpl. lia.
  - destruct ((code c =? 101)%N || (code c =? 69)%N).
    + assert (Hdigits : forall sgn r1,
        length r1 <= length cs ->
        match r1 with
        | [] => None
        | d :: _ =>
            if is_digit d
            then let '(x, _, r2) := take_digits 0 0 r1 in Some ((sgn * x)%Z, r2)
            else None
        end = Some (e, r) -> length r <= length (c :: cs)).
      { intros sgn r1 Hle. destruct r1 as [|d r1']; [discriminate|].
        destruct (is_digit d); [|discriminate].
        destruct (take_digits 0 0 (d :: r1')) as [[x k] r2] eqn:E.
        intros [= <- <-]. apply take_digits_length in E. simpl in *. lia. }
      destruct cs as [|s0 cs']; [discriminate|].
      destruct (code s0 =? 45)%N; [apply (Hdigits (-1)%Z cs'); simpl; lia|].
      destruct (code s0 =? 43)%N;
        [apply (Hdigits 1%Z cs')|apply (Hdigits 1%Z (s0 :: cs'))]; simpl; lia.
    + intros [= <- <-]. simpl. lia.
Qed.

Lemma parse_number_length (cs : list ascii) (v : value) (r : list ascii) :
  parse_number cs = POk v r -> length r < length cs.
Proof.
  unfold parse_number.
  assert (Hsign : forall sgn cs1,
    length cs1 <= length cs ->
    match parse_int cs1 with
    | Some (ip, cs2) =>
        match parse_frac ip cs2 with
        | Some (m, fd, cs3) =>
            match parse_exp cs3 with
            | Some (e, cs4) => POk (JNum (sgn * m) (e - fd)) cs4
            | None => PSyntaxError
            end
        | None => PSyntaxError
        end
    | None => PSyntaxError
    end = POk v r -> length r < length cs).
  { intros sgn cs1 Hle.
    destruct (parse_int cs1) as [[ip cs2]|] eqn:E1; [|discriminate].
    destruct (parse_frac ip cs2) as [[[m fd] cs3]|] eqn:E2; [|discriminate].
    destruct (parse_exp cs3) as [[e cs4]|] eqn:E3; [|discriminate].
    intros [= <- <-].
    apply parse_int_length in E1. apply parse_frac_length in E2.
    apply parse_exp_length in E3. lia. }
  destruct cs as [|c cs']; [apply Hsign; lia|].
  destruct (code c =? 45)%N; apply Hsign; simpl; lia.
Qed.

Lemma parse_number_fuel (cs : list ascii) : parse_number cs <> POutOfFuel.
Proof.
  unfold parse_number.
  destruct (match cs with
            | [] => (1%Z, cs)
            | c :: r => if (code c =? 45)%N then ((-1)%Z, r) else (1%Z, cs)
            end) as [sgn cs1].
  destruct (parse_int cs1) as [[ip cs2]|]; [|discriminate].
  destruct (parse_frac ip cs2) as [[[m fd] cs3]|]; [|discriminate].
  destruct (parse_exp cs3) as [[e cs4]|]; discriminate.
Qed.

(** The string reader stops, and it reads at least the closing quote. *)
Lemma parse_string_body_spec (n : nat) :
  forall cs, length cs <= n ->
    parse_string_body cs <> POutOfFuel /\
    forall s r, parse_string_body cs = POk s r -> length r < length cs.
Proof.
  induction n as [|n IH]; intros cs Hn.
  - destruct cs; [|simpl in Hn; lia]. simpl. split; [discriminate|discriminate].
  - destruct cs as [|c r]; [simpl; split; discriminate|].
    simpl in Hn. simpl.
    destruct (code c =? 34)%N.
    { split; [discriminate|]. intros s r' [= <- <-]. simpl. lia. }
    destruct (code c =? 92)%N.
    { destruct r as [|e r1]; [split; discriminate|].
      destruct (code e =? 117)%N.
      - destruct r1 as [|h1 [|h2 [|h3 [|h4 r2]]]]; try (split; discriminate).
        destruct (hex4 h1 h2 h3 h4); [|split; discriminate].
        destruct (IH r2) as [Hf Hl]; [simpl in Hn; lia|].
        destruct (parse_string_body r2) as [s' r'| |]; [| |done].
        + split; [discriminate|]. intros s r0 [= <- <-].
          specialize (Hl s' r' eq_refl). simpl. lia.
        + split; discriminate.
      - destruct (simple_escape e); [|split; discriminate].
        destruct (IH r1) as [Hf Hl]; [simpl in Hn; lia|].
        destruct (parse_string_body r1) as [s' r'| |]; [| |done].
        + split; [discriminate|]. intros s r0 [= <- <-].
          specialize (Hl s' r' eq_refl). simpl. lia.
        + split; discriminate. }
    destruct (code c <? 32)%N; [split; discriminate|].
    destruct (IH r) as [Hf Hl]; [lia|].
    destruct (parse_string_body r) as [s' r'| |]; [| |done].
    + split; [discriminate|]. intros s r0 [= <- <-].
      specialize (Hl s' r' eq_refl). simpl. lia.
    + split; discriminate.
Qed.

Lemma parse_string_body_length (cs : list ascii) (s : list N) (r : list ascii) :
  parse_string_body cs = POk s r -> length r < length cs.
Proof. apply (parse_string_body_spec (length cs) cs (le_n _)). Qed.

Lemma parse_string_body_fuel (cs : list ascii) :
  parse_string_body cs <> POutOfFuel.
Proof. apply (parse_string_body_spec (length cs) cs (le_n _)). Qed.

Lemma strip_prefix_length (p : list ascii) :
  forall cs r, strip_prefix p cs = Some r -> length r + length p = length cs.
Proof.
  induction p as [|a p IH]; intros cs r; simpl.
  - intros [= <-]. lia.
  - destruct cs as [|c cs]; [discriminate|].
    destruct (Ascii.eqb a c); [|discriminate].
    intros H. apply IH in H. simpl. lia.
Qed.

Lemma parse_literal_length (cs : list ascii) (v : value) (r : list ascii) :
  parse_literal cs = POk v r -> length r < length cs.
Proof.
  unfold parse_literal.
  repeat match goal with
         | |- context [strip_prefix ?p cs] =>
             destruct (strip_prefix p cs) eqn:?
         end; intros [= <- <-] || discriminate.
  all: match goal with
       | H : strip_prefix _ _ = Some _ |- _ =>
           apply strip_prefix_length in H; simpl in H; lia
       end.
Qed.

Lemma parse_literal_fuel (cs : list ascii) : parse_literal cs <> POutOfFuel.
Proof.
  unfold parse_literal.
  repeat match goal with
         | |- context [strip_prefix ?p cs] => destruct (strip_prefix p cs)
         end; discriminate.
Qed.

Section Bodies.
Variable val : list ascii -> presult value.
Variable elems : list ascii -> presult (list value).
Variable members : list ascii -> presult (list (list N * value)).

Hypothesis val_length :
  forall cs v r, val cs = POk v r -> length r < length cs.
Hypothesis elems_length :
  forall cs vs r, elems cs = POk vs r -> length r < length cs.
Hypothesis members_length :
  forall cs ms r, members cs = POk ms r -> length r < length cs.

Lemma value_body_length (cs : list ascii) (v : value) (r : list ascii) :
  value_body elems members cs = POk v r -> length r < length cs.
Proof.
  unfold value_body. pose proof (skip_ws_length cs) as Hws.
  destruct (skip_ws cs) as [|c r0]; [discriminate|]. simpl in Hws.
  destruct (code c =? 34)%N.
  { destruct (parse_string_body r0) as [s' r'| |] eqn:E; try discriminate.
    simpl. intros [= <- <-]. apply parse_string_body_length in E. lia. }
  destruct (code c =? 91)%N.
  { pose proof (skip_ws_length r0) as Hws'.
    destruct (skip_ws r0) as [|c' r']; [discriminate|]. simpl in Hws'.
    destruct (code c' =? 93)%N; [intros [= <- <-]; lia|].
    destruct (elems r0) as [vs r''| |] eqn:E; try discriminate.
    simpl. intros [= <- <-]. apply elems_length in E. lia. }
  destruct (code c =? 123)%N.
  { pose proof (skip_ws_length r0) as Hws'.
    destruct (skip_ws r0) as [|c' r']; [discriminate|]. simpl in Hws'.
    destruct (code c' =? 125)%N; [intros [= <- <-]; lia|].
    destruct (members r0) as [ms r''| |] eqn:E; try discriminate.
    simpl. intros [= <- <-]. apply members_length in E. lia. }
  destruct (is_digit c || (code c =? 45)%N).
  - intros H. apply parse_number_length in H. simpl in H. lia.
  - intros H. apply parse_literal_length in H. simpl in H. lia.
Qed.

Lemma elems_body_length (cs : list ascii) (vs : list value) (r : list ascii) :
  elems_body val elems cs = POk vs r -> length r < length cs.
Proof.
  unfold elems_body.
  destruct (val cs) as [v r0| |] eqn:E; try discriminate. simpl.
  apply val_length in E. pose proof (skip_ws_length r0) as Hws.
  destruct (skip_ws r0) as [|c r']; [discriminate|]. simpl in Hws.
  destruct (code c =? 44)%N.
  { destruct (elems r') as [vs' r''| |] eqn:E'; try discriminate.
    simpl. intros [= <- <-]. apply elems_length in E'. lia. }
  destruct (code c =? 93)%N; [|discriminate].
  intros [= <- <-]. lia.
Qed.

Lemma members_body_length (cs : list ascii) (ms : list (list N * value))
  (r : list ascii) :
  members_body val members cs = POk ms r -> length r < length cs.
Proof.
  unfold members_body. pose proof (skip_ws_length cs) as Hws.
  destruct (skip_ws cs) as [|q r0]; [discriminate|]. simpl in Hws.
  destruct (code q =? 34)%N; [|discriminate].
  destruct (parse_string_body r0) as [k r1| |] eqn:Ek; try discriminate.
  simpl. apply parse_string_body_length in Ek.
  pose proof (skip_ws_length r1) as Hws1.
  destruct (skip_ws r1) as [|colon r2]; [discriminate|]. simpl in Hws1.
  destruct (code colon =? 58)%N; [|discriminate].
  destruct (val r2) as [v r3| |] eqn:Ev; try discriminate. simpl.
  apply val_length in Ev. pose proof (skip_ws_length r3) as Hws3.
  destruct (skip_ws r3) as [|c r']; [discriminate|]. simpl in Hws3.
  destruct (code c =? 44)%N.
  { destruct (members r') as [ms' r''| |] eqn:E'; try discriminate.
    simpl. intros [= <- <-]. apply members_length in E'. lia. }
  destruct (code c =? 125)%N; [|discriminate].
  intros [= <- <-]. lia.
Qed.

(** The bodies run out of fuel only where a sub-parser does. *)
Lemma value_body_fuel (cs : list ascii) :
  (forall cs', length cs' < length cs -> elems cs' <> POutOfFuel) ->
  (forall cs', length cs' < length cs -> members cs' <> POutOfFuel) ->
  value_body elems members cs <> POutOfFuel.
Proof.
  intros He Hm. unfold value_body. pose proof (skip_ws_length cs) as Hws.
  destruct (skip_ws cs) as [|c r0]; [discriminate|]. simpl in Hws.
  destruct (code c =? 34)%N.
  { pose proof (parse_string_body_fuel r0).
    destruct (parse_string_body r0); done. }
  destruct (code c =? 91)%N.
  { destruct (skip_ws r0) as [|c' r']; [discriminate|].
    destruct (code c' =? 93)%N; [discriminate|].
    pose proof (He r0 ltac:(lia)). destruct (elems r0); done. }
  destruct (code c =? 123)%N.
  { destruct (skip_ws r0) as [|c' r']; [discriminate|].
    destruct (code c' =? 125)%N; [discriminate|].
    pose proof (Hm r0 ltac:(lia)). destruct (members r0); done. }
  destruct (is_digit c || (code c =? 45)%N).
  - apply parse_number_fuel.
  - apply parse_literal_fuel.
Qed.

Lemma elems_body_fuel (cs : list ascii) :
  val cs <> POutOfFuel ->
  (forall cs', length cs' + 2 <= length cs -> elems cs' <> POutOfFuel) ->
  elems_body val elems cs <> POutOfFuel.
Proof.
  intros Hv He. unfold elems_body.
  destruct (val cs) as [v r0| |] eqn:E; [|discriminate|done]. simpl.
  apply val_length in E. pose proof (skip_ws_length r0) as Hws.
  destruct (skip_ws r0) as [|c r']; [discriminate|]. simpl in Hws.
  destruct (code c =? 44)%N.
  { pose proof (He r' ltac:(lia)). destruct (elems r'); done. }
  destruct (code c =? 93)%N; discriminate.
Qed.

Lemma members_body_fuel (cs : list ascii) :
  (forall cs', length cs' <= length cs -> val cs' <> POutOfFuel) ->
  (forall cs', length cs' + 2 <= length cs -> members cs' <> POutOfFuel) ->
  members_body val members cs <> POutOfFuel.
Proof.
  intros Hv Hm. unfold members_body. pose proof (skip_ws_length cs) as Hws.
  destruct (skip_ws cs) as [|q r0]; [discriminate|]. simpl in Hws.
  destruct (code q =? 34)%N; [|discriminate].
  pose proof (parse_string_body_fuel r0) as Hs.
  destruct (parse_string_body r0) as [k r1| |] eqn:Ek; [|discriminate|done].
  simpl. apply parse_string_body_length in Ek.
  pose proof (skip_ws_length r1) as Hws1.
  destruct (skip_ws r1) as [|colon r2]; [discriminate|]. simpl in Hws1.
  destruct (code colon =? 58)%N; [|discriminate].
  pose proof (Hv r2 ltac:(lia)) as Hv2.
  destruct (val r2) as [v r3| |] eqn:Ev; [|discriminate|done]. simpl.
  apply val_length in Ev. pose proof (skip_ws_length r3) as Hws3.
  destruct (skip_ws r3) as [|c r']; [discriminate|]. simpl in Hws3.
  destruct (code c =? 44)%N.
  { pose proof (Hm r' ltac:(lia)). destruct (members r'); done. }
  destruct (code c =? 125)%N; discriminate.
Qed.
End Bodies.

(** Every successful parser consumes at least one character. *)
Lemma parse_lengths (fuel : nat) :
  (forall cs v r, parse_value fuel cs = POk v r -> length r < length cs)
  /\ (forall cs vs r, parse_elems fuel cs = POk vs r -> length r < length cs)
  /\ (forall cs ms r, parse_members fuel cs = POk ms r -> length r < length cs).
Proof.
  induction fuel as [|fuel (IHv & IHe & IHm)];
    [split_and!; intros; discriminate|].
  split_and!; intros cs; simpl.
  - by apply value_body_length.
  - by apply elems_body_length.
  - by apply members_body_length.
Qed.

(** Two units of fuel for each character, and one more, are enough. *)
Lemma parse_fuel (fuel : nat) :
  (forall cs, 2 * length cs + 1 <= fuel -> parse_value fuel cs <> POutOfFuel)
  /\ (forall cs, 2 * length cs + 2 <= fuel -> parse_elems fuel cs <> POutOfFuel)
  /\ (forall cs, 2 * length cs + 2 <= fuel ->
        parse_members fuel cs <> POutOfFuel).
Proof.
  induction fuel as [|fuel (IHv & IHe & IHm)]; [split_and!; intros; lia|].
  destruct (parse_lengths fuel) as (Lv & Le & Lm).
  split_and!; intros cs Hfuel; simpl.
  - apply value_body_fuel; intros cs' Hlt; [apply IHe|apply IHm]; lia.
  - apply elems_body_fuel; [done|apply IHv; lia|].
    intros cs' Hlt. apply IHe. lia.
  - apply members_body_fuel; [done| |].
    + intros cs' Hle. apply IHv. lia.
    + intros cs' Hlt. apply IHm. lia.
Qed.

(** [JSON_parse] never stops for lack of fuel: its [None] is a syntax
    error of the text. *)
Lemma JSON_parse_has_enough_fuel (text : string) :
  parse_value (enough_fuel (list_ascii_of_string text))
    (list_ascii_of_string text) <> POutOfFuel.
Proof. apply parse_fuel. unfold enough_fuel. lia. Qed.

End JsonProps.

(* ===================================================================== *)
(** * What [JSON.stringify] writes, [JSON.parse] reads back               *)
(* ===================================================================== *)

Module UserJsonProps.
Import Json Auth.

(** An escaped character is read back as the character. *)
Lemma parse_escape_char (c : ascii) (rest : list ascii) :
  parse_string_body (escape_char c ++ rest)%list =
  match parse_string_body rest with
  | POk s r => POk (code c :: s) r
  | PSyntaxError => PSyntaxError
  | POutOfFuel => POutOfFuel
  end.
Proof. destruct c as [[] [] [] [] [] [] [] []]; reflexivity. Qed.

Lemma parse_escaped (cs rest : list ascii) :
  parse_string_body (flat_map escape_char cs ++ dquote :: rest)%list =
  POk (map code cs) rest.
Proof.
  induction cs as [|c cs IH]; [reflexivity|].
  simpl flat_map. rewrite <- app_assoc, parse_escape_char, IH. reflexivity.
Qed.

Lemma parse_quote_string (s : string) (rest : list ascii) :
  exists body,
    (quote_string s ++ rest)%list = dquote :: body
    /\ parse_string_body body = POk (js s) rest.
Proof.
  exists (flat_map escape_char (list_ascii_of_string s) ++ dquote :: rest)%list.
  split; [|apply parse_escaped].
  unfold quote_string. simpl. by rewrite <- app_assoc.
Qed.

(** The value of a property is read back with any fuel. *)
Lemma parse_value_text (v : field_value) (rest : list ascii)
  (elems : list ascii -> presult (list value))
  (members : list ascii -> presult (list (list N * value))) :
  value_body elems members (value_text v ++ rest)%list = POk (field_json v) rest.
Proof.
  destruct v as [s|[]]; [|reflexivity|reflexivity].
  cbn [value_text field_json].
  destruct (parse_quote_string s rest) as (body & -> & Hbody).
  unfold value_body. cbn [skip_ws]. change (is_ws dquote) with false.
  cbv iota. change (code dquote =? 34)%N with true. cbv iota.
  by rewrite Hbody.
Qed.

(** The text after the value of a member: a comma and the other
    members, or the closing brace. *)
Definition members_text (fields : list (string * field_value))
  (rest : list ascii) : list ascii :=
  (join_members (map field_text fields) ++ ascii_of_N 125 :: rest)%list.

Lemma members_text_cons (f : string * field_value)
  (fields : list (string * field_value)) (rest : list ascii) :
  members_text (f :: fields) rest =
  (field_text f ++
   match fields with
   | [] => ascii_of_N 125 :: rest
   | _ :: _ => ascii_of_N 44 :: members_text fields rest
   end)%list.
Proof.
  unfold members_text. destruct fields as [|g fields]; [reflexivity|].
  change (join_members (map field_text (f :: g :: fields)))
    with (field_text f ++ ascii_of_N 44
          :: join_members (map field_text (g :: fields)))%list.
  by rewrite <- app_assoc.
Qed.

(** One member is read, up to what follows its value. *)
Lemma members_body_field
  (val : list ascii -> presult value)
  (members : list ascii -> presult (list (list N * value)))
  (key : string) (v : field_value) (tail : list ascii) :
  (forall rest, val (value_text v ++ rest)%list = POk (field_json v) rest) ->
  members_body val members (field_text (key, v) ++ tail)%list =
  match skip_ws tail with
  | c :: r' =>
      if (code c =? 44)%N then
        pbind (members r')
          (fun ms r'' => POk ((js key, field_json v) :: ms) r'')
      else if (code c =? 125)%N then POk [(js key, field_json v)] r'
      else PSyntaxError
  | [] => PSyntaxError
  end.
Proof.
  intros Hval. unfold field_text. cbn [fst snd].
  rewrite <- app_assoc. cbn [app].
  destruct (parse_quote_string key
              (ascii_of_N 58 :: value_text v ++ tail)%list)
    as (body & Hq & Hbody).
  rewrite Hq. unfold members_body.
  cbn [skip_ws]. change (is_ws dquote) with false. cbv iota.
  change (code dquote =? 34)%N with true. cbv iota.
  rewrite Hbody. cbn [pbind skip_ws].
  change (is_ws (ascii_of_N 58)) with false. cbv iota.
  change (code (ascii_of_N 58) =? 58)%N with true. cbv iota.
  rewrite Hval. reflexivity.
Qed.

Lemma parse_value_S (fuel : nat) (cs : list ascii) :
  parse_value (S fuel) cs =
  value_body (parse_elems fuel) (parse_members fuel) cs.
Proof. reflexivity. Qed.

Lemma parse_members_S (fuel : nat) (cs : list ascii) :
  parse_members (S fuel) cs =
  members_body (parse_value fuel) (parse_members fuel) cs.
Proof. reflexivity. Qed.

Lemma parse_members_text (fields : list (string * field_value)) :
  forall (f : string * field_value) (fuel : nat) (rest : list ascii),
    length fields + 2 <= fuel ->
    parse_members fuel (members_text (f :: fields) rest) =
    POk (map (fun g => (js (fst g), field_json (snd g))) (f :: fields)) rest.
Proof.
  induction fields as [|g fields IH]; intros [key v] fuel rest Hfuel.
  all: destruct fuel as [|[|fuel]]; [simpl in Hfuel; lia..|].
  all: rewrite members_text_cons, parse_members_S.
  all: rewrite members_body_field
         by (intros rest'; rewrite parse_value_S; apply parse_value_text).
  - reflexivity.
  - cbn [skip_ws]. change (is_ws (ascii_of_N 44)) with false. cbv iota.
    change (code (ascii_of_N 44) =? 44)%N with true. cbv iota.
    rewrite IH by (simpl in Hfuel; lia). reflexivity.
Qed.

Lemma members_text_head (f : string * field_value)
  (fields : list (string * field_value)) (rest : list ascii) :
  exists tail, members_text (f :: fields) rest = dquote :: tail.
Proof.
  rewrite members_text_cons. destruct f as [key v]. unfold field_text.
  cbn [fst snd]. unfold quote_string. simpl. eauto.
Qed.

Lemma members_text_length (fields : list (string * field_value))
  (rest : list ascii) :
  length fields <= length (members_text fields rest).
Proof.
  induction fields as [|f fields IH]; [simpl; lia|].
  rewrite members_text_cons. destruct f as [key v]. unfold field_text.
  cbn [fst snd]. unfold quote_string. rewrite !length_app. simpl.
  destruct fields; simpl in *; lia.
Qed.

(** A non-empty object is read back, member by member. *)
Lemma parse_object_text (f : string * field_value)
  (fields : list (string * field_value)) (fuel : nat) :
  length fields + 3 <= fuel ->
  parse_value fuel (object_text (f :: fields)) =
  POk (object_json (f :: fields)) [].
Proof.
  intros Hfuel. destruct fuel as [|fuel]; [lia|].
  change (object_text (f :: fields))
    with (ascii_of_N 123 :: members_text (f :: fields) []).
  rewrite parse_value_S. unfold value_body. cbn [skip_ws].
  change (is_ws (ascii_of_N 123)) with false. cbv iota.
  change (code (ascii_of_N 123) =? 34)%N with false.
  change (code (ascii_of_N 123) =? 91)%N with false.
  change (code (ascii_of_N 123) =? 123)%N with true. cbv iota.
  destruct (members_text_head f fields []) as [tail Htail].
  rewrite Htail. cbn [skip_ws]. change (is_ws dquote) with false. cbv iota.
  change (code dquote =? 125)%N with false. cbv iota.
  rewrite <- Htail, parse_members_text by lia. reflexivity.
Qed.

(** [JSON.parse(JSON.stringify(user))] is the object of the user's
    properties: it never throws. *)
Lemma JSON_parse_stringify (u : User) :
  JSON_parse (JSON_stringify u) = Some (object_json (user_fields u)).
Proof.
  unfold JSON_parse, JSON_stringify.
  rewrite list_ascii_of_string_of_list_ascii.
  assert (Hfields : exists f fields, user_fields u = f :: fields).
  { unfold user_fields. simpl. eauto. }
  destruct Hfields as (f & fields & Hfields). rewrite Hfields.
  rewrite parse_object_text; [reflexivity|].
  unfold enough_fuel.
  change (object_text (f :: fields))
    with (ascii_of_N 123 :: members_text (f :: fields) []).
  pose proof (members_text_length (f :: fields) []) as Hlen.
  simpl in *. lia.
Qed.

End UserJsonProps.

(* ===================================================================== *)
(** * Properties of the session, the auth service and the HTTP client     *)
(* ===================================================================== *)

Module AuthProps.
Import Json Auth Session Samples.

Lemma keys_distinct :
  tokenKey <> refreshKey /\ tokenKey <> userKey /\ refreshKey <> userKey.
Proof. split_and!; discriminate. Qed.

(** [clearAuth] removes the three entries and nothing else. *)
Lemma clearAuth_spec (b : Browser) :
  fst (clearAuth b) = Returned tt
  /\ localStorage (snd (clearAuth b)) =
       delete userKey (delete refreshKey (delete tokenKey (localStorage b)))
  /\ location_href (snd (clearAuth b)) = location_href b
  /\ requests (snd (clearAuth b)) = requests b.
Proof. split_and!; reflexivity. Qed.

Lemma clearAuth_cleared (b : Browser) : session_cleared (snd (clearAuth b)).
Proof.
  destruct keys_distinct as (H1 & H2 & H3).
  unfold session_cleared. simpl. split_and!.
  - by rewrite lookup_delete_ne, lookup_delete_ne, lookup_delete_eq.
  - by rewrite lookup_delete_ne, lookup_delete_eq.
  - by rewrite lookup_delete_eq.
Qed.

(** C5. [getCurrentUser] called when no token is cached (the stored
    token is null, or the empty string) returns null at once: the
    browser is unchanged, so no request is sent and the stored session is
    untouched. *)
Theorem getCurrentUser_without_token (backend : Backend) (b : Browser) :
  truthy_opt (localStorage b !! tokenKey) = false ->
  getCurrentUser backend b = (Returned None, b)
  /\ requests (snd (getCurrentUser backend b)) = requests b
  /\ localStorage (snd (getCurrentUser backend b)) = localStorage b.
Proof.
  intros H. unfold getCurrentUser, bind, getToken, getItem. simpl.
  rewrite H. simpl. split_and!; reflexivity.
Qed.

Lemma getCurrentUser_without_token_witness :
  truthy_opt (localStorage empty_browser !! tokenKey) = false
  /\ getCurrentUser backend_inline_user empty_browser
     = (Returned None, empty_browser).
Proof.
  split; [reflexivity|].
  exact (proj1 (getCurrentUser_without_token backend_inline_user
                  empty_browser eq_refl)).
Defined.

Lemma logout_run (backend : Backend) (b : Browser) :
  logout backend b =
  (Returned tt,
   snd (set_location_href "/login"
          (snd (clearAuth (log_request "POST" "/auth/logout" b))))).
Proof.
  unfold logout, try_finally, try_catch, api_call.
  by destruct (post_auth_logout backend (bearer b)) as [[]|err].
Qed.

(** C9. [logout] returns normally whether the server call succeeds or
    fails, and in both cases the session is cleared (access token,
    refresh token and cached user removed) and the location is set to
    the login view, once. *)
Theorem logout_clears_and_redirects (backend : Backend) (b : Browser) :
  fst (logout backend b) = Returned tt
  /\ session_cleared (snd (logout backend b))
  /\ location_href (snd (logout backend b)) = "/login" :: location_href b.
Proof.
  rewrite logout_run. split_and!; [reflexivity| |reflexivity].
  apply (clearAuth_cleared (log_request "POST" "/auth/logout" b)).
Qed.

(** ** The response interceptor *)

(** C2, as the code has it.  When a call through the HTTP client is
    rejected, one request was sent and the call is rejected with
    [error.response?.data || error]: the server's error payload itself
    when it is truthy, the whole error object when the payload is empty
    or otherwise falsy.  On status 401 the session is cleared (access
    token, refresh token and cached user absent) and the location is set
    to the login view, once; on every other status the stored session
    and the location are left as they were. *)
Theorem response_error_handling (meth path : string)
  (server : option string -> reply value) (b : Browser) (error : AxiosError) :
  server (bearer b) = Rejected error ->
  fst (ApiClient.request meth path server b) = Thrown (ApiClient.rejection error)
  /\ requests (snd (ApiClient.request meth path server b)) =
       {| method := meth; url := path; authorization := bearer b |}
       :: requests b
  /\ (forall status data,
        response error = Some (status, data) -> truthy data = true ->
        fst (ApiClient.request meth path server b) = Thrown (ErrorBody data))
  /\ (forall status data,
        response error = Some (status, data) -> truthy data = false ->
        fst (ApiClient.request meth path server b) = Thrown (AxiosFailure error))
  /\ (ApiClient.is_unauthorized error = true ->
        session_cleared (snd (ApiClient.request meth path server b))
        /\ location_href (snd (ApiClient.request meth path server b)) =
             "/login" :: location_href b)
  /\ (ApiClient.is_unauthorized error = false ->
        localStorage (snd (ApiClient.request meth path server b)) =
          localStorage b
        /\ location_href (snd (ApiClient.request meth path server b)) =
             location_href b).
Proof.
  intros Hreply. unfold ApiClient.request. rewrite Hreply.
  unfold ApiClient.on_response_error, bind, throw.
  assert (Hrej : forall status data,
            response error = Some (status, data) ->
            ApiClient.rejection error =
            if truthy data then ErrorBody data else AxiosFailure error).
  { intros status data H. unfold ApiClient.rejection. by rewrite H. }
  destruct (ApiClient.is_unauthorized error) eqn:Hu; simpl.
  - split_and!; try done.
    + intros status data H Ht. by rewrite (Hrej _ _ H), Ht.
    + intros status data H Ht. by rewrite (Hrej _ _ H), Ht.
    + intros _. split; [|reflexivity].
      apply (clearAuth_cleared (log_request meth path b)).
  - split_and!; try done.
    + intros status data H Ht. by rewrite (Hrej _ _ H), Ht.
    + intros status data H Ht. by rewrite (Hrej _ _ H), Ht.
Qed.

Lemma response_error_handling_witness :
  let error := http_error 401 (JObj [(js "detail", JStr (js "Token expired"))]) in
  let out := ApiClient.request "GET" "/inventory" (fun _ => Rejected error)
               logged_in_browser in
  ApiClient.is_unauthorized error = true
  /\ fst out = Thrown (ErrorBody (JObj [(js "detail", JStr (js "Token expired"))]))
  /\ session_cleared (snd out)
  /\ location_href (snd out) = ["/login"; "/dashboard/gudang"].
Proof.
  pose proof (response_error_handling "GET" "/inventory"
    (fun _ => Rejected
       (http_error 401 (JObj [(js "detail", JStr (js "Token expired"))])))
    logged_in_browser _ eq_refl) as (H1 & _ & _ & _ & H5 & _).
  split; [reflexivity|]. split; [exact H1|]. exact (H5 eq_refl).
Defined.

(** C2, as stated, fails on an error response with an empty body: status
    500 with the payload [""] is not rejected with that payload but with
    the error object of axios. *)
Lemma empty_error_payload_not_propagated :
  let error := http_error 500 (JStr []) in
  let out := ApiClient.request "GET" "/inventory" (fun _ => Rejected error)
               logged_in_browser in
  ApiClient.is_unauthorized error = false
  /\ fst out = Thrown (AxiosFailure error)
  /\ fst out <> Thrown (ErrorBody (JStr [])).
Proof. split_and!; [reflexivity|reflexivity|discriminate]. Qed.

(** ** Symbolic runs of the service methods *)

Lemma getCurrentUser_run (backend : Backend) (b : Browser) :
  getCurrentUser backend b =
  if truthy_opt (localStorage b !! tokenKey) then
    match get_auth_me backend (bearer b) with
    | Fulfilled (Some u) =>
        (Returned (Some u), snd (setUser u (log_request "GET" "/auth/me" b)))
    | Fulfilled None => (Returned None, log_request "GET" "/auth/me" b)
    | Rejected _ =>
        (Returned None, snd (clearAuth (log_request "GET" "/auth/me" b)))
    end
  else (Returned None, b).
Proof.
  unfold getCurrentUser, bind, getToken, getItem, try_catch, api_call. simpl.
  destruct (truthy_opt (localStorage b !! tokenKey)); simpl; [|done].
  by destruct (get_auth_me backend (bearer b)) as [[u|]|err].
Qed.

Lemma login_run (backend : Backend) (credentials : LoginCredentials)
  (b : Browser) :
  login backend credentials b =
  match post_auth_login backend credentials (bearer b) with
  | Rejected error =>
      (Thrown (AxiosFailure error), log_request "POST" "/auth/login" b)
  | Fulfilled res =>
      match access_token res with
      | Some token =>
          if truthy_string token then
            match user res with
            | Some u => (Returned u, snd (setUser u (after_tokens res token b)))
            | None =>
                match getCurrentUser backend (after_tokens res token b) with
                | (Returned (Some u), b4) => (Returned u, b4)
                | (Returned None, b4) =>
                    (Thrown (Error "Login failed: user data missing"), b4)
                | (Thrown e, b4) => (Thrown e, b4)
                end
            end
          else (Thrown (Error "Login failed: access token missing"),
                log_request "POST" "/auth/login" b)
      | None => (Thrown (Error "Login failed: access token missing"),
                 log_request "POST" "/auth/login" b)
      end
  end.
Proof.
  unfold login, try_catch, bind, api_call, throw, after_tokens.
  destruct (post_auth_login backend credentials (bearer b)) as [res|err];
    [|done].
  destruct (access_token res) as [token|]; [|done].
  destruct (truthy_string token); simpl; [|done].
  unfold store_refresh_token.
  destruct (refresh_token res) as [r|]; [destruct (truthy_string r)|]; simpl.
  all: destruct (user res) as [u|]; simpl; [done|].
  all: match goal with
       | |- context [getCurrentUser ?bk ?x] =>
           destruct (getCurrentUser bk x) as [[[u|]|e] b4]
       end; done.
Qed.

Lemma after_tokens_token (res : AuthResponse) (token : string) (b : Browser) :
  localStorage (after_tokens res token b) !! tokenKey = Some token.
Proof.
  unfold after_tokens, store_refresh_token.
  destruct (refresh_token res) as [r|]; [destruct (truthy_string r)|]; simpl.
  - rewrite lookup_insert_ne by discriminate. apply lookup_insert_eq.
  - apply lookup_insert_eq.
  - apply lookup_insert_eq.
Qed.

Lemma after_tokens_bearer (res : AuthResponse) (token : string) (b : Browser) :
  truthy_string token = true ->
  bearer (after_tokens res token b) = Some ("Bearer " ++ token).
Proof.
  intros Ht. unfold bearer.
  change "inventory_token" with tokenKey.
  by rewrite after_tokens_token, Ht.
Qed.

(** ** Invalidation of the stored token *)

Lemma setUser_token (u : User) (b : Browser) :
  localStorage (snd (setUser u b)) !! tokenKey = localStorage b !! tokenKey.
Proof. simpl. by rewrite lookup_insert_ne by discriminate. Qed.

(** A stored token is removed only by the failure path of
    [getCurrentUser] (called directly or by [login]), by [logout], or by
    the 401 handler of the HTTP client. *)
Lemma removed_token_cause (op : operation) (b : Browser) :
  is_Some (localStorage b !! tokenKey) ->
  localStorage (perform op b) !! tokenKey = None ->
  removal_cause op b.
Proof.
  intros [t Ht] Hgone. destruct op as [bk cr|bk|bk data|bk|meth path server];
    simpl in *.
  - (* login *)
    rewrite login_run in Hgone.
    destruct (post_auth_login bk cr (bearer b)) as [res|err] eqn:Hpost;
      [|simpl in Hgone; congruence].
    destruct (access_token res) as [token|] eqn:Htok;
      [|simpl in Hgone; congruence].
    destruct (truthy_string token) eqn:Htruthy; [|simpl in Hgone; congruence].
    destruct (user res) as [u|] eqn:Huser.
    { cbn [snd] in Hgone.
      rewrite setUser_token, after_tokens_token in Hgone. discriminate. }
    rewrite getCurrentUser_run, after_tokens_token in Hgone.
    cbn [truthy_opt] in Hgone.
    rewrite Htruthy, after_tokens_bearer in Hgone by done.
    destruct (get_auth_me bk (Some ("Bearer " ++ token))) as [[u|]|err] eqn:Hme;
      cbn [snd] in Hgone.
    + rewrite setUser_token in Hgone. cbn [log_request localStorage] in Hgone.
      rewrite after_tokens_token in Hgone. discriminate.
    + cbn [log_request localStorage] in Hgone.
      rewrite after_tokens_token in Hgone. discriminate.
    + by exists res, token, err.
  - (* getCurrentUser *)
    rewrite getCurrentUser_run, Ht in Hgone. cbn [truthy_opt] in Hgone.
    destruct (truthy_string t) eqn:Htruthy; [|simpl in Hgone; congruence].
    destruct (get_auth_me bk (bearer b)) as [[u|]|err] eqn:Hme;
      cbn [snd] in Hgone.
    + rewrite setUser_token in Hgone. simpl in Hgone. congruence.
    + simpl in Hgone. congruence.
    + by exists t, err.
  - (* register *)
    unfold register, try_catch, api_call, throw in Hgone.
    destruct (post_auth_register bk data (bearer b)); simpl in Hgone;
      congruence.
  - (* logout *) exact I.
  - (* a call through the HTTP client *)
    unfold ApiClient.request in Hgone.
    destruct (server (bearer b)) as [d|err] eqn:Hreply;
      [simpl in Hgone; congruence|].
    destruct (ApiClient.is_unauthorized err) eqn:Hu; [by exists err|].
    unfold ApiClient.on_response_error, bind in Hgone. rewrite Hu in Hgone.
    simpl in Hgone. congruence.
Qed.

(** C3, as the code has it.  Whenever [getCurrentUser] is called with a
    token cached and the profile fetch fails, it clears the entire
    session (access token, refresh token and cached user removed) and
    returns null.  This failure path, run directly or as the follow-up
    fetch of [login], is not the only way a stored token is removed:
    [logout] and the 401 handler of the HTTP client remove it too, and
    no other operation does. *)
Theorem getCurrentUser_failure_clears_session :
  (forall (backend : Backend) (b : Browser),
     profile_fetch_fails backend b ->
     fst (getCurrentUser backend b) = Returned None
     /\ session_cleared (snd (getCurrentUser backend b))
     /\ location_href (snd (getCurrentUser backend b)) = location_href b)
  /\ (forall (op : operation) (b : Browser),
     is_Some (localStorage b !! tokenKey) ->
     localStorage (perform op b) !! tokenKey = None ->
     removal_cause op b).
Proof.
  split; [|exact removed_token_cause].
  intros backend b (token & err & Ht & Htruthy & Hme).
  rewrite getCurrentUser_run, Ht. simpl. rewrite Htruthy, Hme. simpl.
  split_and!; [reflexivity| |reflexivity].
  apply (clearAuth_cleared (log_request "GET" "/auth/me" b)).
Qed.

Lemma logged_in_profile_fetch_fails :
  profile_fetch_fails backend_rejecting logged_in_browser.
Proof. exists "tok-1", (http_error 401 JNull). split_and!; reflexivity. Qed.

Lemma getCurrentUser_failure_clears_session_witness :
  profile_fetch_fails backend_rejecting logged_in_browser
  /\ fst (getCurrentUser backend_rejecting logged_in_browser) = Returned None
  /\ session_cleared (snd (getCurrentUser backend_rejecting logged_in_browser))
  /\ is_Some (localStorage logged_in_browser !! tokenKey)
  /\ localStorage
       (perform (OpLogout backend_inline_user) logged_in_browser) !! tokenKey
     = None
  /\ removal_cause (OpLogout backend_inline_user) logged_in_browser.
Proof.
  destruct getCurrentUser_failure_clears_session as [Hfail Hcause].
  destruct (Hfail _ _ logged_in_profile_fetch_fails) as (H1 & H2 & _).
  assert (Hsome : is_Some (localStorage logged_in_browser !! tokenKey))
    by (exists "tok-1"; reflexivity).
  assert (Hnone : localStorage
            (perform (OpLogout backend_inline_user) logged_in_browser)
            !! tokenKey = None) by reflexivity.
  split; [exact logged_in_profile_fetch_fails|].
  split; [exact H1|]. split; [exact H2|]. split; [exact Hsome|].
  split; [exact Hnone|]. exact (Hcause _ _ Hsome Hnone).
Defined.

(** C3, as stated, fails: the failure path of [getCurrentUser] is not
    the sole mechanism.  A 401 answer to a call through the HTTP client
    removes the stored token, and the whole session, without any call of
    [getCurrentUser]. *)
Lemma unauthorized_response_also_invalidates :
  let op := OpRequest "GET" "/inventory"
              (fun _ => Rejected (http_error 401 JNull)) in
  localStorage logged_in_browser !! tokenKey = Some "tok-1"
  /\ session_cleared (perform op logged_in_browser)
  /\ (forall backend, op <> OpGetCurrentUser backend)
  /\ requests (perform op logged_in_browser) =
       [ {| method := "GET"; url := "/inventory";
            authorization := Some "Bearer tok-1" |} ].
Proof.
  split_and!; [reflexivity| |discriminate|reflexivity].
  apply (clearAuth_cleared (log_request "GET" "/inventory" logged_in_browser)).
Qed.

(** ** Login *)

(** What [login] leaves behind.  When it returns a user, a non-empty
    token and that user are stored.  When it throws, either nothing was
    stored, or the session was cleared by the failed follow-up fetch, or
    the follow-up fetch was answered with an empty body: then the token
    stays stored and no user was stored by this call. *)
Lemma login_outcomes (backend : Backend) (credentials : LoginCredentials)
  (b : Browser) :
  (forall u, fst (login backend credentials b) = Returned u ->
     exists token,
       localStorage (snd (login backend credentials b)) !! tokenKey = Some token
       /\ truthy_string token = true
       /\ localStorage (snd (login backend credentials b)) !! userKey
          = Some (JSON_stringify u))
  /\ (forall e, fst (login backend credentials b) = Thrown e ->
     localStorage (snd (login backend credentials b)) = localStorage b
     \/ session_cleared (snd (login backend credentials b))
     \/ (e = Error "Login failed: user data missing"
         /\ (exists token,
               localStorage (snd (login backend credentials b)) !! tokenKey
               = Some token /\ truthy_string token = true)
         /\ localStorage (snd (login backend credentials b)) !! userKey
            = localStorage b !! userKey)).
Proof.
  rewrite login_run.
  destruct (post_auth_login backend credentials (bearer b)) as [res|err];
    [|split; [discriminate|intros e _; by left]].
  destruct (access_token res) as [token|];
    [|split; [discriminate|intros e _; by left]].
  destruct (truthy_string token) eqn:Htruthy;
    [|split; [discriminate|intros e _; by left]].
  assert (Huser_key : localStorage (after_tokens res token b) !! userKey
                      = localStorage b !! userKey).
  { unfold after_tokens, store_refresh_token.
    destruct (refresh_token res) as [r|]; [destruct (truthy_string r)|]; simpl.
    all: by rewrite !lookup_insert_ne by discriminate. }
  destruct (user res) as [u|].
  { split; [|discriminate]. intros u' [= <-]. exists token. cbn [snd].
    rewrite setUser_token, after_tokens_token. split_and!; try done.
    simpl. apply lookup_insert_eq. }
  rewrite getCurrentUser_run, after_tokens_token. cbn [truthy_opt].
  rewrite Htruthy, after_tokens_bearer by done.
  destruct (get_auth_me backend (Some ("Bearer " ++ token))) as [[u|]|err].
  - split; [|discriminate]. intros u' [= <-]. exists token. cbn [snd].
    rewrite setUser_token. cbn [log_request localStorage].
    rewrite after_tokens_token. split_and!; try done.
    simpl. apply lookup_insert_eq.
  - split; [discriminate|]. intros e [= <-]. right. right. cbn [snd].
    cbn [log_request localStorage]. rewrite after_tokens_token.
    split_and!; [done|by exists token|done].
  - split; [discriminate|]. intros e _. right. left. cbn [snd].
    apply (clearAuth_cleared
             (log_request "GET" "/auth/me" (after_tokens res token b))).
Qed.

(** C4, at the failing input.  The login answer carries a token and no
    user, and the follow-up fetch is answered with an empty body:
    [login] throws, and leaves the token stored with no cached user, so
    that [isAuthenticated] holds afterwards. *)
Theorem login_empty_profile_keeps_token :
  let out := login backend_empty_profile credentials empty_browser in
  fst out = Thrown (Error "Login failed: user data missing")
  /\ localStorage (snd out) !! tokenKey = Some "tok-1"
  /\ localStorage (snd out) !! userKey = None
  /\ fst (isAuthenticated (snd out)) = Returned true
  /\ requests (snd out) =
       [ {| method := "GET"; url := "/auth/me";
            authorization := Some "Bearer tok-1" |};
         {| method := "POST"; url := "/auth/login";
            authorization := None |} ].
Proof. split_and!; reflexivity. Qed.

(** ** The cached user *)

(** C6, as the code has it.  [getUser] does not change the browser.  It
    returns null when no blob, or the empty string, is stored; it returns
    the value of the blob, whatever its shape, when the blob is JSON text
    (null for the text [null]); and it throws the [SyntaxError] of
    [JSON.parse], and nothing else, when the blob is not JSON text. *)
Theorem getUser_outcomes (b : Browser) :
  snd (getUser b) = b
  /\ (truthy_opt (localStorage b !! userKey) = false ->
        fst (getUser b) = Returned JNull)
  /\ (forall str v,
        localStorage b !! userKey = Some str -> truthy_string str = true ->
        JSON_parse str = Some v -> fst (getUser b) = Returned v)
  /\ (forall str,
        localStorage b !! userKey = Some str -> truthy_string str = true ->
        JSON_parse str = None -> fst (getUser b) = Thrown SyntaxError)
  /\ (forall e, fst (getUser b) = Thrown e ->
        e = SyntaxError
        /\ exists str, localStorage b !! userKey = Some str
                       /\ JSON_parse str = None).
Proof.
  unfold getUser, bind, getItem, ret, throw. simpl.
  destruct (localStorage b !! userKey) as [str|]; simpl.
  - destruct (truthy_string str) eqn:Ht; simpl.
    + destruct (JSON_parse str) as [v|] eqn:Hp; simpl.
      * split_and!; try done.
        -- intros str' v' [= <-] _ Hv. congruence.
        -- intros str' [= <-] _ Hnone. congruence.
      * split_and!; try done.
        -- intros str' v' [= <-] _ Hv. congruence.
        -- intros e [= <-]. split; [done|by exists str].
    + split_and!; try done; intros str' ?; intros; simplify_eq; congruence.
  - split_and!; done.
Qed.

Lemma getUser_outcomes_witness :
  localStorage (browser_with_user_blob "null") !! userKey = Some "null"
  /\ truthy_string "null" = true
  /\ JSON_parse "null" = Some JNull
  /\ fst (getUser (browser_with_user_blob "null")) = Returned JNull
  /\ localStorage (browser_with_user_blob "{oops") !! userKey = Some "{oops"
  /\ JSON_parse "{oops" = None
  /\ fst (getUser (browser_with_user_blob "{oops")) = Thrown SyntaxError.
Proof.
  destruct (getUser_outcomes (browser_with_user_blob "null"))
    as (_ & _ & Hok & _).
  destruct (getUser_outcomes (browser_with_user_blob "{oops"))
    as (_ & _ & _ & Hbad & _).
  split; [reflexivity|]. split; [reflexivity|]. split; [reflexivity|].
  split; [exact (Hok "null" JNull eq_refl eq_refl eq_refl)|].
  split; [reflexivity|]. split; [reflexivity|].
  exact (Hbad "{oops" eq_refl eq_refl eq_refl).
Defined.

(** C6, as stated, fails: for a malformed blob [getUser] raises an
    error instead of yielding null. *)
Lemma getUser_malformed_blob_throws :
  localStorage (browser_with_user_blob "{oops") !! userKey = Some "{oops"
  /\ getUser (browser_with_user_blob "{oops")
     = (Thrown SyntaxError, browser_with_user_blob "{oops")
  /\ getUser (browser_with_user_blob "not json")
     = (Thrown SyntaxError, browser_with_user_blob "not json").
Proof. split_and!; reflexivity. Qed.

(** What [setUser] writes is read back by [getUser] as the object of the
    user's properties: the blobs the service itself stores never make
    [getUser] throw. *)
Lemma getUser_after_setUser (u : User) (b : Browser) :
  getUser (snd (setUser u b)) =
  (Returned (object_json (user_fields u)), snd (setUser u b)).
Proof.
  unfold getUser, bind, getItem, setUser, setItem. cbn [snd fst localStorage].
  rewrite lookup_insert_eq.
  assert (Htruthy : truthy_string (JSON_stringify u) = true) by reflexivity.
  rewrite Htruthy, UserJsonProps.JSON_parse_stringify. reflexivity.
Qed.

Example getUser_after_setUser_staff :
  fst (getUser (snd (setUser staff empty_browser))) =
  Returned (JObj [ (js "id", JStr (js "u-7"));
                   (js "username", JStr (js "staff_gudang"));
                   (js "email", JStr (js "staff@gudang.com"));
                   (js "full_name", JStr (js "Staff Gudang"));
                   (js "role", JStr (js "gudang"));
                   (js "warehouse_id", JStr (js "w-1"));
                   (js "is_active", JBool true);
                   (js "is_verified", JBool true) ]).
Proof. rewrite getUser_after_setUser. reflexivity. Qed.

(** ** [isAuthenticated] and the stored token *)

Lemma token_nonempty_ext (b b' : Browser) :
  localStorage b' = localStorage b -> token_nonempty b -> token_nonempty b'.
Proof. unfold token_nonempty. intros ->. done. Qed.

Lemma cleared_token_nonempty (b : Browser) :
  session_cleared b -> token_nonempty b.
Proof. intros (H & _) t Ht. congruence. Qed.

Lemma stored_token_nonempty (b : Browser) (token : string) :
  localStorage b !! tokenKey = Some token -> truthy_string token = true ->
  token_nonempty b.
Proof. intros H Ht t Hl. congruence. Qed.

(** No operation stores an empty token. *)
Lemma perform_token_nonempty (op : operation) (b : Browser) :
  token_nonempty b -> token_nonempty (perform op b).
Proof.
  intros Hb. destruct op as [bk cr|bk|bk data|bk|meth path server]; simpl.
  - rewrite login_run.
    destruct (post_auth_login bk cr (bearer b)) as [res|err]; [|exact Hb].
    destruct (access_token res) as [token|]; [|exact Hb].
    destruct (truthy_string token) eqn:Htruthy; [|exact Hb].
    destruct (user res) as [u|].
    { apply (stored_token_nonempty _ token); [|done]. cbn [snd].
      by rewrite setUser_token, after_tokens_token. }
    rewrite getCurrentUser_run, after_tokens_token. cbn [truthy_opt].
    rewrite Htruthy, after_tokens_bearer by done.
    destruct (get_auth_me bk (Some ("Bearer " ++ token))) as [[u|]|err];
      cbn [snd].
    + apply (stored_token_nonempty _ token); [|done].
      rewrite setUser_token. cbn [log_request localStorage].
      apply after_tokens_token.
    + apply (stored_token_nonempty _ token); [|done].
      cbn [log_request localStorage]. apply after_tokens_token.
    + apply cleared_token_nonempty, clearAuth_cleared.
  - rewrite getCurrentUser_run.
    destruct (truthy_opt (localStorage b !! tokenKey)); [|exact Hb].
    destruct (get_auth_me bk (bearer b)) as [[u|]|err]; cbn [snd].
    + intros t. rewrite setUser_token. apply Hb.
    + exact Hb.
    + apply cleared_token_nonempty, clearAuth_cleared.
  - unfold register, try_catch, api_call, throw.
    by destruct (post_auth_register bk data (bearer b)).
  - rewrite logout_run. apply cleared_token_nonempty.
    apply (clearAuth_cleared (log_request "POST" "/auth/logout" b)).
  - unfold ApiClient.request.
    destruct (server (bearer b)) as [d|err]; [exact Hb|].
    unfold ApiClient.on_response_error, bind.
    destruct (ApiClient.is_unauthorized err); [|exact Hb].
    apply cleared_token_nonempty.
    apply (clearAuth_cleared (log_request meth path b)).
Qed.

(** The storage after a step of the client is the storage after an
    operation of the services, or the storage before. *)
Lemma step_storage (c c' : AuthProvider.Client) :
  AuthProvider.step c c' ->
  localStorage (AuthProvider.browser c') =
    localStorage (AuthProvider.browser c)
  \/ exists op,
       localStorage (AuthProvider.browser c') =
       localStorage (perform op (AuthProvider.browser c)).
Proof.
  intros Hstep. destruct Hstep as [c|bk c|bk cr c|bk data c|bk c|c|m p sv c].
  - by left.
  - right. exists (OpGetCurrentUser bk). unfold AuthProvider.checkAuth. simpl.
    by destruct (getCurrentUser bk (AuthProvider.browser c)) as [[cu|e] b'].
  - right. exists (OpLogin bk cr). unfold AuthProvider.login. simpl.
    by destruct (login bk cr (AuthProvider.browser c)) as [[u|e] b'].
  - right. exists (OpRegister bk data). unfold AuthProvider.register. simpl.
    by destruct (register bk data (AuthProvider.browser c)) as [[u|e] b'].
  - right. exists (OpLogout bk). unfold AuthProvider.logout. simpl.
    by destruct (logout bk (AuthProvider.browser c)) as [[u|e] b'].
  - by left.
  - right. by exists (OpRequest m p sv).
Qed.

(** At every reachable state of the client the stored token, if any, is
    not empty. *)
Lemma reachable_token_nonempty (c : AuthProvider.Client) :
  AuthProvider.reachable c -> token_nonempty (AuthProvider.browser c).
Proof.
  unfold AuthProvider.reachable. revert c.
  apply (rtc_ind_r (fun c => token_nonempty (AuthProvider.browser c))).
  - intros t Ht. simpl in Ht. by rewrite lookup_empty in Ht.
  - intros c1 c2 Hrtc Hstep IH.
    destruct (step_storage _ _ Hstep) as [Heq|[op Heq]].
    + by apply (token_nonempty_ext _ _ Heq).
    + apply (token_nonempty_ext _ _ Heq). by apply perform_token_nonempty.
Qed.

(** C7, as the code has it.  [isAuthenticated()] of the auth service
    returns true exactly when [getToken()] returns a string that is not
    empty; at every reachable state of the client a stored token is not
    empty, so there it returns true exactly when an access token is
    present in the session store, that is when [getToken()] is not null.
    The [isAuthenticated] flag of the auth provider is a different
    predicate: it holds exactly when the provider holds a user. *)
Theorem isAuthenticated_iff_token :
  (forall b : Browser,
     isAuthenticated b = (Returned (truthy_opt (localStorage b !! tokenKey)), b)
     /\ getToken b = (Returned (localStorage b !! tokenKey), b))
  /\ (forall c : AuthProvider.Client,
     AuthProvider.reachable c ->
     (fst (isAuthenticated (AuthProvider.browser c)) = Returned true <->
      is_Some (localStorage (AuthProvider.browser c) !! tokenKey))
     /\ (fst (isAuthenticated (AuthProvider.browser c)) = Returned true <->
         exists token,
           fst (getToken (AuthProvider.browser c)) = Returned (Some token)))
  /\ (forall c : AuthProvider.Client,
     AuthProvider.isAuthenticated (AuthProvider.provider c) = true <->
     is_Some (AuthProvider.user (AuthProvider.provider c))).
Proof.
  split_and!.
  - intros b. split; reflexivity.
  - intros c Hreach. pose proof (reachable_token_nonempty c Hreach) as Hne.
    unfold isAuthenticated, bind, getToken, getItem, ret. simpl.
    destruct (localStorage (AuthProvider.browser c) !! tokenKey) as [t|] eqn:E.
    + simpl. rewrite (Hne t E). split; split; eauto.
    + simpl. split; split; try discriminate.
      * by intros [t Ht].
      * intros [t Ht]. discriminate.
  - intros c. unfold AuthProvider.isAuthenticated.
    destruct (AuthProvider.user (AuthProvider.provider c)).
    + split; eauto.
    + split; [discriminate|]. by intros [u Hu].
Qed.

Lemma client_logged_in_reachable : AuthProvider.reachable client_logged_in.
Proof.
  unfold AuthProvider.reachable, client_logged_in.
  eapply rtc_l; [|apply rtc_refl]. apply AuthProvider.step_login.
Qed.

Lemma isAuthenticated_iff_token_witness :
  AuthProvider.reachable client_logged_in
  /\ fst (isAuthenticated (AuthProvider.browser client_logged_in))
     = Returned true
  /\ is_Some (localStorage (AuthProvider.browser client_logged_in) !! tokenKey).
Proof.
  destruct isAuthenticated_iff_token as (_ & Hreach & _).
  destruct (Hreach client_logged_in client_logged_in_reachable) as [Hiff _].
  split; [exact client_logged_in_reachable|].
  split; [reflexivity|]. exact (proj1 Hiff eq_refl).
Defined.

(** C7, as stated, fails for the flag of the auth provider, in both
    directions.  After a login and a new page load the token is stored
    and the flag is false; after a login and a 401 answer to a call
    through the HTTP client the token is gone and the flag is still
    true.  Both states are reachable. *)
Lemma provider_flag_differs_from_token :
  (AuthProvider.reachable client_reloaded
   /\ localStorage (AuthProvider.browser client_reloaded) !! tokenKey
      = Some "tok-1"
   /\ AuthProvider.isAuthenticated (AuthProvider.provider client_reloaded)
      = false)
  /\ (AuthProvider.reachable client_after_401
      /\ localStorage (AuthProvider.browser client_after_401) !! tokenKey
         = None
      /\ AuthProvider.isAuthenticated (AuthProvider.provider client_after_401)
         = true).
Proof.
  assert (Hlogin : AuthProvider.reachable client_logged_in).
  { unfold AuthProvider.reachable, client_logged_in.
    eapply rtc_l; [|apply rtc_refl]. apply AuthProvider.step_login. }
  split; (split; [|split; reflexivity]).
  - unfold AuthProvider.reachable, client_reloaded in *.
    eapply rtc_r; [exact Hlogin|]. apply AuthProvider.step_reload.
  - unfold AuthProvider.reachable, client_after_401 in *.
    eapply rtc_r; [exact Hlogin|]. apply AuthProvider.step_api_request.
Qed.

End AuthProps.

(* ===================================================================== *)
(** * More properties of the reducer                                      *)
(* ===================================================================== *)

Module InventoryExtraProps.
Import Inventory InventoryExtra.

Lemma replace_by_id_idempotent (p : InventoryItem) (l : list InventoryItem) :
  replace_by_id p (replace_by_id p l) = replace_by_id p l.
Proof.
  unfold replace_by_id. rewrite map_map. apply map_ext. intros x.
  destruct (String.eqb (id x) (id p)) eqn:E.
  - by rewrite String.eqb_refl.
  - by rewrite E.
Qed.

Lemma remove_by_id_idempotent (k : string) (l : list InventoryItem) :
  remove_by_id k (remove_by_id k l) = remove_by_id k l.
Proof.
  unfold remove_by_id. induction l as [|x l IH]; [done|]. simpl.
  destruct (String.eqb (id x) k) eqn:E; simpl; [done|].
  by rewrite E, IH.
Qed.

Lemma spread_idempotent (a b : gmap string prop_value) :
  spread (spread a b) b = spread a b.
Proof. unfold spread. by rewrite (assoc_L (∪)), (idemp_L (∪)). Qed.

(** X1. Dispatching the same action twice in a row gives the state of
    dispatching it once, for every action except ADD_ITEM; ADD_ITEM
    dispatched twice prepends its payload twice. *)
Theorem reducer_idempotent_except_add :
  (forall (s : InventoryState) (a : InventoryAction),
     is_add_item a = false ->
     inventoryReducer (inventoryReducer s a) a = inventoryReducer s a)
  /\ (forall (s : InventoryState) (p : InventoryItem),
     items (inventoryReducer (inventoryReducer s (ADD_ITEM p)) (ADD_ITEM p))
     = p :: p :: items s).
Proof.
  split; [|reflexivity].
  intros s a Ha. destruct a; try discriminate; simpl; try reflexivity.
  - unfold with_items. simpl. by rewrite replace_by_id_idempotent.
  - unfold with_items. simpl. by rewrite remove_by_id_idempotent.
  - by rewrite spread_idempotent.
  - by rewrite spread_idempotent.
Qed.

Lemma reducer_idempotent_except_add_witness :
  is_add_item (UPDATE_ITEM (sample_item "b" "Kaos Polo" 99)) = false
  /\ inventoryReducer
       (inventoryReducer sample_state
          (UPDATE_ITEM (sample_item "b" "Kaos Polo" 99)))
       (UPDATE_ITEM (sample_item "b" "Kaos Polo" 99))
     = inventoryReducer sample_state
         (UPDATE_ITEM (sample_item "b" "Kaos Polo" 99)).
Proof.
  split; [reflexivity|].
  exact (proj1 reducer_idempotent_except_add sample_state
           (UPDATE_ITEM (sample_item "b" "Kaos Polo" 99)) eq_refl).
Defined.

Lemma elem_of_remove_by_id (k : string) (l : list InventoryItem)
  (item : InventoryItem) :
  item ∈ remove_by_id k l <-> item ∈ l /\ id item <> k.
Proof.
  unfold remove_by_id. rewrite !list_elem_of_In, filter_In.
  rewrite negb_true_iff, String.eqb_neq. reflexivity.
Qed.

(** X2. DELETE_ITEM removes every item with the given id, duplicates
    included, and nothing else: afterwards the id occurs nowhere, an item
    is in the list exactly when it was there with another id, and the
    items kept are in their previous order. *)
Theorem delete_item_removes_every_match (s : InventoryState) (k : string) :
  (k ∉ ids (items (inventoryReducer s (DELETE_ITEM k))))
  /\ (forall item : InventoryItem,
        item ∈ items (inventoryReducer s (DELETE_ITEM k)) <->
        item ∈ items s /\ id item <> k)
  /\ items (inventoryReducer s (DELETE_ITEM k)) `sublist_of` items s
  /\ length (items (inventoryReducer s (DELETE_ITEM k))) <= length (items s).
Proof.
  simpl. split_and!.
  - unfold ids. rewrite list_elem_of_fmap. intros (item & -> & Hin).
    apply elem_of_remove_by_id in Hin as [_ Hne]. done.
  - intros item. apply elem_of_remove_by_id.
  - unfold remove_by_id. induction (items s) as [|x l IH]; [done|]. simpl.
    destruct (negb (String.eqb (id x) k)).
    + by apply sublist_skip.
    + by apply sublist_cons.
  - unfold remove_by_id. apply filter_length_le.
Qed.

(** X3. Adding an item and then deleting its id gives back the items
    there were, when no item had that id; in general it gives the
    previous items without those of that id. *)
Theorem add_then_delete (s : InventoryState) (p : InventoryItem) :
  items (dispatch_all s [ADD_ITEM p; DELETE_ITEM (id p)])
  = remove_by_id (id p) (items s)
  /\ (id p ∉ ids (items s) ->
      items (dispatch_all s [ADD_ITEM p; DELETE_ITEM (id p)]) = items s).
Proof.
  assert (H : items (dispatch_all s [ADD_ITEM p; DELETE_ITEM (id p)])
              = remove_by_id (id p) (items s)).
  { simpl. unfold remove_by_id. simpl. by rewrite String.eqb_refl. }
  split; [exact H|]. intros Hfresh. rewrite H.
  by apply InventoryProps.remove_by_id_absent.
Qed.

Lemma add_then_delete_witness :
  (id (sample_item "c" "Pensil" 7) ∉ ids (items sample_state))
  /\ items (dispatch_all sample_state
              [ADD_ITEM (sample_item "c" "Pensil" 7);
               DELETE_ITEM (id (sample_item "c" "Pensil" 7))])
     = items sample_state.
Proof.
  assert (H : id (sample_item "c" "Pensil" 7) ∉ ids (items sample_state))
    by compute_done.
  split; [exact H|].
  exact (proj2 (add_then_delete sample_state (sample_item "c" "Pensil" 7)) H).
Defined.

(** X4. UPDATE_ITEM keeps the ids of the items, their order and their
    number; afterwards the payload is in the list exactly when its id
    was, and the items of other ids are the ones there were. *)
Theorem update_item_effect (s : InventoryState) (p : InventoryItem) :
  ids (items (inventoryReducer s (UPDATE_ITEM p))) = ids (items s)
  /\ length (items (inventoryReducer s (UPDATE_ITEM p))) = length (items s)
  /\ (p ∈ items (inventoryReducer s (UPDATE_ITEM p)) <-> id p ∈ ids (items s))
  /\ (forall item : InventoryItem,
        id item <> id p ->
        item ∈ items (inventoryReducer s (UPDATE_ITEM p)) <-> item ∈ items s).
Proof.
  simpl. split_and!.
  - apply InventoryProps.ids_replace_by_id.
  - unfold replace_by_id. apply length_map.
  - unfold replace_by_id, ids. rewrite !list_elem_of_fmap. split.
    + intros (x & Hx & Hin).
      destruct (String.eqb (id x) (id p)) eqn:E.
      * apply String.eqb_eq in E. exists x. by rewrite E.
      * subst x. by exists p.
    + intros (x & Hx & Hin). exists x. split; [|done].
      by rewrite <- Hx, String.eqb_refl.
  - intros item Hne. unfold replace_by_id. rewrite list_elem_of_fmap. split.
    + intros (x & Hx & Hin).
      destruct (String.eqb (id x) (id p)) eqn:E; [by subst item|by subst x].
    + intros Hin. exists item. split; [|done].
      apply String.eqb_neq in Hne. by rewrite Hne.
Qed.

Lemma update_item_effect_witness :
  id (sample_item "a" "Laptop" 15) <> id (sample_item "b" "Kaos Polo" 99)
  /\ (sample_item "a" "Laptop" 15
        ∈ items (inventoryReducer sample_state
                   (UPDATE_ITEM (sample_item "b" "Kaos Polo" 99)))
      <-> sample_item "a" "Laptop" 15 ∈ items sample_state).
Proof.
  assert (H : id (sample_item "a" "Laptop" 15)
              <> id (sample_item "b" "Kaos Polo" 99)) by discriminate.
  split; [exact H|].
  destruct (update_item_effect sample_state (sample_item "b" "Kaos Polo" 99))
    as (_ & _ & _ & Hother).
  exact (Hother (sample_item "a" "Laptop" 15) H).
Defined.

(** X5. Only FETCH_SUCCESS, ADD_ITEM, UPDATE_ITEM and DELETE_ITEM change
    the items: any sequence of other actions leaves them as they were.
    Likewise only FETCH_SUCCESS and SET_PAGINATION change the pagination
    and only SET_FILTERS changes the filters. *)
Theorem state_fields_change_only_by_their_actions
  (s : InventoryState) (actions : list InventoryAction) :
  (Forall (fun a => assigns_items a = false) actions ->
   items (dispatch_all s actions) = items s)
  /\ (Forall (fun a => assigns_pagination a = false) actions ->
      pagination (dispatch_all s actions) = pagination s)
  /\ (Forall (fun a => assigns_filters a = false) actions ->
      filters (dispatch_all s actions) = filters s).
Proof.
  unfold dispatch_all. revert s.
  induction actions as [|a actions IH]; intros s; [done|]. simpl.
  destruct (IH (inventoryReducer s a)) as (IHi & IHp & IHf).
  split_and!; intros [Ha Hall]%Forall_cons.
  - rewrite IHi by done. by destruct a.
  - rewrite IHp by done. by destruct a.
  - rewrite IHf by done. by destruct a.
Qed.

Lemma state_fields_change_only_by_their_actions_witness :
  Forall (fun a => assigns_items a = false)
    [FETCH_START; SET_FILTERS {["search" := VStr "x"]}; FETCH_FAILURE "Gagal"]
  /\ items (dispatch_all sample_state
              [FETCH_START; SET_FILTERS {["search" := VStr "x"]};
               FETCH_FAILURE "Gagal"])
     = items sample_state.
Proof.
  assert (H : Forall (fun a => assigns_items a = false)
                [FETCH_START; SET_FILTERS {["search" := VStr "x"]};
                 FETCH_FAILURE "Gagal"]) by (repeat constructor).
  split; [exact H|].
  exact (proj1 (state_fields_change_only_by_their_actions sample_state _) H).
Defined.

End InventoryExtraProps.

(* ===================================================================== *)
(** * More properties of the auth service                                 *)
(* ===================================================================== *)

Module AuthExtraProps.
Import Json Auth Session Samples AuthRoles SessionExtra.

(** ** Strings and their code units *)

Lemma codes_eqb_eq (a b : list N) : codes_eqb a b = true <-> a = b.
Proof.
  revert b. induction a as [|x a IH]; intros [|y b]; simpl; try done.
  rewrite andb_true_iff, N.eqb_eq, IH. split.
  - by intros [-> ->].
  - by intros [= -> ->].
Qed.

Lemma js_inj (a b : string) : js a = js b -> a = b.
Proof.
  unfold js. intros H.
  assert (Hl : list_ascii_of_string a = list_ascii_of_string b).
  { revert H. generalize (list_ascii_of_string a) (list_ascii_of_string b).
    intros l. induction l as [|c l IH]; intros [|d m]; simpl; try done.
    intros [= Hc Hm]. f_equal; [|by apply IH].
    unfold code in Hc.
    by rewrite <- (ascii_N_embedding c), <- (ascii_N_embedding d), Hc. }
  by rewrite <- (string_of_list_ascii_of_string a),
             <- (string_of_list_ascii_of_string b), Hl.
Qed.

Lemma codes_eqb_js (a b : string) :
  codes_eqb (js a) (js b) = String.eqb a b.
Proof.
  destruct (String.eqb a b) eqn:E.
  - apply String.eqb_eq in E. subst. by apply codes_eqb_eq.
  - apply String.eqb_neq in E. apply not_true_is_false.
    intros H%codes_eqb_eq%js_inj. done.
Qed.

(** ** The cached user, as the role predicates read it *)

Lemma getUser_of_stored_user (u : User) (b : Browser) :
  localStorage b !! userKey = Some (JSON_stringify u) ->
  getUser b = (Returned (object_json (user_fields u)), b).
Proof.
  intros H. unfold getUser, bind, getItem. cbn [fst snd]. rewrite H.
  assert (Htruthy : truthy_string (JSON_stringify u) = true) by reflexivity.
  rewrite Htruthy, UserJsonProps.JSON_parse_stringify. reflexivity.
Qed.

Lemma role_of_user (u : User) :
  role_of (object_json (user_fields u))
  = Some (JStr (js (role_name (role u)))).
Proof.
  destruct u as [i n e f r w a v c up l].
  destruct w, v, c, up, l; reflexivity.
Qed.

Lemma hasRole_of_stored_user (u : User) (b : Browser) (r : string) :
  localStorage b !! userKey = Some (JSON_stringify u) ->
  hasRole r b = (Returned (String.eqb (role_name (role u)) r), b).
Proof.
  intros H. unfold hasRole, bind, ret.
  rewrite (getUser_of_stored_user u b H), role_of_user. simpl.
  by rewrite codes_eqb_js.
Qed.

Lemma hasAnyRole_of_stored_user (u : User) (b : Browser) (rs : list string) :
  localStorage b !! userKey = Some (JSON_stringify u) ->
  hasAnyRole rs b
  = (Returned (existsb (String.eqb (role_name (role u))) rs), b).
Proof.
  intros H. unfold hasAnyRole, bind, ret.
  rewrite (getUser_of_stored_user u b H), role_of_user.
  cbn [truthy object_json]. do 2 f_equal.
  induction rs as [|r rs IH]; [done|]. simpl.
  by rewrite codes_eqb_js, IH.
Qed.

(** X6. With no cached user (nothing, or the empty string, under the
    user key) [hasRole] and [hasAnyRole] return false for every role and
    every list of roles, and leave the browser as it is. *)
Theorem role_predicates_without_user
  (b : Browser) (r : string) (rs : list string) :
  truthy_opt (localStorage b !! userKey) = false ->
  hasRole r b = (Returned false, b)
  /\ hasAnyRole rs b = (Returned false, b).
Proof.
  intros H. unfold hasRole, hasAnyRole, getUser, bind, getItem, ret.
  cbn [fst snd]. destruct (localStorage b !! userKey) as [str|]; simpl in *.
  - rewrite H. by split.
  - by split.
Qed.

Lemma role_predicates_without_user_witness :
  truthy_opt (localStorage empty_browser !! userKey) = false
  /\ hasRole "gudang" empty_browser = (Returned false, empty_browser)
  /\ hasAnyRole ["super_admin"; "gudang"] empty_browser
     = (Returned false, empty_browser).
Proof.
  split; [reflexivity|].
  exact (role_predicates_without_user empty_browser "gudang"
           ["super_admin"; "gudang"] eq_refl).
Defined.

(** X7. After [login] has returned a user, [hasRole] holds exactly for
    the name of that user's role, and [hasAnyRole] exactly for the lists
    that contain it; neither throws nor changes the browser. *)
Theorem role_predicates_after_login
  (backend : Backend) (credentials : LoginCredentials) (b : Browser)
  (u : User) (r : string) (rs : list string) :
  fst (login backend credentials b) = Returned u ->
  hasRole r (snd (login backend credentials b))
  = (Returned (String.eqb (role_name (role u)) r),
     snd (login backend credentials b))
  /\ hasAnyRole rs (snd (login backend credentials b))
     = (Returned (existsb (String.eqb (role_name (role u))) rs),
        snd (login backend credentials b)).
Proof.
  intros H.
  destruct (proj1 (AuthProps.login_outcomes backend credentials b) u H)
    as (token & _ & _ & Huser).
  split.
  - by apply hasRole_of_stored_user.
  - by apply hasAnyRole_of_stored_user.
Qed.

Lemma role_predicates_after_login_witness :
  fst (login backend_inline_user credentials empty_browser) = Returned staff
  /\ fst (hasRole "gudang"
            (snd (login backend_inline_user credentials empty_browser)))
     = Returned true
  /\ fst (hasRole "super_admin"
            (snd (login backend_inline_user credentials empty_browser)))
     = Returned false
  /\ fst (hasAnyRole ["super_admin"; "gudang"]
            (snd (login backend_inline_user credentials empty_browser)))
     = Returned true.
Proof.
  assert (H : fst (login backend_inline_user credentials empty_browser)
              = Returned staff) by reflexivity.
  split; [exact H|].
  pose proof (role_predicates_after_login backend_inline_user credentials
                empty_browser staff "gudang" ["super_admin"; "gudang"] H)
    as [H1 H2].
  pose proof (role_predicates_after_login backend_inline_user credentials
                empty_browser staff "super_admin" [] H) as [H3 _].
  split; [by rewrite H1|]. split; [by rewrite H3|]. by rewrite H2.
Defined.

Lemma is_string_truthy (v : value) (r : string) :
  is_string (role_of v) r = true -> truthy v = true.
Proof. destruct v; simpl; try discriminate. done. Qed.

(** X8. [hasAnyRole] agrees with [hasRole]: it returns true for a list of
    roles exactly when [hasRole] returns true for one role of the list. *)
Theorem hasAnyRole_iff_some_hasRole (rs : list string) (b : Browser) :
  fst (hasAnyRole rs b) = Returned true <->
  exists r, r ∈ rs /\ fst (hasRole r b) = Returned true.
Proof.
  unfold hasAnyRole, hasRole, bind, ret.
  destruct (getUser b) as [[v|e] b']; cbn [fst].
  - split.
    + intros [= H]. destruct (truthy v); [|discriminate].
      apply existsb_exists in H as (r & Hin & Hr).
      exists r. split; [by apply list_elem_of_In|by rewrite Hr].
    + intros (r & Hin & [= Hr]). f_equal.
      rewrite (is_string_truthy v r Hr).
      apply existsb_exists. exists r. split; [by apply list_elem_of_In|done].
  - split; [discriminate|]. by intros (r & _ & H).
Qed.

(** ** Consistency of the stored session *)

Lemma consistent_ext (b b' : Browser) :
  localStorage b' = localStorage b ->
  session_consistent b -> session_consistent b'.
Proof. unfold session_consistent. by intros ->. Qed.

Lemma consistent_cleared (b : Browser) :
  session_cleared b -> session_consistent b.
Proof.
  intros (Ht & Hr & Hu). unfold session_consistent. rewrite Hr, Hu.
  split_and!; [by intros [? ?]|by intros [? ?]|discriminate].
Qed.

Lemma consistent_with_token (b : Browser) :
  is_Some (localStorage b !! tokenKey) ->
  (forall blob, localStorage b !! userKey = Some blob ->
     exists u : User, blob = JSON_stringify u) ->
  session_consistent b.
Proof. intros Ht Hu. by split_and!. Qed.

Lemma after_tokens_user (res : AuthResponse) (token : string) (b : Browser) :
  localStorage (after_tokens res token b) !! userKey
  = localStorage b !! userKey.
Proof.
  unfold after_tokens, store_refresh_token.
  destruct (refresh_token res) as [r|]; [destruct (truthy_string r)|]; simpl.
  all: by rewrite !lookup_insert_ne by discriminate.
Qed.

Lemma after_tokens_refresh (res : AuthResponse) (token : string) (b : Browser) :
  localStorage (after_tokens res token b) !! refreshKey
  = if truthy_opt (refresh_token res) then refresh_token res
    else localStorage b !! refreshKey.
Proof.
  unfold after_tokens, store_refresh_token.
  destruct (refresh_token res) as [r|]; [destruct (truthy_string r) eqn:E|];
    simpl; rewrite ?E.
  - by rewrite lookup_insert_eq.
  - by rewrite lookup_insert_ne by discriminate.
  - by rewrite lookup_insert_ne by discriminate.
Qed.

Lemma setUser_consistent (u : User) (b : Browser) :
  is_Some (localStorage b !! tokenKey) ->
  session_consistent (snd (setUser u b)).
Proof.
  intros Ht. apply consistent_with_token.
  - by rewrite AuthProps.setUser_token.
  - intros blob. simpl. rewrite lookup_insert_eq. intros [= <-]. by exists u.
Qed.

(** No operation of the services breaks the consistency. *)
Lemma perform_consistent (op : operation) (b : Browser) :
  session_consistent b -> session_consistent (perform op b).
Proof.
  intros Hb. destruct op as [bk cr|bk|bk data|bk|meth path server]; simpl.
  - rewrite AuthProps.login_run.
    destruct (post_auth_login bk cr (bearer b)) as [res|err]; [|exact Hb].
    destruct (access_token res) as [token|]; [|exact Hb].
    destruct (truthy_string token) eqn:Htruthy; [|exact Hb].
    assert (Htok : is_Some (localStorage (after_tokens res token b) !! tokenKey))
      by (rewrite AuthProps.after_tokens_token; eauto).
    assert (Hblob : forall blob,
              localStorage (after_tokens res token b) !! userKey = Some blob ->
              exists u : User, blob = JSON_stringify u).
    { intros blob. rewrite after_tokens_user. apply Hb. }
    destruct (user res) as [u|]; [by apply setUser_consistent|].
    rewrite AuthProps.getCurrentUser_run, AuthProps.after_tokens_token.
    cbn [truthy_opt]. rewrite Htruthy.
    destruct (get_auth_me bk (bearer (after_tokens res token b)))
      as [[u|]|err]; cbn [snd].
    + by apply setUser_consistent.
    + by apply consistent_with_token.
    + apply consistent_cleared, AuthProps.clearAuth_cleared.
  - rewrite AuthProps.getCurrentUser_run.
    destruct (localStorage b !! tokenKey) as [t|] eqn:Ht; [|exact Hb].
    cbn [truthy_opt]. destruct (truthy_string t); [|exact Hb].
    destruct (get_auth_me bk (bearer b)) as [[u|]|err]; cbn [snd].
    + apply setUser_consistent. simpl. rewrite Ht. eauto.
    + exact Hb.
    + apply consistent_cleared, AuthProps.clearAuth_cleared.
  - unfold register, try_catch, api_call, throw.
    by destruct (post_auth_register bk data (bearer b)).
  - rewrite AuthProps.logout_run. apply consistent_cleared.
    apply (AuthProps.clearAuth_cleared (log_request "POST" "/auth/logout" b)).
  - unfold ApiClient.request.
    destruct (server (bearer b)) as [d|err]; [exact Hb|].
    unfold ApiClient.on_response_error, bind.
    destruct (ApiClient.is_unauthorized err); [|exact Hb].
    apply consistent_cleared.
    apply (AuthProps.clearAuth_cleared (log_request meth path b)).
Qed.

Lemma reachable_consistent (c : AuthProvider.Client) :
  AuthProvider.reachable c -> session_consistent (AuthProvider.browser c).
Proof.
  unfold AuthProvider.reachable. revert c.
  apply (rtc_ind_r (fun c => session_consistent (AuthProvider.browser c))).
  - unfold session_consistent, AuthProvider.initial_client.
    cbn [AuthProvider.browser localStorage]. rewrite !lookup_empty.
    split_and!; [by intros [? ?]|by intros [? ?]|discriminate].
  - intros c1 c2 Hrtc Hstep IH.
    destruct (AuthProps.step_storage _ _ Hstep) as [Heq|[op Heq]].
    + by apply (consistent_ext _ _ Heq).
    + apply (consistent_ext _ _ Heq). by apply perform_consistent.
Qed.



(** X10. At every reachable state of the client [getUser] does not
    throw: it returns null, or the object of the properties of a user;
    so [hasRole] and [hasAnyRole] do not throw either. *)
Theorem reachable_getUser_never_throws (c : AuthProvider.Client) :
  AuthProvider.reachable c ->
  (getUser (AuthProvider.browser c) = (Returned JNull, AuthProvider.browser c)
   \/ exists u : User,
        getUser (AuthProvider.browser c)
        = (Returned (object_json (user_fields u)), AuthProvider.browser c))
  /\ (forall r, exists res,
        hasRole r (AuthProvider.browser c)
        = (Returned res, AuthProvider.browser c))
  /\ (forall rs, exists res,
        hasAnyRole rs (AuthProvider.browser c)
        = (Returned res, AuthProvider.browser c)).
Proof.
  intros Hreach.
  destruct (reachable_consistent c Hreach) as (_ & _ & Hblob).
  set (b := AuthProvider.browser c) in *.
  destruct (localStorage b !! userKey) as [blob|] eqn:E.
  - destruct (Hblob blob eq_refl) as [u ->]. split_and!.
    + right. exists u. by apply getUser_of_stored_user.
    + intros r. eexists. by apply (hasRole_of_stored_user u).
    + intros rs. eexists. by apply (hasAnyRole_of_stored_user u).
  - assert (Hnull : getUser b = (Returned JNull, b)).
    { unfold getUser, bind, getItem. cbn [fst snd]. by rewrite E. }
    split_and!.
    + by left.
    + intros r. exists false. unfold hasRole, bind. by rewrite Hnull.
    + intros rs. exists false. unfold hasAnyRole, bind. by rewrite Hnull.
Qed.

Lemma reachable_getUser_never_throws_witness :
  AuthProvider.reachable client_logged_in
  /\ fst (getUser (AuthProvider.browser client_logged_in))
     = Returned (object_json (user_fields staff)).
Proof.
  split; [exact AuthProps.client_logged_in_reachable|].
  destruct (reachable_getUser_never_throws client_logged_in
              AuthProps.client_logged_in_reachable) as ([H|[u H]] & _ & _).
  - discriminate H.
  - reflexivity.
Defined.

(** ** Registration, login with an inline user, the profile fetch *)

(** X11. [register] does not log in: it sends one request, leaves the
    stored session and the location as they were, returns normally when
    the request is fulfilled and rethrows the error of axios, unchanged,
    when it is rejected. *)
Theorem register_leaves_session
  (backend : Backend) (data : RegisterPayload) (b : Browser) :
  localStorage (snd (register backend data b)) = localStorage b
  /\ location_href (snd (register backend data b)) = location_href b
  /\ requests (snd (register backend data b))
     = {| method := "POST"; url := "/auth/register";
          authorization := bearer b |} :: requests b
  /\ match post_auth_register backend data (bearer b) with
     | Fulfilled _ => fst (register backend data b) = Returned tt
     | Rejected error =>
         fst (register backend data b) = Thrown (AxiosFailure error)
     end.
Proof.
  unfold register, try_catch, api_call, throw.
  destruct (post_auth_register backend data (bearer b)) as [[]|err];
    split_and!; reflexivity.
Qed.

Lemma after_tokens_log (res : AuthResponse) (token : string) (b : Browser) :
  requests (after_tokens res token b)
  = {| method := "POST"; url := "/auth/login"; authorization := bearer b |}
    :: requests b
  /\ location_href (after_tokens res token b) = location_href b.
Proof.
  unfold after_tokens, store_refresh_token.
  destruct (refresh_token res) as [r|]; [destruct (truthy_string r)|];
    split; reflexivity.
Qed.

(** X12. When the login answer carries a non-empty access token and the
    user, [login] returns that user after this one request: the token and
    the user are stored, the refresh token is stored when the answer has
    a non-empty one and is otherwise left as it was (an older one stays),
    and the location is not touched. *)
Theorem login_with_inline_user
  (backend : Backend) (credentials : LoginCredentials) (b : Browser)
  (res : AuthResponse) (token : string) (u : User) :
  post_auth_login backend credentials (bearer b) = Fulfilled res ->
  access_token res = Some token ->
  truthy_string token = true ->
  user res = Some u ->
  fst (login backend credentials b) = Returned u
  /\ localStorage (snd (login backend credentials b)) !! tokenKey = Some token
  /\ localStorage (snd (login backend credentials b)) !! userKey
     = Some (JSON_stringify u)
  /\ localStorage (snd (login backend credentials b)) !! refreshKey
     = (if truthy_opt (refresh_token res) then refresh_token res
        else localStorage b !! refreshKey)
  /\ requests (snd (login backend credentials b))
     = {| method := "POST"; url := "/auth/login"; authorization := bearer b |}
       :: requests b
  /\ location_href (snd (login backend credentials b)) = location_href b.
Proof.
  intros Hpost Htok Htruthy Huser.
  rewrite AuthProps.login_run, Hpost, Htok, Htruthy, Huser. cbn [fst snd].
  destruct (after_tokens_log res token b) as [Hreq Hloc].
  split_and!; [done| | | |exact Hreq|exact Hloc].
  - by rewrite AuthProps.setUser_token, AuthProps.after_tokens_token.
  - simpl. apply lookup_insert_eq.
  - simpl. rewrite lookup_insert_ne by discriminate.
    apply after_tokens_refresh.
Qed.

Lemma login_with_inline_user_witness :
  post_auth_login backend_inline_user credentials (bearer logged_in_browser)
  = Fulfilled (inline_answer "tok-1" (Some "ref-1") staff)
  /\ truthy_string "tok-1" = true
  /\ fst (login backend_inline_user credentials logged_in_browser)
     = Returned staff
  /\ requests (snd (login backend_inline_user credentials logged_in_browser))
     = [ {| method := "POST"; url := "/auth/login";
            authorization := Some "Bearer tok-1" |} ].
Proof.
  pose proof (login_with_inline_user backend_inline_user credentials
                logged_in_browser (inline_answer "tok-1" (Some "ref-1") staff)
                "tok-1" staff eq_refl eq_refl eq_refl eq_refl)
    as (H1 & _ & _ & _ & H5 & _).
  split; [reflexivity|]. split; [reflexivity|]. split; [exact H1|exact H5].
Defined.

Lemma bearer_of_token (b : Browser) (token : string) :
  localStorage b !! tokenKey = Some token -> truthy_string token = true ->
  bearer b = Some ("Bearer " ++ token).
Proof.
  intros H Ht. unfold bearer. change "inventory_token" with tokenKey.
  by rewrite H, Ht.
Qed.

(** X13. With a non-empty token cached, a fulfilled profile fetch that
    carries a user makes [getCurrentUser] return that user and cache it,
    after one request that bears the token; the token and the refresh
    token stay as they were.  A fulfilled fetch with an empty body makes
    it return null with the storage unchanged. *)
Theorem getCurrentUser_fulfilled
  (backend : Backend) (b : Browser) (token : string) :
  localStorage b !! tokenKey = Some token ->
  truthy_string token = true ->
  requests (snd (getCurrentUser backend b))
  = {| method := "GET"; url := "/auth/me";
       authorization := Some ("Bearer " ++ token) |} :: requests b
  /\ (forall u : User,
        get_auth_me backend (Some ("Bearer " ++ token)) = Fulfilled (Some u) ->
        fst (getCurrentUser backend b) = Returned (Some u)
        /\ localStorage (snd (getCurrentUser backend b))
           = <[userKey := JSON_stringify u]> (localStorage b))
  /\ (get_auth_me backend (Some ("Bearer " ++ token)) = Fulfilled None ->
        fst (getCurrentUser backend b) = Returned None
        /\ localStorage (snd (getCurrentUser backend b)) = localStorage b).
Proof.
  intros Htok Htruthy.
  pose proof (bearer_of_token b token Htok Htruthy) as Hbearer.
  rewrite AuthProps.getCurrentUser_run, Htok. cbn [truthy_opt].
  rewrite Htruthy, Hbearer. split_and!.
  - destruct (get_auth_me backend (Some ("Bearer " ++ token))) as [[u|]|err];
      cbn [snd]; unfold log_request; simpl; by rewrite Hbearer.
  - intros u ->. by split.
  - intros ->. by split.
Qed.

Lemma getCurrentUser_fulfilled_witness :
  localStorage logged_in_browser !! tokenKey = Some "tok-1"
  /\ truthy_string "tok-1" = true
  /\ get_auth_me backend_inline_user (Some ("Bearer " ++ "tok-1"))
     = Fulfilled (Some staff)
  /\ fst (getCurrentUser backend_inline_user logged_in_browser)
     = Returned (Some staff).
Proof.
  destruct (getCurrentUser_fulfilled backend_inline_user logged_in_browser
              "tok-1" eq_refl eq_refl) as (_ & Hsome & _).
  split; [reflexivity|]. split; [reflexivity|]. split; [reflexivity|].
  exact (proj1 (Hsome staff eq_refl)).
Defined.

(** ** The header of the next request *)

(** X14. Every call through the HTTP client sends exactly one request,
    whatever the answer, and the request bears the token stored at that
    moment.  So the call that follows a successful login bears the token
    of that login, and the call that follows a logout, or a call answered
    with status 401, has no Authorization header. *)
Theorem next_request_header (meth path : string)
  (server : option string -> reply value) :
  (forall b : Browser,
     requests (snd (ApiClient.request meth path server b))
     = {| method := meth; url := path; authorization := bearer b |}
       :: requests b)
  /\ (forall (backend : Backend) (credentials : LoginCredentials)
        (b : Browser) (u : User),
        fst (login backend credentials b) = Returned u ->
        exists token,
          localStorage (snd (login backend credentials b)) !! tokenKey
          = Some token
          /\ bearer (snd (login backend credentials b))
             = Some ("Bearer " ++ token))
  /\ (forall (backend : Backend) (b : Browser),
        bearer (snd (logout backend b)) = None)
  /\ (forall (b : Browser) (error : AxiosError),
        server (bearer b) = Rejected error ->
        ApiClient.is_unauthorized error = true ->
        bearer (snd (ApiClient.request meth path server b)) = None).
Proof.
  assert (Hcleared : forall b, session_cleared b -> bearer b = None).
  { intros b (Ht & _). unfold bearer. change "inventory_token" with tokenKey.
    by rewrite Ht. }
  split_and!.
  - intros b. unfold ApiClient.request.
    destruct (server (bearer b)) as [d|err]; [reflexivity|].
    unfold ApiClient.on_response_error, bind.
    by destruct (ApiClient.is_unauthorized err).
  - intros backend credentials b u H.
    destruct (proj1 (AuthProps.login_outcomes backend credentials b) u H)
      as (token & Htok & Htruthy & _).
    exists token. split; [done|]. by apply bearer_of_token.
  - intros backend b. apply Hcleared. rewrite AuthProps.logout_run.
    apply (AuthProps.clearAuth_cleared (log_request "POST" "/auth/logout" b)).
  - intros b error Hreply Hu. apply Hcleared.
    unfold ApiClient.request. rewrite Hreply.
    unfold ApiClient.on_response_error, bind. rewrite Hu.
    apply (AuthProps.clearAuth_cleared (log_request meth path b)).
Qed.

Lemma next_request_header_witness :
  fst (login backend_inline_user credentials empty_browser) = Returned staff
  /\ bearer (snd (login backend_inline_user credentials empty_browser))
     = Some "Bearer tok-1"
  /\ server_401 (bearer logged_in_browser) = Rejected (http_error 401 JNull)
  /\ ApiClient.is_unauthorized (http_error 401 JNull) = true
  /\ bearer (snd (ApiClient.request "GET" "/inventory" server_401
                    logged_in_browser)) = None.
Proof.
  destruct (next_request_header "GET" "/inventory" server_401)
    as (_ & Hlogin & _ & H401).
  split; [reflexivity|]. split.
  - destruct (Hlogin backend_inline_user credentials empty_browser staff
                eq_refl) as (token & Htok & Hb).
    rewrite Hb. injection Htok as <-. reflexivity.
  - split; [reflexivity|]. split; [reflexivity|].
    exact (H401 logged_in_browser (http_error 401 JNull) eq_refl eq_refl).
Defined.

(** A fulfilled call through the HTTP client returns the data of the
    response and leaves the stored session and the location as they
    were. *)
Lemma request_fulfilled (meth path : string)
  (server : option string -> reply value) (b : Browser) (data : value) :
  server (bearer b) = Fulfilled data ->
  fst (ApiClient.request meth path server b) = Returned data
  /\ localStorage (snd (ApiClient.request meth path server b)) = localStorage b
  /\ location_href (snd (ApiClient.request meth path server b))
     = location_href b.
Proof.
  intros H. unfold ApiClient.request. rewrite H. split_and!; reflexivity.
Qed.

(** ** The requests of a login *)

Lemma login_requests_eq
  (backend : Backend) (credentials : LoginCredentials) (b : Browser) :
  requests (snd (login backend credentials b))
  = (followup_request (post_auth_login backend credentials (bearer b))
     ++ {| method := "POST"; url := "/auth/login"; authorization := bearer b |}
        :: requests b)%list.
Proof.
  rewrite AuthProps.login_run. unfold followup_request.
  destruct (post_auth_login backend credentials (bearer b)) as [res|err];
    [|reflexivity].
  destruct (access_token res) as [token|]; [|reflexivity].
  destruct (truthy_string token) eqn:Htruthy; [|by destruct (user res)].
  destruct (after_tokens_log res token b) as [Hreq _].
  destruct (user res) as [u|]; [exact Hreq|].
  rewrite AuthProps.getCurrentUser_run, AuthProps.after_tokens_token.
  cbn [truthy_opt]. rewrite Htruthy, AuthProps.after_tokens_bearer by done.
  destruct (get_auth_me backend (Some ("Bearer " ++ token))) as [[u|]|err];
    cbn [snd]; simpl; rewrite Hreq;
    by rewrite AuthProps.after_tokens_bearer.
Qed.

(** X20. [login] sends the POST to /auth/login and then at most one more
    request: the GET of /auth/me, bearing the new token, exactly when the
    answer has a non-empty access token and no user.  It never sends
    anything else, whatever the answers are. *)
Theorem login_requests
  (backend : Backend) (credentials : LoginCredentials) (b : Browser) :
  requests (snd (login backend credentials b))
  = (followup_request (post_auth_login backend credentials (bearer b))
     ++ {| method := "POST"; url := "/auth/login"; authorization := bearer b |}
        :: requests b)%list
  /\ length (requests (snd (login backend credentials b)))
     <= 2 + length (requests b).
Proof.
  split; [apply login_requests_eq|].
  rewrite login_requests_eq, length_app. simpl.
  unfold followup_request.
  destruct (post_auth_login backend credentials (bearer b)) as [res|err];
    [|simpl; lia].
  destruct (access_token res) as [token|], (user res) as [u|]; simpl; try lia.
  destruct (truthy_string token); simpl; lia.
Qed.

End AuthExtraProps.

(* ===================================================================== *)
(** * More properties of the auth provider                                *)
(* ===================================================================== *)

Module AuthProviderProps.
Import Json Auth Session Samples SessionExtra.
Import AuthProvider.

Lemma message_or_nonempty (fallback : string) (e : exn) :
  truthy_string fallback = true ->
  truthy_string (message_or fallback e) = true.
Proof.
  intros Hf. destruct e as [msg|a| |d]; simpl; try done.
  - by destruct (truthy_string msg) eqn:E.
  - by destruct (truthy_string (Auth.message a)) eqn:E.
Qed.

(** X15. [login] of the provider follows the service.  When the service
    returns a user, the provider holds that user, is authenticated, shows
    no error and is no longer loading, and the location is set to the
    dashboard of the user's role.  When the service throws, the provider
    rethrows the same error, keeps the user it held, is no longer
    loading, shows a non-empty error message, and sets no location. *)
Theorem provider_login_follows_service
  (backend : Backend) (credentials : LoginCredentials) (c : Client) :
  (forall u : User,
     fst (Auth.login backend credentials (browser c)) = Returned u ->
     fst (login backend credentials c) = Returned tt
     /\ provider (snd (login backend credentials c))
        = {| user := Some u; isLoading := false; error := None |}
     /\ isAuthenticated (provider (snd (login backend credentials c))) = true
     /\ location_href (browser (snd (login backend credentials c)))
        = dashboard (role u)
          :: location_href (snd (Auth.login backend credentials (browser c)))
     /\ localStorage (browser (snd (login backend credentials c)))
        = localStorage (snd (Auth.login backend credentials (browser c))))
  /\ (forall e : exn,
     fst (Auth.login backend credentials (browser c)) = Thrown e ->
     fst (login backend credentials c) = Thrown e
     /\ user (provider (snd (login backend credentials c)))
        = user (provider c)
     /\ isLoading (provider (snd (login backend credentials c))) = false
     /\ (exists msg,
           error (provider (snd (login backend credentials c))) = Some msg
           /\ truthy_string msg = true)
     /\ browser (snd (login backend credentials c))
        = snd (Auth.login backend credentials (browser c))).
Proof.
  unfold login.
  destruct (Auth.login backend credentials (browser c)) as [[u|e] b'];
    cbn [fst snd]; split.
  - intros u' [= <-]. split_and!; reflexivity.
  - discriminate.
  - discriminate.
  - intros e' [= <-]. split_and!; try reflexivity.
    eexists. split; [reflexivity|]. by apply message_or_nonempty.
Qed.

Lemma provider_login_follows_service_witness :
  fst (Auth.login backend_inline_user credentials (browser initial_client))
  = Returned staff
  /\ provider (snd (login backend_inline_user credentials initial_client))
     = {| user := Some staff; isLoading := false; error := None |}
  /\ location_href
       (browser (snd (login backend_inline_user credentials initial_client)))
     = ["/dashboard/gudang"]
  /\ fst (Auth.login backend_rejecting credentials (browser initial_client))
     = Thrown (AxiosFailure (http_error 401 JNull))
  /\ fst (login backend_rejecting credentials initial_client)
     = Thrown (AxiosFailure (http_error 401 JNull)).
Proof.
  destruct (provider_login_follows_service backend_inline_user credentials
              initial_client) as [Hok _].
  destruct (provider_login_follows_service backend_rejecting credentials
              initial_client) as [_ Hbad].
  destruct (Hok staff eq_refl) as (_ & H2 & _ & H4 & _).
  destruct (Hbad (AxiosFailure (http_error 401 JNull)) eq_refl) as (H5 & _).
  split; [reflexivity|]. split; [exact H2|]. split; [exact H4|].
  split; [reflexivity|exact H5].
Defined.

(** X16. [logout] of the provider always returns normally; afterwards the
    provider holds no user, is not authenticated and shows no error, the
    stored session is cleared and the location is the login view. *)
Theorem provider_logout_resets (backend : Backend) (c : Client) :
  fst (logout backend c) = Returned tt
  /\ user (provider (snd (logout backend c))) = None
  /\ isAuthenticated (provider (snd (logout backend c))) = false
  /\ error (provider (snd (logout backend c))) = None
  /\ session_cleared (browser (snd (logout backend c)))
  /\ location_href (browser (snd (logout backend c)))
     = "/login" :: location_href (browser c).
Proof.
  unfold logout. rewrite AuthProps.logout_run. cbn [fst snd].
  split_and!; try reflexivity.
  apply (AuthProps.clearAuth_cleared
           (log_request "POST" "/auth/logout" (browser c))).
Qed.

(** X17. Recovery of the session when the page is loaded: after
    [checkAuth] the provider is no longer loading.  With no token stored
    it holds no user and no request was sent.  With a token stored, it
    holds the user of a fulfilled profile fetch and is authenticated; if
    the fetch is rejected it holds no user and the session is cleared. *)
Theorem checkAuth_after_reload (backend : Backend) (c : Client) :
  isLoading (provider (checkAuth backend (reload c))) = false
  /\ (truthy_opt (localStorage (browser c) !! tokenKey) = false ->
      user (provider (checkAuth backend (reload c))) = None
      /\ browser (checkAuth backend (reload c)) = browser c)
  /\ (forall token : string,
      localStorage (browser c) !! tokenKey = Some token ->
      truthy_string token = true ->
      match get_auth_me backend (Some ("Bearer " ++ token)) with
      | Fulfilled (Some u) =>
          user (provider (checkAuth backend (reload c))) = Some u
          /\ isAuthenticated (provider (checkAuth backend (reload c))) = true
          /\ localStorage (browser (checkAuth backend (reload c))) !! tokenKey
             = Some token
      | Fulfilled None =>
          user (provider (checkAuth backend (reload c))) = None
          /\ localStorage (browser (checkAuth backend (reload c)))
             = localStorage (browser c)
      | Rejected _ =>
          user (provider (checkAuth backend (reload c))) = None
          /\ session_cleared (browser (checkAuth backend (reload c)))
      end).
Proof.
  unfold checkAuth, reload. cbn [browser provider].
  rewrite AuthProps.getCurrentUser_run. split_and!.
  - destruct (truthy_opt (localStorage (browser c) !! tokenKey));
      [|reflexivity].
    by destruct (get_auth_me backend (bearer (browser c))) as [[u|]|err].
  - intros ->. by split.
  - intros token Htok Htruthy. rewrite Htok. cbn [truthy_opt].
    rewrite Htruthy.
    rewrite (AuthExtraProps.bearer_of_token (browser c) token Htok Htruthy).
    destruct (get_auth_me backend (Some ("Bearer " ++ token))) as [[u|]|err];
      cbn [browser provider user].
    + split_and!; try reflexivity.
      by rewrite AuthProps.setUser_token.
    + by split.
    + split; [reflexivity|].
      apply (AuthProps.clearAuth_cleared
               (log_request "GET" "/auth/me" (browser c))).
Qed.

Lemma checkAuth_after_reload_witness :
  localStorage (browser client_logged_in) !! tokenKey = Some "tok-1"
  /\ truthy_string "tok-1" = true
  /\ user (provider (checkAuth backend_inline_user (reload client_logged_in)))
     = Some staff
  /\ session_cleared
       (browser (checkAuth backend_rejecting (reload client_logged_in))).
Proof.
  destruct (checkAuth_after_reload backend_inline_user client_logged_in)
    as (_ & _ & Hok).
  destruct (checkAuth_after_reload backend_rejecting client_logged_in)
    as (_ & _ & Hbad).
  split; [reflexivity|]. split; [reflexivity|].
  split.
  - exact (proj1 (Hok "tok-1" eq_refl eq_refl)).
  - exact (proj2 (Hbad "tok-1" eq_refl eq_refl)).
Defined.

End AuthProviderProps.

(* ===================================================================== *)
(** * Properties of the form validation and of the login form             *)
(* ===================================================================== *)

Module FormsProps.
Import Forms.

Lemma layer_if (c : bool) (k m : string) (e : FormErrors) :
  (if c then <[k := m]> e else e) = ∅ <-> c = false /\ e = ∅.
Proof.
  destruct c.
  - split; [intros H; by apply insert_non_empty in H|by intros [? _]].
  - by split; [|intros [_ ?]].
Qed.

Lemma layer_required {A} (o : option A) (bad : A -> bool) (k m1 m2 : string)
  (e : FormErrors) :
  match o with
  | None => <[k := m1]> e
  | Some x => if bad x then <[k := m2]> e else e
  end = ∅ <-> (exists x, o = Some x /\ bad x = false) /\ e = ∅.
Proof.
  destruct o as [x|].
  - rewrite layer_if. split.
    + intros [? ?]. eauto.
    + by intros [(x' & [= <-] & ?) ?].
  - split; [intros H; by apply insert_non_empty in H|].
    by intros [(x & ? & _) _].
Qed.

Lemma layer_required2 {A} (o : option A) (bad worse : A -> bool)
  (k m1 m2 m3 : string) (e : FormErrors) :
  match o with
  | None => <[k := m1]> e
  | Some x =>
      if bad x then <[k := m2]> e
      else if worse x then <[k := m3]> e else e
  end = ∅ <->
  (exists x, o = Some x /\ bad x = false /\ worse x = false) /\ e = ∅.
Proof.
  destruct o as [x|].
  - destruct (bad x) eqn:Eb.
    + split; [intros H; by apply insert_non_empty in H|].
      intros [(x' & [= <-] & ? & _) _]. congruence.
    + rewrite layer_if. split.
      * intros [? ?]. eauto 6.
      * intros [(x' & [= <-] & ? & ?) ?]. done.
  - split; [intros H; by apply insert_non_empty in H|].
    by intros [(x & ? & _) _].
Qed.

Lemma layer_optional2 {A} (o : option A) (bad worse : A -> bool)
  (k m2 m3 : string) (e : FormErrors) :
  match o with
  | Some x =>
      if bad x then <[k := m2]> e
      else if worse x then <[k := m3]> e else e
  | None => e
  end = ∅ <->
  (forall x, o = Some x -> bad x = false /\ worse x = false) /\ e = ∅.
Proof.
  destruct o as [x|].
  - destruct (bad x) eqn:Eb.
    + split; [intros H; by apply insert_non_empty in H|].
      intros [H _]. destruct (H x eq_refl). congruence.
    + rewrite layer_if. split.
      * intros [? ?]. split; [|done]. by intros x' [= <-].
      * intros [H ?]. destruct (H x eq_refl). done.
  - split; [|by intros [_ ?]]. intros ->. split; [|done]. by intros x [=].
Qed.

(** X18. [validateLoginForm] reports no error exactly when the username
    is not blank (not empty and not made of white space only) and the
    password has at least six characters. *)
Theorem validateLoginForm_accepts (values : Auth.LoginCredentials) :
  validateLoginForm values = ∅ <->
  blank (Auth.cred_username values) = false
  /\ 6 <= String.length (Auth.cred_password values).
Proof.
  unfold validateLoginForm. cbv zeta.
  destruct (Auth.truthy_string (Auth.cred_password values)) eqn:Ep; simpl.
  - rewrite layer_if, layer_if, Nat.ltb_ge. tauto.
  - unfold Auth.truthy_string in Ep. apply negb_false_iff, String.eqb_eq in Ep.
    rewrite Ep. simpl. split.
    + intros H. by apply insert_non_empty in H.
    + intros [_ H]. lia.
Qed.

Lemma has_errors_false (e : FormErrors) : has_errors e = false <-> e = ∅.
Proof.
  unfold has_errors. rewrite Nat.ltb_ge. rewrite <- map_size_empty_iff. lia.
Qed.

(** X19. [validateInventoryForm] reports no error exactly when: the name
    and the unit are not blank and a category is chosen; the stock and
    the minimum stock are given, are numbers and are not below zero; the
    maximum stock, if given, is a number, is not below zero and is not
    below the minimum stock; the buying price is given, is a number and
    is above zero; the selling price is given, is a number, is above zero
    and is not at or below the buying price. *)
Theorem validateInventoryForm_accepts (values : InventoryFormData) :
  validateInventoryForm values = ∅ <->
  blank (name values) = false
  /\ Auth.truthy_string (category_id values) = true
  /\ blank (unit values) = false
  /\ (exists x, current_stock values = Some x /\ nan_or_negative x = false)
  /\ (exists x, min_stock values = Some x /\ nan_or_negative x = false)
  /\ (forall x, max_stock values = Some x ->
        nan_or_negative x = false /\ lt_opt x (min_stock values) = false)
  /\ (exists x, buy_price values = Some x /\ nan_or_not_positive x = false)
  /\ (exists x, sell_price values = Some x
        /\ nan_or_not_positive x = false
        /\ le_opt x (buy_price values) = false).
Proof.
  unfold validateInventoryForm. cbv zeta.
  rewrite (layer_required2 (sell_price values) nan_or_not_positive
             (fun x => le_opt x (buy_price values))).
  rewrite (layer_required (buy_price values) nan_or_not_positive).
  rewrite (layer_optional2 (max_stock values) nan_or_negative
             (fun x => lt_opt x (min_stock values))).
  rewrite (layer_required (min_stock values) nan_or_negative).
  rewrite (layer_required (current_stock values) nan_or_negative).
  rewrite !layer_if, negb_false_iff. tauto.
Qed.

Lemma validateLoginForm_accepts_witness :
  blank (Auth.cred_username Samples.credentials) = false
  /\ 6 <= String.length (Auth.cred_password Samples.credentials)
  /\ validateLoginForm Samples.credentials = ∅.
Proof.
  assert (H1 : blank (Auth.cred_username Samples.credentials) = false)
    by reflexivity.
  assert (H2 : 6 <= String.length (Auth.cred_password Samples.credentials))
    by (simpl; lia).
  split; [exact H1|]. split; [exact H2|].
  exact (proj2 (validateLoginForm_accepts Samples.credentials) (conj H1 H2)).
Defined.

Lemma sample_form_conditions :
  blank (name sample_form) = false
  /\ Auth.truthy_string (category_id sample_form) = true
  /\ blank (unit sample_form) = false
  /\ (exists x, current_stock sample_form = Some x
        /\ nan_or_negative x = false)
  /\ (exists x, min_stock sample_form = Some x /\ nan_or_negative x = false)
  /\ (forall x, max_stock sample_form = Some x ->
        nan_or_negative x = false /\ lt_opt x (min_stock sample_form) = false)
  /\ (exists x, buy_price sample_form = Some x
        /\ nan_or_not_positive x = false)
  /\ (exists x, sell_price sample_form = Some x
        /\ nan_or_not_positive x = false
        /\ le_opt x (buy_price sample_form) = false).
Proof.
  split_and!; try reflexivity.
  - eexists. split; reflexivity.
  - eexists. split; reflexivity.
  - intros x [= <-]. split; reflexivity.
  - eexists. split; reflexivity.
  - eexists. split_and!; reflexivity.
Qed.

Lemma validateInventoryForm_accepts_witness :
  validateInventoryForm sample_form = ∅.
Proof.
  exact (proj2 (validateInventoryForm_accepts sample_form)
           sample_form_conditions).
Defined.

Lemma provider_login_requests (backend : Auth.Backend)
  (credentials : Auth.LoginCredentials) (c : AuthProvider.Client) :
  Auth.requests
    (AuthProvider.browser (snd (AuthProvider.login backend credentials c)))
  = Auth.requests
      (snd (Auth.login backend credentials (AuthProvider.browser c)))
  /\ Auth.localStorage
       (AuthProvider.browser (snd (AuthProvider.login backend credentials c)))
     = Auth.localStorage
         (snd (Auth.login backend credentials (AuthProvider.browser c))).
Proof.
  unfold AuthProvider.login.
  by destruct (Auth.login backend credentials (AuthProvider.browser c))
    as [[u|e] b'].
Qed.

(** X21. Submitting the login form sends a request exactly when the form
    is valid.  With a blank username or a password shorter than six
    characters the errors are set, the client is unchanged and nothing
    is sent.  Otherwise no errors are set and the requests of the login
    service are sent, the POST to /auth/login first; what the login
    throws is swallowed. *)
Theorem LoginForm_submit_sends_iff_valid (backend : Auth.Backend)
  (formData : Auth.LoginCredentials) (c : AuthProvider.Client) :
  (validateLoginForm formData <> ∅ ->
   LoginForm_handleSubmit backend formData c
   = (Some (validateLoginForm formData), c))
  /\ (validateLoginForm formData = ∅ ->
      fst (LoginForm_handleSubmit backend formData c) = None
      /\ Auth.requests
           (AuthProvider.browser (snd (LoginForm_handleSubmit backend formData c)))
         = (SessionExtra.followup_request
              (Auth.post_auth_login backend formData
                 (Auth.bearer (AuthProvider.browser c)))
            ++ {| Auth.method := "POST"; Auth.url := "/auth/login";
                  Auth.authorization := Auth.bearer (AuthProvider.browser c) |}
               :: Auth.requests (AuthProvider.browser c))%list).
Proof.
  unfold LoginForm_handleSubmit. split.
  - intros Hbad. destruct (has_errors (validateLoginForm formData)) eqn:E;
      [reflexivity|]. by apply has_errors_false in E.
  - intros Hok. apply has_errors_false in Hok. rewrite Hok. cbn [fst snd].
    split; [reflexivity|].
    rewrite (proj1 (provider_login_requests backend formData
                      (AuthProvider.clearError c))).
    apply AuthExtraProps.login_requests_eq.
Qed.

Lemma LoginForm_submit_sends_iff_valid_witness :
  validateLoginForm Samples.credentials = ∅
  /\ Auth.requests
       (AuthProvider.browser
          (snd (LoginForm_handleSubmit Samples.backend_inline_user
                  Samples.credentials AuthProvider.initial_client)))
     = [ {| Auth.method := "POST"; Auth.url := "/auth/login";
            Auth.authorization := None |} ]
  /\ validateLoginForm short_password <> ∅
  /\ LoginForm_handleSubmit Samples.backend_inline_user short_password
       AuthProvider.initial_client
     = (Some (validateLoginForm short_password), AuthProvider.initial_client).
Proof.
  assert (Hok : validateLoginForm Samples.credentials = ∅) by reflexivity.
  assert (Hbad : validateLoginForm short_password <> ∅).
  { intros H. apply (f_equal (fun m => m !! "password")) in H.
    vm_compute in H. discriminate. }
  split; [exact Hok|]. split.
  - exact (proj2 (proj2 (LoginForm_submit_sends_iff_valid
             Samples.backend_inline_user Samples.credentials
             AuthProvider.initial_client) Hok)).
  - split; [exact Hbad|].
    exact (proj1 (LoginForm_submit_sends_iff_valid
             Samples.backend_inline_user short_password
             AuthProvider.initial_client) Hbad).
Defined.

End FormsProps.

(* ===================================================================== *)
(** * Properties of the patterns and of the registration form            *)
(* ===================================================================== *)

Module RegexProps.
Import Regex.
Local Open Scope list_scope.

Lemma lang_empty (w : list ascii) : lang Empty w <-> False.
Proof. split; [inversion 1|done]. Qed.

Lemma lang_eps_iff (w : list ascii) : lang Eps w <-> w = [].
Proof. split; [by inversion 1|intros ->; constructor]. Qed.

Lemma lang_class_iff (p : ascii -> bool) (w : list ascii) :
  lang (Class p) w <-> exists c, w = [c] /\ p c = true.
Proof.
  split; [inversion 1; eauto|intros (c & -> & H); by constructor].
Qed.

Lemma lang_seq_iff (r1 r2 : regex) (w : list ascii) :
  lang (Seq r1 r2) w <-> exists a b, w = a ++ b /\ lang r1 a /\ lang r2 b.
Proof.
  split; [inversion 1; eauto|intros (a & b & -> & H1 & H2); by constructor].
Qed.

Lemma lang_alt_iff (r1 r2 : regex) (w : list ascii) :
  lang (Alt r1 r2) w <-> lang r1 w \/ lang r2 w.
Proof.
  split; [inversion 1; auto|intros [H|H]; by constructor].
Qed.

Lemma lang_star_iff (r : regex) (w : list ascii) :
  lang (Star r) w <->
  w = [] \/ exists a b, w = a ++ b /\ lang r a /\ lang (Star r) b.
Proof.
  split.
  - inversion 1; eauto 10.
  - intros [->|(a & b & -> & H1 & H2)]; by constructor.
Qed.

Lemma nullable_lang (r : regex) : nullable r = true <-> lang r [].
Proof.
  induction r as [| |p|r1 IH1 r2 IH2|r1 IH1 r2 IH2|r IH]; simpl.
  - by rewrite lang_empty.
  - by rewrite lang_eps_iff.
  - rewrite lang_class_iff. split; [done|]. by intros (c & ? & _).
  - rewrite andb_true_iff, IH1, IH2, lang_seq_iff. split.
    + intros [H1 H2]. by exists [], [].
    + intros (a & b & Heq & H1 & H2). symmetry in Heq.
      by apply app_eq_nil in Heq as [-> ->].
  - by rewrite orb_true_iff, IH1, IH2, lang_alt_iff.
  - split; [constructor|done].
Qed.

Lemma lang_seq_cons (c : ascii) (r1 r2 : regex) (s : list ascii) :
  lang (Seq r1 r2) (c :: s) <->
  (exists a b, s = a ++ b /\ lang r1 (c :: a) /\ lang r2 b)
  \/ (lang r1 [] /\ lang r2 (c :: s)).
Proof.
  rewrite lang_seq_iff. split.
  - intros (a & b & Heq & H1 & H2). destruct a as [|x a]; simpl in Heq.
    + right. by subst.
    + injection Heq as <- ->. left. eauto.
  - intros [(a & b & -> & H1 & H2)|[H1 H2]].
    + by exists (c :: a), b.
    + by exists [], (c :: s).
Qed.

Lemma deriv_lang (c : ascii) (r : regex) (s : list ascii) :
  lang (deriv c r) s <-> lang r (c :: s).
Proof.
  revert s.
  induction r as [| |p|r1 IH1 r2 IH2|r1 IH1 r2 IH2|r IH]; intros s; simpl.
  - by rewrite !lang_empty.
  - rewrite lang_empty, lang_eps_iff. done.
  - rewrite lang_class_iff. destruct (p c) eqn:E.
    + rewrite lang_eps_iff. split.
      * intros ->. eauto.
      * by intros (x & [= _ ->] & _).
    + rewrite lang_empty. split; [done|].
      intros (x & [= <- _] & H). congruence.
  - rewrite lang_seq_cons.
    assert (Hl : lang (Seq (deriv c r1) r2) s <->
                 exists a b, s = a ++ b /\ lang r1 (c :: a) /\ lang r2 b).
    { rewrite lang_seq_iff. split; intros (a & b & Heq & H1 & H2);
        exists a, b; (split; [done|]); (split; [by apply IH1|done]). }
    destruct (nullable r1) eqn:E.
    + rewrite lang_alt_iff, Hl, IH2. apply nullable_lang in E. tauto.
    + rewrite Hl. split; [tauto|]. intros [H|[H _]]; [done|].
      apply nullable_lang in H. congruence.
  - by rewrite !lang_alt_iff, IH1, IH2.
  - rewrite lang_seq_iff. split.
    + intros (a & b & -> & H1 & H2). apply IH in H1.
      by apply (lang_star_cons r (c :: a) b).
    + intros H. remember (Star r) as r' eqn:Er. remember (c :: s) as w eqn:Ew.
      revert s Ew.
      induction H as [| | | | | |r0 a b Ha _ Hb IHb]; intros s Ew;
        try discriminate.
      injection Er as ->.
      destruct a as [|x a]; simpl in Ew.
      * by apply IHb.
      * injection Ew as -> <-. exists a, b.
        split; [done|]. split; [by apply IH|done].
Qed.

Lemma matches_at_start_lang (r : regex) (s : list ascii) :
  matches_at_start r s = true <->
  exists w rest, s = w ++ rest /\ lang r w.
Proof.
  revert r. induction s as [|c s IH]; intros r; simpl.
  - rewrite orb_false_r, nullable_lang. split.
    + intros H. by exists [], [].
    + intros (w & rest & Heq & H). symmetry in Heq.
      apply app_eq_nil in Heq as [-> _]. done.
  - rewrite orb_true_iff, nullable_lang, IH. split.
    + intros [H|(w & rest & -> & H)].
      * by exists [], (c :: s).
      * exists (c :: w), rest. split; [done|]. by apply deriv_lang.
    + intros (w & rest & Heq & H). destruct w as [|x w]; simpl in Heq.
      * by left.
      * injection Heq as <- ->. right. exists w, rest.
        split; [done|]. by apply deriv_lang.
Qed.

Lemma search_lang (r : regex) (s : list ascii) :
  search r s = true <->
  exists before w rest, s = before ++ w ++ rest /\ lang r w.
Proof.
  induction s as [|c s IH]; cbn [search].
  - rewrite orb_false_r, matches_at_start_lang. split.
    + intros (w & rest & Heq & H). by exists [], w, rest.
    + intros (before & w & rest & Heq & H). symmetry in Heq.
      apply app_eq_nil in Heq as [-> Heq]. simpl. eauto.
  - rewrite orb_true_iff, matches_at_start_lang, IH. split.
    + intros [(w & rest & Heq & H)|(before & w & rest & -> & H)].
      * by exists [], w, rest.
      * by exists (c :: before), w, rest.
    + intros (before & w & rest & Heq & H).
      destruct before as [|x before]; simpl in Heq.
      * left. eauto.
      * injection Heq as <- ->. right. eauto.
Qed.

Lemma lang_star_class (p : ascii -> bool) (w : list ascii) :
  lang (Star (Class p)) w <-> forallb p w = true.
Proof.
  split.
  - intros H. remember (Star (Class p)) as r eqn:Er.
    induction H as [| | | | | |r0 a b Ha _ Hb IHb]; try discriminate; [done|].
    injection Er as ->. apply lang_class_iff in Ha as (c & -> & Hc). simpl.
    by rewrite IHb, Hc.
  - induction w as [|c w IH]; simpl; [constructor|].
    rewrite andb_true_iff. intros [Hc Hw].
    apply (lang_star_cons (Class p) [c] w); [by constructor|auto].
Qed.

Lemma lang_plus_class (p : ascii -> bool) (w : list ascii) :
  lang (Plus (Class p)) w <-> w <> [] /\ forallb p w = true.
Proof.
  unfold Plus. split.
  - rewrite lang_seq_iff. intros (a & b & -> & Ha & Hb).
    apply lang_class_iff in Ha as (c & -> & Hc).
    apply lang_star_class in Hb. simpl.
    split; [done|]. by rewrite Hc, Hb.
  - intros [Hne H]. destruct w as [|c w]; [done|]. simpl in H.
    apply andb_true_iff in H as [Hc Hw].
    apply (lang_seq (Class p) (Star (Class p)) [c] w);
      [by constructor|by apply lang_star_class].
Qed.

Lemma lang_chr (c : ascii) (w : list ascii) :
  lang (Chr c) w <-> w = [c].
Proof.
  unfold Chr. rewrite lang_class_iff. split.
  - intros (x & -> & H). by apply Ascii.eqb_eq in H as ->.
  - intros ->. exists c. split; [done|]. apply Ascii.eqb_refl.
Qed.

End RegexProps.

Module RegistrationProps.
Import Regex Forms Registration.
Local Open Scope list_scope.

Lemma layer_if2 (c1 c2 : bool) (k m1 m2 : string) (e : FormErrors) :
  (if c1 then <[k := m1]> e else if c2 then <[k := m2]> e else e) = ∅
  <-> c1 = false /\ c2 = false /\ e = ∅.
Proof.
  destruct c1, c2; (split; [intros H|intros (? & ? & ?)]); try done;
    by apply insert_non_empty in H.
Qed.

Lemma layer_if1 (c : bool) (k m : string) (e : FormErrors) :
  (if c then <[k := m]> e else e) = ∅ <-> c = false /\ e = ∅.
Proof.
  destruct c; (split; [intros H|intros (? & ?)]); try done;
    by apply insert_non_empty in H.
Qed.

Lemma truthy_string_length (s : string) :
  Auth.truthy_string s = true <-> 0 < String.length s.
Proof. destruct s; simpl; [split; [done|lia]|split; [lia|done]]. Qed.

Lemma lang_email_pattern (w : list ascii) :
  lang email_pattern w <->
  exists a b c,
    w = a ++ "@"%char :: b ++ "."%char :: c
    /\ (a <> [] /\ forallb not_space a = true)
    /\ (b <> [] /\ forallb not_space b = true)
    /\ (c <> [] /\ forallb not_space c = true).
Proof.
  unfold email_pattern. split.
  - intros H.
    apply RegexProps.lang_seq_iff in H as (a & w1 & -> & Ha & H).
    apply RegexProps.lang_seq_iff in H as (x & w2 & -> & Hx & H).
    apply RegexProps.lang_seq_iff in H as (b & w3 & -> & Hb & H).
    apply RegexProps.lang_seq_iff in H as (y & c & -> & Hy & Hc).
    apply RegexProps.lang_chr in Hx as ->.
    apply RegexProps.lang_chr in Hy as ->.
    apply RegexProps.lang_plus_class in Ha, Hb, Hc.
    exists a, b, c. split; [reflexivity|]. tauto.
  - intros (a & b & c & -> & Ha & Hb & Hc).
    apply RegexProps.lang_plus_class in Ha, Hb, Hc.
    apply lang_seq; [done|].
    apply (lang_seq _ _ ["@"%char]); [by apply RegexProps.lang_chr|].
    apply lang_seq; [done|].
    apply (lang_seq _ _ ["."%char]); [by apply RegexProps.lang_chr|done].
Qed.

(** X22. The e-mail pattern accepts a text exactly when somewhere in
    it a character that is not white space is followed by an at sign, one
    or more characters that are not white space, a dot and one more
    character that is not white space.  Nothing else is asked of the
    text: what stands before and after is free. *)
Theorem email_pattern_test (s : string) :
  test email_pattern s = true <->
  exists before x domain y rest,
    list_ascii_of_string s
    = before ++ x :: "@"%char :: domain ++ "."%char :: y :: rest
    /\ not_space x = true
    /\ domain <> [] /\ forallb not_space domain = true
    /\ not_space y = true.
Proof.
  unfold test. rewrite RegexProps.search_lang.
  setoid_rewrite lang_email_pattern. split.
  - intros (before & w & rest & Heq & a & b & c & -> & [Ha Hsa] & [Hb Hsb]
            & [Hc Hsc]).
    destruct (exists_last Ha) as (a' & x & ->).
    destruct c as [|y c']; [done|].
    rewrite forallb_app in Hsa. simpl in Hsa, Hsc.
    apply andb_true_iff in Hsa as [_ Hx]. rewrite andb_true_r in Hx.
    apply andb_true_iff in Hsc as [Hy _].
    exists (before ++ a'), x, b, y, (c' ++ rest). split_and!; try done.
    rewrite Heq. by rewrite <- !app_assoc; simpl; rewrite <- !app_assoc.
  - intros (before & x & domain & y & rest & Heq & Hx & Hd & Hsd & Hy).
    exists before, (x :: "@"%char :: domain ++ "."%char :: [y]), rest.
    split.
    + rewrite Heq. simpl. by rewrite <- app_assoc.
    + exists [x], domain, [y]. simpl. rewrite Hx, Hy. by split_and!.
Qed.

Lemma email_pattern_test_witness :
  test email_pattern "staff@gudang.com" = true.
Proof.
  apply (proj2 (email_pattern_test "staff@gudang.com")).
  exists (list_ascii_of_string "staf"), "f"%char,
    (list_ascii_of_string "gudang"), "c"%char, (list_ascii_of_string "om").
  by split_and!.
Defined.

Lemma accepted_role (values : RegisterData) :
  validateRegisterForm values = ∅ -> is_Some (role values).
Proof.
  unfold validateRegisterForm. cbv zeta.
  destruct (role values); [eauto|]. intros H. by apply insert_non_empty in H.
Qed.

(** X23. [validateRegisterForm] reports no error exactly when the name
    is not empty, the username has at least three characters, the e-mail
    address passes the pattern, the password has at least six characters,
    the confirmation is equal to the password and a role is chosen. *)
Theorem validateRegisterForm_accepts (values : RegisterData) :
  validateRegisterForm values = ∅ <->
  full_name values <> ""
  /\ 3 <= String.length (username values)
  /\ test email_pattern (email values) = true
  /\ 6 <= String.length (password values)
  /\ confirmPassword values = password values
  /\ is_Some (role values).
Proof.
  unfold validateRegisterForm. cbv zeta.
  assert (Hrole : forall e : FormErrors,
    match role values with
    | Some _ => e
    | None => <["role" := "Role wajib dipilih"]> e
    end = ∅ <-> is_Some (role values) /\ e = ∅).
  { intros e. destruct (role values).
    - split; [eauto|by intros [_ ?]].
    - split; [intros H; by apply insert_non_empty in H|].
      by intros [[? [=]] _]. }
  rewrite Hrole, !layer_if2, layer_if1, !negb_false_iff, !Nat.ltb_ge,
    !truthy_string_length, String.eqb_eq.
  assert (Hname : 0 < String.length (full_name values)
                  <-> full_name values <> "").
  { destruct (full_name values); simpl; [split; [lia|done]|].
    split; [done|lia]. }
  assert (Hmail : test email_pattern (email values) = true ->
                  0 < String.length (email values)).
  { destruct (email values); simpl; [done|lia]. }
  rewrite Hname. split.
  - intros (? & (? & ? & ? & ? & ? & ? & ? & ? & ? & _)). by split_and!.
  - intros (? & ? & ? & ? & Hc & ?).
    split_and!;
      first [done | lia | by apply Hmail | rewrite Hc; lia | by symmetry].
Qed.

Lemma validateRegisterForm_accepts_witness :
  validateRegisterForm sample_registration = ∅.
Proof.
  apply (proj2 (validateRegisterForm_accepts sample_registration)).
  split_and!; first [done | simpl; lia | by eexists].
Defined.

Lemma provider_register_run (backend : Auth.Backend)
  (data : Auth.RegisterPayload) (c : AuthProvider.Client) :
  Auth.localStorage
    (AuthProvider.browser (snd (AuthProvider.register backend data c)))
  = Auth.localStorage (AuthProvider.browser c)
  /\ Auth.requests
       (AuthProvider.browser (snd (AuthProvider.register backend data c)))
     = {| Auth.method := "POST"; Auth.url := "/auth/register";
          Auth.authorization := Auth.bearer (AuthProvider.browser c) |}
       :: Auth.requests (AuthProvider.browser c)
  /\ AuthProvider.user (AuthProvider.provider
                          (snd (AuthProvider.register backend data c)))
     = AuthProvider.user (AuthProvider.provider c)
  /\ match Auth.post_auth_register backend data
              (Auth.bearer (AuthProvider.browser c)) with
     | Auth.Fulfilled _ =>
         fst (AuthProvider.register backend data c) = Auth.Returned tt
     | Auth.Rejected error =>
         fst (AuthProvider.register backend data c)
         = Auth.Thrown (Auth.AxiosFailure error)
     end.
Proof.
  unfold AuthProvider.register, Auth.register, Auth.try_catch, Auth.api_call,
    Auth.throw.
  destruct (Auth.post_auth_register backend data
              (Auth.bearer (AuthProvider.browser c))) as [[]|err];
    split_and!; reflexivity.
Qed.

(** X24. Submitting the registration form sends a request exactly when
    the form is valid.  With errors they are shown, the client is
    unchanged and nothing is sent.  Without errors one POST to
    /auth/register is sent; the stored session and the user of the
    provider stay as they were, so registering never logs in; and the
    form goes to the login page exactly when the request was fulfilled. *)
Theorem RegisterForm_submit (backend : Auth.Backend)
  (formData : RegisterData) (c : AuthProvider.Client) :
  (validateRegisterForm formData <> ∅ ->
   RegisterForm_handleSubmit backend formData c
   = ({| shown_errors := Some (validateRegisterForm formData);
         to_login := false |}, c))
  /\ (validateRegisterForm formData = ∅ ->
      exists r,
        role formData = Some r
        /\ shown_errors (fst (RegisterForm_handleSubmit backend formData c))
           = None
        /\ Auth.requests
             (AuthProvider.browser
                (snd (RegisterForm_handleSubmit backend formData c)))
           = {| Auth.method := "POST"; Auth.url := "/auth/register";
                Auth.authorization := Auth.bearer (AuthProvider.browser c) |}
             :: Auth.requests (AuthProvider.browser c)
        /\ Auth.localStorage
             (AuthProvider.browser
                (snd (RegisterForm_handleSubmit backend formData c)))
           = Auth.localStorage (AuthProvider.browser c)
        /\ AuthProvider.user
             (AuthProvider.provider
                (snd (RegisterForm_handleSubmit backend formData c)))
           = AuthProvider.user (AuthProvider.provider c)
        /\ (to_login (fst (RegisterForm_handleSubmit backend formData c))
            = true
            <-> exists u,
                  Auth.post_auth_register backend (dataToSubmit formData r)
                    (Auth.bearer (AuthProvider.browser c))
                  = Auth.Fulfilled u)).
Proof.
  unfold RegisterForm_handleSubmit. split.
  - intros Hbad. destruct (has_errors (validateRegisterForm formData)) eqn:E;
      [reflexivity|]. by apply FormsProps.has_errors_false in E.
  - intros Hok.
    assert (Hrole : is_Some (role formData)).
    { by apply accepted_role. }
    destruct Hrole as [r Hr]. exists r. split; [done|].
    apply FormsProps.has_errors_false in Hok. rewrite Hok, Hr.
    destruct (provider_register_run backend (dataToSubmit formData r)
                (AuthProvider.clearError c)) as (Hs & Hq & Hu & Hres).
    cbn [AuthProvider.clearError AuthProvider.browser AuthProvider.provider
         AuthProvider.user] in Hs, Hq, Hu, Hres.
    destruct (AuthProvider.register backend (dataToSubmit formData r)
                (AuthProvider.clearError c)) as [[[]|e] c'] eqn:Ereg;
      cbn [fst snd shown_errors to_login] in *;
      (split_and!; [done..|]).
    + split; [intros _|done].
      destruct (Auth.post_auth_register backend (dataToSubmit formData r)
                  (Auth.bearer (AuthProvider.browser c))) as [u|err];
        [eauto|discriminate].
    + split; [done|]. intros [u Hu']. rewrite Hu' in Hres. discriminate.
Qed.

Lemma RegisterForm_submit_witness :
  validateRegisterForm sample_registration = ∅
  /\ to_login (fst (RegisterForm_handleSubmit backend_registering
                      sample_registration AuthProvider.initial_client))
     = true
  /\ validateRegisterForm registration_without_domain <> ∅
  /\ RegisterForm_handleSubmit backend_registering
       registration_without_domain AuthProvider.initial_client
     = ({| shown_errors :=
             Some (validateRegisterForm registration_without_domain);
           to_login := false |}, AuthProvider.initial_client).
Proof.
  assert (Hok : validateRegisterForm sample_registration = ∅)
    by (vm_compute; reflexivity).
  assert (Hbad : validateRegisterForm registration_without_domain <> ∅).
  { intros H. apply (f_equal (fun m => m !! "email")) in H.
    vm_compute in H. discriminate. }
  split; [exact Hok|]. split.
  - destruct (proj2 (RegisterForm_submit backend_registering
                       sample_registration AuthProvider.initial_client) Hok)
      as (r & Hr & _ & _ & _ & _ & Hnav).
    apply Hnav. injection Hr as <-. by exists tt.
  - split; [exact Hbad|].
    exact (proj1 (RegisterForm_submit backend_registering
                    registration_without_domain AuthProvider.initial_client)
             Hbad).
Defined.

End RegistrationProps.

(* ===================================================================== *)
(** * Properties of the inventory form                                   *)
(* ===================================================================== *)

Module InventoryFormProps.
Import PrimFloat Forms InventoryFormSubmit.

(** X25. The inventory form goes on to save exactly when the validation
    of its data accepts them, except for the maximum stock: a maximum stock of
    zero (or NaN) is taken as not given, so it is not compared with the
    minimum stock, and only a maximum stock other than zero has to be at
    least zero and at least the minimum stock. *)
Theorem InventoryForm_passes_validation (formData : InventoryFormData) :
  refused formData = false <->
  blank (name formData) = false
  /\ Auth.truthy_string (category_id formData) = true
  /\ blank (unit formData) = false
  /\ (exists x, current_stock formData = Some x /\ nan_or_negative x = false)
  /\ (exists x, min_stock formData = Some x /\ nan_or_negative x = false)
  /\ (forall x, max_stock formData = Some x -> truthy_number x = true ->
        nan_or_negative x = false /\ lt_opt x (min_stock formData) = false)
  /\ (exists x, buy_price formData = Some x /\ nan_or_not_positive x = false)
  /\ (exists x, sell_price formData = Some x
        /\ nan_or_not_positive x = false
        /\ le_opt x (buy_price formData) = false).
Proof.
  unfold refused. rewrite FormsProps.has_errors_false.
  unfold validateInventoryForm. cbv zeta.
  cbn [validationData name category_id current_stock min_stock max_stock
       buy_price sell_price unit].
  rewrite (FormsProps.layer_required2 (sell_price formData)
             nan_or_not_positive (fun x => le_opt x (buy_price formData))).
  rewrite (FormsProps.layer_required (buy_price formData) nan_or_not_positive).
  rewrite (FormsProps.layer_optional2 _ nan_or_negative
             (fun x => lt_opt x (min_stock formData))).
  rewrite (FormsProps.layer_required (min_stock formData) nan_or_negative).
  rewrite (FormsProps.layer_required (current_stock formData) nan_or_negative).
  rewrite !FormsProps.layer_if, negb_false_iff.
  assert (Hmax :
    (forall x,
       match max_stock formData with
       | Some x0 => if truthy_number x0 then Some x0 else None
       | None => None
       end = Some x ->
       nan_or_negative x = false /\ lt_opt x (min_stock formData) = false)
    <-> (forall x, max_stock formData = Some x -> truthy_number x = true ->
           nan_or_negative x = false
           /\ lt_opt x (min_stock formData) = false)).
  { destruct (max_stock formData) as [x0|]; [|by split; intros _ x [=]].
    destruct (truthy_number x0) eqn:E.
    - split; intros H x [= <-]; auto.
    - split; [|by intros _ x [=]].
      intros _ x [= <-]. congruence. }
  rewrite Hmax. tauto.
Qed.

Lemma InventoryForm_passes_validation_witness :
  refused zero_max_form = false
  /\ validateInventoryForm zero_max_form !! "max_stock"
     = Some "Stok maksimum harus lebih besar dari stok minimum".
Proof.
  split; [|reflexivity].
  apply (proj2 (InventoryForm_passes_validation zero_max_form)).
  split_and!; try reflexivity.
  - eexists. split; reflexivity.
  - eexists. split; reflexivity.
  - intros x [= <-]. discriminate.
  - eexists. split; reflexivity.
  - eexists. split_and!; reflexivity.
Defined.

End InventoryFormProps.

(* ===================================================================== *)
(** * Properties of the protected routes                                 *)
(* ===================================================================== *)

Module RoutingProps.
Import Auth AuthProvider Routing.

(** X26. What a protected route renders follows the provider, and never
    the [roles] it is given.  When the page is loaded it shows the
    loading view until [checkAuth] has completed; then it renders its
    children exactly when a token is stored and the profile fetch is
    fulfilled with a user, and redirects to /login otherwise.  After a
    login that returned a user it renders its children, whatever the role
    of the user; after a logout it does not render them. *)
Theorem protected_route_rendering (backend : Backend)
  (credentials : LoginCredentials) (c : Client)
  (roles : option (list string)) :
  ProtectedRoute roles (provider (reload c)) = ShowLoading
  /\ ProtectedRoute roles (provider (checkAuth backend (reload c)))
     = (if truthy_opt (localStorage (browser c) !! tokenKey)
        then match get_auth_me backend (bearer (browser c)) with
             | Fulfilled (Some _) => Children
             | _ => NavigateTo "/login"
             end
        else NavigateTo "/login")
  /\ (forall u : User,
        fst (Auth.login backend credentials (browser c)) = Returned u ->
        ProtectedRoute roles (provider (snd (login backend credentials c)))
        = Children)
  /\ ProtectedRoute roles (provider (snd (logout backend c))) <> Children.
Proof.
  split_and!.
  - reflexivity.
  - unfold checkAuth, reload. cbn [browser provider].
    rewrite AuthProps.getCurrentUser_run.
    destruct (truthy_opt (localStorage (browser c) !! tokenKey));
      [|reflexivity].
    by destruct (get_auth_me backend (bearer (browser c))) as [[u|]|err].
  - intros u Hu. unfold login.
    destruct (Auth.login backend credentials (browser c)) as [[u'|e] b'];
      [reflexivity|discriminate].
  - unfold logout. rewrite AuthProps.logout_run. cbn [fst snd provider].
    unfold ProtectedRoute. cbn [AuthProvider.isLoading isAuthenticated
      AuthProvider.user]. by destruct (AuthProvider.isLoading (provider c)).
Qed.

Lemma protected_route_rendering_witness :
  fst (Auth.login backend_cashier Samples.credentials
         (browser initial_client)) = Returned cashier
  /\ ProtectedRoute inventory_roles
       (provider (snd (login backend_cashier Samples.credentials
                         initial_client)))
     = Children.
Proof.
  assert (H : fst (Auth.login backend_cashier Samples.credentials
                     (browser initial_client)) = Returned cashier)
    by reflexivity.
  split; [exact H|].
  destruct (protected_route_rendering backend_cashier Samples.credentials
              initial_client inventory_roles) as (_ & _ & Hlogin & _).
  exact (Hlogin cashier H).
Defined.

End RoutingProps.
